(** * Attitude estimation module of the Revolution board
    ([flight/Modules/Attitude/revolution/attitude.c])

    The C module is embedded as pure functions over an explicit state:
    the file-scope variables of [attitude.c], the function-scope statics,
    the UAVObjects it reads and writes, and a log of the calls it makes to
    its collaborators.  [float] and [double] values are IEEE 754 binary32 and
    binary64 numbers with round-to-nearest-even, every operation being rounded
    to the type C gives it (FLT_EVAL_METHOD 0, as on the Cortex-M target). *)

From Stdlib Require Import ZArith Bool List Lia.
From Stdlib Require Import Reals Lra.
From Stdlib Require Import Floats.SpecFloat.
Import ListNotations.
Open Scope Z_scope.

(** ** Machine integers *)

Definition wrap_u32 (z : Z) : Z := z mod 2 ^ 32.
Definition wrap_s32 (z : Z) : Z := (z + 2 ^ 31) mod 2 ^ 32 - 2 ^ 31.
Definition wrap_s16 (z : Z) : Z := (z + 2 ^ 15) mod 2 ^ 16 - 2 ^ 15.
Definition wrap_u8 (z : Z) : Z := z mod 2 ^ 8.

(** ** Floating point *)

Definition float : Type := spec_float.
Definition double : Type := spec_float.

Module F32.
Definition prec : Z := 24.
Definition emax : Z := 128.
Definition add : float -> float -> float := SFadd prec emax.
Definition sub : float -> float -> float := SFsub prec emax.
Definition mul : float -> float -> float := SFmul prec emax.
Definition div : float -> float -> float := SFdiv prec emax.
Definition neg : float -> float := SFopp.
Definition ltb : float -> float -> bool := SFltb.
Definition eqb : float -> float -> bool := SFeqb.
(** [x != y] of C: true as soon as one side is a NaN. *)
Definition neb (x y : float) : bool := negb (SFeqb x y).
(** Conversion of an integer to [float]. *)
Definition of_Z (z : Z) : float := binary_normalize prec emax z 0 false.
(** Conversion of a [double] to [float] (rounds). *)
Definition of_double (x : double) : float :=
  match x with
  | S754_finite s m e => binary_normalize prec emax (cond_Zopp s (Zpos m)) e s
  | _ => x
  end.
(** Conversion of a [float] to a signed integer: the fraction is discarded.
    Not-a-number and infinities have no integer value in C; they give 0
    here. *)
Definition to_Z (x : float) : Z :=
  match x with
  | S754_finite s m e =>
      cond_Zopp s (match e with
                   | Zneg p => Z.shiftr (Zpos m) (Zpos p)
                   | _ => Z.shiftl (Zpos m) e
                   end)
  | _ => 0
  end.
Definition zero : float := S754_zero false.
Definition one : float := of_Z 1.
Definition is_nan (x : float) : bool :=
  match x with S754_nan => true | _ => false end.
End F32.

Module F64.
Definition prec : Z := 53.
Definition emax : Z := 1024.
Definition mul : double -> double -> double := SFmul prec emax.
Definition div : double -> double -> double := SFdiv prec emax.
Definition ltb : double -> double -> bool := SFltb.
Definition of_Z (z : Z) : double := binary_normalize prec emax z 0 false.
(** Promotion of a [float] to [double] (exact). *)
Definition of_float (x : float) : double :=
  match x with
  | S754_finite s m e => binary_normalize prec emax (cond_Zopp s (Zpos m)) e s
  | _ => x
  end.
(** [sqrt] and [fabs] of the C library. *)
Definition sqrt : double -> double := SFsqrt prec emax.
Definition fabs : double -> double := SFabs.
(** A decimal literal [n / d] of type double: the nearest double. *)
Definition literal (n d : Z) : double := div (of_Z n) (of_Z d).
(** [M_PI] of [math.h], 0x1.921fb54442d18p+1. *)
Definition M_PI : double := S754_finite false 7074237752028440 (-51).
End F64.

(** [sqrt] applied to a [float] expression and stored in a [float]: the
    argument is promoted, the root taken in double, the result rounded. *)
Definition sqrt_to_float (x : float) : float :=
  F32.of_double (F64.sqrt (F64.of_float x)).

(** A literal with suffix [f]: the nearest float to [n / d]. *)
Definition literal_f (n d : Z) : float := F32.div (F32.of_Z n) (F32.of_Z d).

(** ** The real number a float stands for *)

Definition bpow (e : Z) : Rdefinitions.R := powerRZ 2 e.

Definition F2R (x : spec_float) : Rdefinitions.R :=
  match x with
  | S754_finite s m e =>
      ((if s then -1 else 1) * IZR (Z.pos m) * bpow e)%R
  | _ => 0%R
  end.

(** A zero or a finite number. *)
Definition is_finite (y : spec_float) : bool :=
  match y with S754_zero _ | S754_finite _ _ _ => true | _ => false end.

Definition sgnR (s : bool) : Rdefinitions.R := if s then (-1)%R else 1%R.

(** The float that rounding in a format of precision [prec] and largest
    exponent [emax] builds from the mantissa and exponent it arrives at. *)
Definition build_float (prec emax : Z) (sx : bool) (m e : Z) : spec_float :=
  match m with
  | 0 => S754_zero sx
  | Z.pos p => if e <=? emax - prec then S754_finite sx p e
               else S754_infinity sx
  | Z.neg _ => S754_nan
  end.

(** Bounds on the error of one rounding: relative to the exact value, and
    absolute for results below the normal range. *)
Definition rel_error (prec : Z) : Rdefinitions.R := bpow (3 - prec).
Definition abs_error (prec emax : Z) : Rdefinitions.R :=
  (2 * bpow (emin prec emax))%R.

(** A zero or a finite number of the format, with sign [s]. *)
Definition shaped_as (prec emax : Z) (s : bool) (y : spec_float) : Prop :=
  y = S754_zero s
  \/ exists p e, y = S754_finite s p e
                 /\ emin prec emax <= e <= emax - prec
                 /\ Zdigits2 (Z.pos p) <= prec.

(** [y] has sign [s] and a magnitude within the error bounds of [x]. *)
Definition approximates (prec emax : Z) (s : bool) (y : spec_float)
    (x : Rdefinitions.R) : Prop :=
  shaped_as prec emax s y
  /\ (Rabs (F2R y - sgnR s * x)
      <= rel_error prec * x + abs_error prec emax)%R.

(** ** Arrays of fixed size *)

Record arr3 (A : Type) : Type := Arr3 { at0 : A; at1 : A; at2 : A }.
Arguments Arr3 {A} _ _ _.
Arguments at0 {A} _.
Arguments at1 {A} _.
Arguments at2 {A} _.

Record arr4 (A : Type) : Type := Arr4 { q0 : A; q1 : A; q2 : A; q3 : A }.
Arguments Arr4 {A} _ _ _ _.
Arguments q0 {A} _.
Arguments q1 {A} _.
Arguments q2 {A} _.
Arguments q3 {A} _.

Definition set_at2 {A : Type} (v : A) (a : arr3 A) : arr3 A :=
  Arr3 (at0 a) (at1 a) v.

Definition zero3 : arr3 float := Arr3 F32.zero F32.zero F32.zero.
Definition zero3i : arr3 Z := Arr3 0 0 0.
Definition q_identity : arr4 float := Arr4 F32.one F32.zero F32.zero F32.zero.

(** ** Magnitudes and norms *)

(** A zero, or a finite number of magnitude below [2 ^ n]. *)
Definition magnitude_below (n : Z) (x : float) : bool :=
  match x with
  | S754_zero _ => true
  | S754_finite _ m e => Zdigits2 (Z.pos m) + e <=? n
  | _ => false
  end.

Definition quat_below (n : Z) (v : arr4 float) : bool :=
  magnitude_below n (q0 v) && magnitude_below n (q1 v)
  && magnitude_below n (q2 v) && magnitude_below n (q3 v).

Definition quat_finite (v : arr4 float) : bool :=
  is_finite (q0 v) && is_finite (q1 v) && is_finite (q2 v)
  && is_finite (q3 v).

(** The Euclidean norm of a quaternion of finite components. *)
Definition quat_norm (v : arr4 float) : Rdefinitions.R :=
  sqrt (F2R (q0 v) * F2R (q0 v) + F2R (q1 v) * F2R (q1 v)
        + F2R (q2 v) * F2R (q2 v) + F2R (q3 v) * F2R (q3 v)).

(** A quaternion of finite components, of norm 1 within 1e-5, whose scalar
    part is not negative. *)
Definition unit_quaternion (v : arr4 float) : Prop :=
  quat_finite v = true
  /\ (Rabs (quat_norm v - 1) <= 1 / 100000)%R
  /\ (0 <= F2R (q0 v))%R.

(** ** Driver and UAVObject records

    Modelled from the spec: the headers that declare these records
    ([pios_bma180.h], [pios_mpu6050.h], and the generated [attituderaw.h],
    [attitudeactual.h], [attitudesettings.h], [baroaltitude.h],
    [flightstatus.h], [systemalarms.h]) are not part of the sources.  The
    fields are the ones [attitude.c] names; the raw sample holds floats
    (3 accelerometer, 3 gyroscope, 3 magnetometer, two temperatures), driver
    samples and stored settings are 16-bit integers, and the enumerations of
    the generated headers number their options from 0 in declaration
    order. *)

Record pios_bma180_data : Type := mkBma180
  { bma_x : Z; bma_y : Z; bma_z : Z; bma_temperature : Z }.

Record pios_mpu6050_data : Type := mkMpu6050
  { gyro_x : Z; gyro_y : Z; gyro_z : Z; mpu_temperature : Z }.

Record AttitudeRawData : Type := mkAttitudeRaw
  { magnetometers : arr3 float;
    gyros : arr3 float;
    accels : arr3 float;
    temperature_gyro : float;
    temperature_accel : float }.

Record AttitudeActualData : Type := mkAttitudeActual
  { aa_q1 : float; aa_q2 : float; aa_q3 : float; aa_q4 : float;
    aa_Roll : float; aa_Pitch : float; aa_Yaw : float }.

Record AttitudeSettingsData : Type := mkAttitudeSettings
  { AccelKp : float; AccelKi : float; YawBiasRate : float; GyroGain : float;
    ZeroDuringArming : Z; BiasCorrectGyro : Z;
    AccelBias : arr3 Z; GyroBias : arr3 Z; BoardRotation : arr3 Z }.

Record BaroAltitudeData : Type := mkBaroAltitude
  { Altitude : float; Temperature : float; Pressure : float }.

Definition ATTITUDESETTINGS_ZERODURINGARMING_TRUE : Z := 1.
Definition ATTITUDESETTINGS_BIASCORRECTGYRO_TRUE : Z := 1.
Definition FLIGHTSTATUS_ARMED_ARMING : Z := 1.
Definition BMP085_P0 : Z := 101325.

Inductive AlarmSeverity : Type :=
  | SYSTEMALARMS_ALARM_OK
  | SYSTEMALARMS_ALARM_WARNING
  | SYSTEMALARMS_ALARM_ERROR
  | SYSTEMALARMS_ALARM_CRITICAL.

Inductive ConversionType : Type := TemperatureConv | PressureConv.

Definition zero_raw : AttitudeRawData :=
  mkAttitudeRaw zero3 zero3 zero3 F32.zero F32.zero.

(** ** Calls made to the collaborators, in program order *)

Inductive UAVObj : Type :=
  | ObjAttitudeRaw
  | ObjAttitudeActual
  | ObjAttitudeSettings
  | ObjBaroAltitude
  | ObjFlightStatus.

Inductive Event : Type :=
  | EvGet (o : UAVObj)
  | EvAlarmsClear
  | EvAlarmsSet (sev : AlarmSeverity)
  | EvAttitudeRawSet (d : AttitudeRawData)
  | EvAttitudeActualSet (d : AttitudeActualData)
  | EvBaroAltitudeSet (d : BaroAltitudeData)
  | EvWDG_UpdateFlag
  | EvBMP085_StartADC (c : ConversionType)
  | EvTaskDelay (ticks : Z).

(** ** The state of the module

    File-scope variables of [attitude.c] under their own names, then the
    function-scope statics ([baro_conversions] of [updateSensors],
    [lastSysTime] of [updateAttitude]), the local [init] of [AttitudeTask]
    that lives across iterations of its loop, the UAVObjects, the attitude
    alarm, and the log. *)

Record State : Type := mkState
  { gyro_correct_int : arr3 float;
    accelKi : float;
    accelKp : float;
    yawBiasRate : float;
    gyroGain : float;
    accelbias : arr3 Z;
    q : arr4 float;
    R : arr3 (arr3 float);
    rotate : Z;
    zero_during_arming : bool;
    bias_correct_gyro : bool;
    accel_test : Z;
    gyro_test : Z;
    mag_test : Z;
    pressure_test : Z;
    accel_samples : Z;
    gyro_samples : Z;
    accel : pios_bma180_data;
    gyro : pios_mpu6050_data;
    raw : AttitudeRawData;
    accel_accum : arr3 Z;
    gyro_accum : arr3 Z;
    scaling : float;
    baro_conversions : Z;
    lastSysTime : Z;
    init : Z;
    AttitudeRaw : AttitudeRawData;
    AttitudeActual : AttitudeActualData;
    AttitudeSettings : AttitudeSettingsData;
    BaroAltitude : BaroAltitudeData;
    alarm_attitude : AlarmSeverity;
    log : list Event }.

Definition set_gyro_correct_int (v : arr3 float) (s : State) : State :=
  mkState v (accelKi s) (accelKp s) (yawBiasRate s) (gyroGain s)
    (accelbias s) (q s) (R s) (rotate s) (zero_during_arming s)
    (bias_correct_gyro s) (accel_test s) (gyro_test s) (mag_test s)
    (pressure_test s) (accel_samples s) (gyro_samples s) (accel s) (gyro s)
    (raw s) (accel_accum s) (gyro_accum s) (scaling s) (baro_conversions s)
    (lastSysTime s) (init s) (AttitudeRaw s) (AttitudeActual s)
    (AttitudeSettings s) (BaroAltitude s) (alarm_attitude s) (log s).

Definition set_accelKi (v : float) (s : State) : State :=
  mkState (gyro_correct_int s) v (accelKp s) (yawBiasRate s) (gyroGain s)
    (accelbias s) (q s) (R s) (rotate s) (zero_during_arming s)
    (bias_correct_gyro s) (accel_test s) (gyro_test s) (mag_test s)
    (pressure_test s) (accel_samples s) (gyro_samples s) (accel s) (gyro s)
    (raw s) (accel_accum s) (gyro_accum s) (scaling s) (baro_conversions s)
    (lastSysTime s) (init s) (AttitudeRaw s) (AttitudeActual s)
    (AttitudeSettings s) (BaroAltitude s) (alarm_attitude s) (log s).

Definition set_accelKp (v : float) (s : State) : State :=
  mkState (gyro_correct_int s) (accelKi s) v (yawBiasRate s) (gyroGain s)
    (accelbias s) (q s) (R s) (rotate s) (zero_during_arming s)
    (bias_correct_gyro s) (accel_test s) (gyro_test s) (mag_test s)
    (pressure_test s) (accel_samples s) (gyro_samples s) (accel s) (gyro s)
    (raw s) (accel_accum s) (gyro_accum s) (scaling s) (baro_conversions s)
    (lastSysTime s) (init s) (AttitudeRaw s) (AttitudeActual s)
    (AttitudeSettings s) (BaroAltitude s) (alarm_attitude s) (log s).

Definition set_yawBiasRate (v : float) (s : State) : State :=
  mkState (gyro_correct_int s) (accelKi s) (accelKp s) v (gyroGain s)
    (accelbias s) (q s) (R s) (rotate s) (zero_during_arming s)
    (bias_correct_gyro s) (accel_test s) (gyro_test s) (mag_test s)
    (pressure_test s) (accel_samples s) (gyro_samples s) (accel s) (gyro s)
    (raw s) (accel_accum s) (gyro_accum s) (scaling s) (baro_conversions s)
    (lastSysTime s) (init s) (AttitudeRaw s) (AttitudeActual s)
    (AttitudeSettings s) (BaroAltitude s) (alarm_attitude s) (log s).

Definition set_gyroGain (v : float) (s : State) : State :=
  mkState (gyro_correct_int s) (accelKi s) (accelKp s) (yawBiasRate s) v
    (accelbias s) (q s) (R s) (rotate s) (zero_during_arming s)
    (bias_correct_gyro s) (accel_test s) (gyro_test s) (mag_test s)
    (pressure_test s) (accel_samples s) (gyro_samples s) (accel s) (gyro s)
    (raw s) (accel_accum s) (gyro_accum s) (scaling s) (baro_conversions s)
    (lastSysTime s) (init s) (AttitudeRaw s) (AttitudeActual s)
    (AttitudeSettings s) (BaroAltitude s) (alarm_attitude s) (log s).

Definition set_accelbias (v : arr3 Z) (s : State) : State :=
  mkState (gyro_correct_int s) (accelKi s) (accelKp s) (yawBiasRate s)
    (gyroGain s) v (q s) (R s) (rotate s) (zero_during_arming s)
    (bias_correct_gyro s) (accel_test s) (gyro_test s) (mag_test s)
    (pressure_test s) (accel_samples s) (gyro_samples s) (accel s) (gyro s)
    (raw s) (accel_accum s) (gyro_accum s) (scaling s) (baro_conversions s)
    (lastSysTime s) (init s) (AttitudeRaw s) (AttitudeActual s)
    (AttitudeSettings s) (BaroAltitude s) (alarm_attitude s) (log s).

Definition set_q (v : arr4 float) (s : State) : State :=
  mkState (gyro_correct_int s) (accelKi s) (accelKp s) (yawBiasRate s)
    (gyroGain s) (accelbias s) v (R s) (rotate s) (zero_during_arming s)
    (bias_correct_gyro s) (accel_test s) (gyro_test s) (mag_test s)
    (pressure_test s) (accel_samples s) (gyro_samples s) (accel s) (gyro s)
    (raw s) (accel_accum s) (gyro_accum s) (scaling s) (baro_conversions s)
    (lastSysTime s) (init s) (AttitudeRaw s) (AttitudeActual s)
    (AttitudeSettings s) (BaroAltitude s) (alarm_attitude s) (log s).

Definition set_R (v : arr3 (arr3 float)) (s : State) : State :=
  mkState (gyro_correct_int s) (accelKi s) (accelKp s) (yawBiasRate s)
    (gyroGain s) (accelbias s) (q s) v (rotate s) (zero_during_arming s)
    (bias_correct_gyro s) (accel_test s) (gyro_test s) (mag_test s)
    (pressure_test s) (accel_samples s) (gyro_samples s) (accel s) (gyro s)
    (raw s) (accel_accum s) (gyro_accum s) (scaling s) (baro_conversions s)
    (lastSysTime s) (init s) (AttitudeRaw s) (AttitudeActual s)
    (AttitudeSettings s) (BaroAltitude s) (alarm_attitude s) (log s).

Definition set_rotate (v : Z) (s : State) : State :=
  mkState (gyro_correct_int s) (accelKi s) (accelKp s) (yawBiasRate s)
    (gyroGain s) (accelbias s) (q s) (R s) v (zero_during_arming s)
    (bias_correct_gyro s) (accel_test s) (gyro_test s) (mag_test s)
    (pressure_test s) (accel_samples s) (gyro_samples s) (accel s) (gyro s)
    (raw s) (accel_accum s) (gyro_accum s) (scaling s) (baro_conversions s)
    (lastSysTime s) (init s) (AttitudeRaw s) (AttitudeActual s)
    (AttitudeSettings s) (BaroAltitude s) (alarm_attitude s) (log s).

Definition set_zero_during_arming (v : bool) (s : State) : State :=
  mkState (gyro_correct_int s) (accelKi s) (accelKp s) (yawBiasRate s)
    (gyroGain s) (accelbias s) (q s) (R s) (rotate s) v
    (bias_correct_gyro s) (accel_test s) (gyro_test s) (mag_test s)
    (pressure_test s) (accel_samples s) (gyro_samples s) (accel s) (gyro s)
    (raw s) (accel_accum s) (gyro_accum s) (scaling s) (baro_conversions s)
    (lastSysTime s) (init s) (AttitudeRaw s) (AttitudeActual s)
    (AttitudeSettings s) (BaroAltitude s) (alarm_attitude s) (log s).

Definition set_bias_correct_gyro (v : bool) (s : State) : State :=
  mkState (gyro_correct_int s) (accelKi s) (accelKp s) (yawBiasRate s)
    (gyroGain s) (accelbias s) (q s) (R s) (rotate s) (zero_during_arming s)
    v (accel_test s) (gyro_test s) (mag_test s) (pressure_test s)
    (accel_samples s) (gyro_samples s) (accel s) (gyro s) (raw s)
    (accel_accum s) (gyro_accum s) (scaling s) (baro_conversions s)
    (lastSysTime s) (init s) (AttitudeRaw s) (AttitudeActual s)
    (AttitudeSettings s) (BaroAltitude s) (alarm_attitude s) (log s).

Definition set_accel_test (v : Z) (s : State) : State :=
  mkState (gyro_correct_int s) (accelKi s) (accelKp s) (yawBiasRate s)
    (gyroGain s) (accelbias s) (q s) (R s) (rotate s) (zero_during_arming s)
    (bias_correct_gyro s) v (gyro_test s) (mag_test s) (pressure_test s)
    (accel_samples s) (gyro_samples s) (accel s) (gyro s) (raw s)
    (accel_accum s) (gyro_accum s) (scaling s) (baro_conversions s)
    (lastSysTime s) (init s) (AttitudeRaw s) (AttitudeActual s)
    (AttitudeSettings s) (BaroAltitude s) (alarm_attitude s) (log s).

Definition set_gyro_test (v : Z) (s : State) : State :=
  mkState (gyro_correct_int s) (accelKi s) (accelKp s) (yawBiasRate s)
    (gyroGain s) (accelbias s) (q s) (R s) (rotate s) (zero_during_arming s)
    (bias_correct_gyro s) (accel_test s) v (mag_test s) (pressure_test s)
    (accel_samples s) (gyro_samples s) (accel s) (gyro s) (raw s)
    (accel_accum s) (gyro_accum s) (scaling s) (baro_conversions s)
    (lastSysTime s) (init s) (AttitudeRaw s) (AttitudeActual s)
    (AttitudeSettings s) (BaroAltitude s) (alarm_attitude s) (log s).

Definition set_mag_test (v : Z) (s : State) : State :=
  mkState (gyro_correct_int s) (accelKi s) (accelKp s) (yawBiasRate s)
    (gyroGain s) (accelbias s) (q s) (R s) (rotate s) (zero_during_arming s)
    (bias_correct_gyro s) (accel_test s) (gyro_test s) v (pressure_test s)
    (accel_samples s) (gyro_samples s) (accel s) (gyro s) (raw s)
    (accel_accum s) (gyro_accum s) (scaling s) (baro_conversions s)
    (lastSysTime s) (init s) (AttitudeRaw s) (AttitudeActual s)
    (AttitudeSettings s) (BaroAltitude s) (alarm_attitude s) (log s).

Definition set_pressure_test (v : Z) (s : State) : State :=
  mkState (gyro_correct_int s) (accelKi s) (accelKp s) (yawBiasRate s)
    (gyroGain s) (accelbias s) (q s) (R s) (rotate s) (zero_during_arming s)
    (bias_correct_gyro s) (accel_test s) (gyro_test s) (mag_test s) v
    (accel_samples s) (gyro_samples s) (accel s) (gyro s) (raw s)
    (accel_accum s) (gyro_accum s) (scaling s) (baro_conversions s)
    (lastSysTime s) (init s) (AttitudeRaw s) (AttitudeActual s)
    (AttitudeSettings s) (BaroAltitude s) (alarm_attitude s) (log s).

Definition set_accel_samples (v : Z) (s : State) : State :=
  mkState (gyro_correct_int s) (accelKi s) (accelKp s) (yawBiasRate s)
    (gyroGain s) (accelbias s) (q s) (R s) (rotate s) (zero_during_arming s)
    (bias_correct_gyro s) (accel_test s) (gyro_test s) (mag_test s)
    (pressure_test s) v (gyro_samples s) (accel s) (gyro s) (raw s)
    (accel_accum s) (gyro_accum s) (scaling s) (baro_conversions s)
    (lastSysTime s) (init s) (AttitudeRaw s) (AttitudeActual s)
    (AttitudeSettings s) (BaroAltitude s) (alarm_attitude s) (log s).

Definition set_gyro_samples (v : Z) (s : State) : State :=
  mkState (gyro_correct_int s) (accelKi s) (accelKp s) (yawBiasRate s)
    (gyroGain s) (accelbias s) (q s) (R s) (rotate s) (zero_during_arming s)
    (bias_correct_gyro s) (accel_test s) (gyro_test s) (mag_test s)
    (pressure_test s) (accel_samples s) v (accel s) (gyro s) (raw s)
    (accel_accum s) (gyro_accum s) (scaling s) (baro_conversions s)
    (lastSysTime s) (init s) (AttitudeRaw s) (AttitudeActual s)
    (AttitudeSettings s) (BaroAltitude s) (alarm_attitude s) (log s).

Definition set_accel (v : pios_bma180_data) (s : State) : State :=
  mkState (gyro_correct_int s) (accelKi s) (accelKp s) (yawBiasRate s)
    (gyroGain s) (accelbias s) (q s) (R s) (rotate s) (zero_during_arming s)
    (bias_correct_gyro s) (accel_test s) (gyro_test s) (mag_test s)
    (pressure_test s) (accel_samples s) (gyro_samples s) v (gyro s) (raw s)
    (accel_accum s) (gyro_accum s) (scaling s) (baro_conversions s)
    (lastSysTime s) (init s) (AttitudeRaw s) (AttitudeActual s)
    (AttitudeSettings s) (BaroAltitude s) (alarm_attitude s) (log s).

Definition set_gyro (v : pios_mpu6050_data) (s : State) : State :=
  mkState (gyro_correct_int s) (accelKi s) (accelKp s) (yawBiasRate s)
    (gyroGain s) (accelbias s) (q s) (R s) (rotate s) (zero_during_arming s)
    (bias_correct_gyro s) (accel_test s) (gyro_test s) (mag_test s)
    (pressure_test s) (accel_samples s) (gyro_samples s) (accel s) v (raw s)
    (accel_accum s) (gyro_accum s) (scaling s) (baro_conversions s)
    (lastSysTime s) (init s) (AttitudeRaw s) (AttitudeActual s)
    (AttitudeSettings s) (BaroAltitude s) (alarm_attitude s) (log s).

Definition set_accel_accum (v : arr3 Z) (s : State) : State :=
  mkState (gyro_correct_int s) (accelKi s) (accelKp s) (yawBiasRate s)
    (gyroGain s) (accelbias s) (q s) (R s) (rotate s) (zero_during_arming s)
    (bias_correct_gyro s) (accel_test s) (gyro_test s) (mag_test s)
    (pressure_test s) (accel_samples s) (gyro_samples s) (accel s) (gyro s)
    (raw s) v (gyro_accum s) (scaling s) (baro_conversions s)
    (lastSysTime s) (init s) (AttitudeRaw s) (AttitudeActual s)
    (AttitudeSettings s) (BaroAltitude s) (alarm_attitude s) (log s).

Definition set_gyro_accum (v : arr3 Z) (s : State) : State :=
  mkState (gyro_correct_int s) (accelKi s) (accelKp s) (yawBiasRate s)
    (gyroGain s) (accelbias s) (q s) (R s) (rotate s) (zero_during_arming s)
    (bias_correct_gyro s) (accel_test s) (gyro_test s) (mag_test s)
    (pressure_test s) (accel_samples s) (gyro_samples s) (accel s) (gyro s)
    (raw s) (accel_accum s) v (scaling s) (baro_conversions s)
    (lastSysTime s) (init s) (AttitudeRaw s) (AttitudeActual s)
    (AttitudeSettings s) (BaroAltitude s) (alarm_attitude s) (log s).

Definition set_scaling (v : float) (s : State) : State :=
  mkState (gyro_correct_int s) (accelKi s) (accelKp s) (yawBiasRate s)
    (gyroGain s) (accelbias s) (q s) (R s) (rotate s) (zero_during_arming s)
    (bias_correct_gyro s) (accel_test s) (gyro_test s) (mag_test s)
    (pressure_test s) (accel_samples s) (gyro_samples s) (accel s) (gyro s)
    (raw s) (accel_accum s) (gyro_accum s) v (baro_conversions s)
    (lastSysTime s) (init s) (AttitudeRaw s) (AttitudeActual s)
    (AttitudeSettings s) (BaroAltitude s) (alarm_attitude s) (log s).

Definition set_baro_conversions (v : Z) (s : State) : State :=
  mkState (gyro_correct_int s) (accelKi s) (accelKp s) (yawBiasRate s)
    (gyroGain s) (accelbias s) (q s) (R s) (rotate s) (zero_during_arming s)
    (bias_correct_gyro s) (accel_test s) (gyro_test s) (mag_test s)
    (pressure_test s) (accel_samples s) (gyro_samples s) (accel s) (gyro s)
    (raw s) (accel_accum s) (gyro_accum s) (scaling s) v (lastSysTime s)
    (init s) (AttitudeRaw s) (AttitudeActual s) (AttitudeSettings s)
    (BaroAltitude s) (alarm_attitude s) (log s).

Definition set_lastSysTime (v : Z) (s : State) : State :=
  mkState (gyro_correct_int s) (accelKi s) (accelKp s) (yawBiasRate s)
    (gyroGain s) (accelbias s) (q s) (R s) (rotate s) (zero_during_arming s)
    (bias_correct_gyro s) (accel_test s) (gyro_test s) (mag_test s)
    (pressure_test s) (accel_samples s) (gyro_samples s) (accel s) (gyro s)
    (raw s) (accel_accum s) (gyro_accum s) (scaling s) (baro_conversions s)
    v (init s) (AttitudeRaw s) (AttitudeActual s) (AttitudeSettings s)
    (BaroAltitude s) (alarm_attitude s) (log s).

Definition set_init (v : Z) (s : State) : State :=
  mkState (gyro_correct_int s) (accelKi s) (accelKp s) (yawBiasRate s)
    (gyroGain s) (accelbias s) (q s) (R s) (rotate s) (zero_during_arming s)
    (bias_correct_gyro s) (accel_test s) (gyro_test s) (mag_test s)
    (pressure_test s) (accel_samples s) (gyro_samples s) (accel s) (gyro s)
    (raw s) (accel_accum s) (gyro_accum s) (scaling s) (baro_conversions s)
    (lastSysTime s) v (AttitudeRaw s) (AttitudeActual s)
    (AttitudeSettings s) (BaroAltitude s) (alarm_attitude s) (log s).

Definition set_AttitudeRaw (v : AttitudeRawData) (s : State) : State :=
  mkState (gyro_correct_int s) (accelKi s) (accelKp s) (yawBiasRate s)
    (gyroGain s) (accelbias s) (q s) (R s) (rotate s) (zero_during_arming s)
    (bias_correct_gyro s) (accel_test s) (gyro_test s) (mag_test s)
    (pressure_test s) (accel_samples s) (gyro_samples s) (accel s) (gyro s)
    (raw s) (accel_accum s) (gyro_accum s) (scaling s) (baro_conversions s)
    (lastSysTime s) (init s) v (AttitudeActual s) (AttitudeSettings s)
    (BaroAltitude s) (alarm_attitude s) (log s).

Definition set_AttitudeActual (v : AttitudeActualData) (s : State) : State :=
  mkState (gyro_correct_int s) (accelKi s) (accelKp s) (yawBiasRate s)
    (gyroGain s) (accelbias s) (q s) (R s) (rotate s) (zero_during_arming s)
    (bias_correct_gyro s) (accel_test s) (gyro_test s) (mag_test s)
    (pressure_test s) (accel_samples s) (gyro_samples s) (accel s) (gyro s)
    (raw s) (accel_accum s) (gyro_accum s) (scaling s) (baro_conversions s)
    (lastSysTime s) (init s) (AttitudeRaw s) v (AttitudeSettings s)
    (BaroAltitude s) (alarm_attitude s) (log s).

Definition set_AttitudeSettings (v : AttitudeSettingsData) (s : State) : State :=
  mkState (gyro_correct_int s) (accelKi s) (accelKp s) (yawBiasRate s)
    (gyroGain s) (accelbias s) (q s) (R s) (rotate s) (zero_during_arming s)
    (bias_correct_gyro s) (accel_test s) (gyro_test s) (mag_test s)
    (pressure_test s) (accel_samples s) (gyro_samples s) (accel s) (gyro s)
    (raw s) (accel_accum s) (gyro_accum s) (scaling s) (baro_conversions s)
    (lastSysTime s) (init s) (AttitudeRaw s) (AttitudeActual s) v
    (BaroAltitude s) (alarm_attitude s) (log s).

Definition set_BaroAltitude (v : BaroAltitudeData) (s : State) : State :=
  mkState (gyro_correct_int s) (accelKi s) (accelKp s) (yawBiasRate s)
    (gyroGain s) (accelbias s) (q s) (R s) (rotate s) (zero_during_arming s)
    (bias_correct_gyro s) (accel_test s) (gyro_test s) (mag_test s)
    (pressure_test s) (accel_samples s) (gyro_samples s) (accel s) (gyro s)
    (raw s) (accel_accum s) (gyro_accum s) (scaling s) (baro_conversions s)
    (lastSysTime s) (init s) (AttitudeRaw s) (AttitudeActual s)
    (AttitudeSettings s) v (alarm_attitude s) (log s).

Definition set_alarm_attitude (v : AlarmSeverity) (s : State) : State :=
  mkState (gyro_correct_int s) (accelKi s) (accelKp s) (yawBiasRate s)
    (gyroGain s) (accelbias s) (q s) (R s) (rotate s) (zero_during_arming s)
    (bias_correct_gyro s) (accel_test s) (gyro_test s) (mag_test s)
    (pressure_test s) (accel_samples s) (gyro_samples s) (accel s) (gyro s)
    (raw s) (accel_accum s) (gyro_accum s) (scaling s) (baro_conversions s)
    (lastSysTime s) (init s) (AttitudeRaw s) (AttitudeActual s)
    (AttitudeSettings s) (BaroAltitude s) v (log s).

Definition set_log (v : list Event) (s : State) : State :=
  mkState (gyro_correct_int s) (accelKi s) (accelKp s) (yawBiasRate s)
    (gyroGain s) (accelbias s) (q s) (R s) (rotate s) (zero_during_arming s)
    (bias_correct_gyro s) (accel_test s) (gyro_test s) (mag_test s)
    (pressure_test s) (accel_samples s) (gyro_samples s) (accel s) (gyro s)
    (raw s) (accel_accum s) (gyro_accum s) (scaling s) (baro_conversions s)
    (lastSysTime s) (init s) (AttitudeRaw s) (AttitudeActual s)
    (AttitudeSettings s) (BaroAltitude s) (alarm_attitude s) v.

(** ** UAVObject bus, alarms, watchdog *)

Definition emit (e : Event) (s : State) : State := set_log (log s ++ [e]) s.

Definition AttitudeRawSet (d : AttitudeRawData) (s : State) : State :=
  emit (EvAttitudeRawSet d) (set_AttitudeRaw d s).

Definition AttitudeActualSet (d : AttitudeActualData) (s : State) : State :=
  emit (EvAttitudeActualSet d) (set_AttitudeActual d s).

Definition BaroAltitudeSet (d : BaroAltitudeData) (s : State) : State :=
  emit (EvBaroAltitudeSet d) (set_BaroAltitude d s).

Definition AlarmsSet (sev : AlarmSeverity) (s : State) : State :=
  emit (EvAlarmsSet sev) (set_alarm_attitude sev s).

Definition AlarmsClear (s : State) : State :=
  emit EvAlarmsClear (set_alarm_attitude SYSTEMALARMS_ALARM_OK s).

(** ** What the environment supplies

    Each call of a driver function is answered by the environment.  A FIFO is
    the sequence of answers to successive [ReadFifo] calls of one invocation
    of [updateSensors]: [Some d] for a return value of 0 with the sample [d]
    stored through the pointer, [None] for a non-zero return value (nothing
    buffered), which leaves the target untouched. *)

Record SensorInput : Type := mkSensorInput
  { accel_fifo : nat -> option pios_bma180_data;
    accel_scale : float;                 (* PIOS_BMA180_GetScale() *)
    gyro_fifo : nat -> option pios_mpu6050_data;
    gyro_scale : float;                  (* PIOS_MPU6050_GetScale() *)
    mag_new : option (arr3 Z);           (* NewDataAvailable / ReadMag *)
    baro_adc : Z;                        (* PIOS_BMP085_ReadADC() *)
    baro_pressure : Z;                   (* PIOS_BMP085_GetPressure() *)
    baro_temperature : Z }.              (* PIOS_BMP085_GetTemperature() *)

Record CycleInput : Type := mkCycleInput
  { tick_a : Z;                          (* first xTaskGetTickCount() *)
    tick_b : Z;                          (* second xTaskGetTickCount() *)
    flightStatus_Armed : Z;
    sensors : SensorInput }.

(** ** FIFO loops of [updateSensors]

    Both loops may spin for ever: they take fuel, one unit per [ReadFifo]
    call, and [None] means the fuel ran out with the loop still running. *)

Section Fifo.
Context {D : Type}.
Variable fifo : nat -> option D.
(** [accum[i] += sample.i] on the 32-bit accumulators. *)
Variable accumulate : arr3 Z -> D -> arr3 Z.

(** [while((read_good = ReadFifo(&d)) != 0);] from the [k]-th call on:
    the index of the next call and the sample that was read. *)
Fixpoint wait_sample (fuel : nat) (k : nat) : option (nat * D) :=
  match fuel with
  | O => None
  | S fuel' =>
      match fifo k with
      | Some d => Some (S k, d)
      | None => wait_sample fuel' (S k)
      end
  end.

(** [while(read_good == 0) { count++; accum += d; read_good = ReadFifo(&d); }]
    entered with the sample [d] just read. *)
Fixpoint drain (fuel : nat) (k : nat) (d : D) (count : Z) (acc : arr3 Z)
  : option (nat * D * Z * arr3 Z) :=
  match fuel with
  | O => None
  | S fuel' =>
      let count' := wrap_s32 (count + 1) in
      let acc' := accumulate acc d in
      match fifo k with
      | Some d' => drain fuel' (S k) d' count' acc'
      | None => Some (S k, d, count', acc')
      end
  end.

(** The two loops in sequence, from the first call, with [count = 0] and
    cleared accumulators: last sample held, [count], accumulators. *)
Definition read_all (fuel : nat) : option (D * Z * arr3 Z) :=
  match wait_sample fuel O with
  | None => None
  | Some (k, d) =>
      match drain fuel k d 0 zero3i with
      | None => None
      | Some (_, d', count, acc) => Some (d', count, acc)
      end
  end.
End Fifo.

Definition accum_accel (acc : arr3 Z) (d : pios_bma180_data) : arr3 Z :=
  Arr3 (wrap_s32 (at0 acc + bma_x d)) (wrap_s32 (at1 acc + bma_y d))
       (wrap_s32 (at2 acc + bma_z d)).

Definition accum_gyro (acc : arr3 Z) (d : pios_mpu6050_data) : arr3 Z :=
  Arr3 (wrap_s32 (at0 acc + gyro_x d)) (wrap_s32 (at1 acc + gyro_y d))
       (wrap_s32 (at2 acc + gyro_z d)).

(** ** Vector helpers of [CoordinateConversions.h]

    Modelled from the spec: [CoordinateConversions.c] is not part of the
    sources.  The spec calls the tilt error "the cross product of the measured
    accelerometer vector and g_body"; [CrossProduct v1 v2] is that product,
    each component one difference of two products in single precision.
    [quat_copy] copies the four components. *)
Definition CrossProduct (v1 v2 : arr3 float) : arr3 float :=
  Arr3 (F32.sub (F32.mul (at1 v1) (at2 v2)) (F32.mul (at1 v2) (at2 v1)))
       (F32.sub (F32.mul (at0 v2) (at2 v1)) (F32.mul (at0 v1) (at2 v2)))
       (F32.sub (F32.mul (at0 v1) (at1 v2)) (F32.mul (at0 v2) (at1 v1))).

Definition quat_copy (src : arr4 float) (d : AttitudeActualData)
  : AttitudeActualData :=
  mkAttitudeActual (q0 src) (q1 src) (q2 src) (q3 src)
                   (aa_Roll d) (aa_Pitch d) (aa_Yaw d).

Definition set_rpy (rpy : arr3 float) (d : AttitudeActualData)
  : AttitudeActualData :=
  mkAttitudeActual (aa_q1 d) (aa_q2 d) (aa_q3 d) (aa_q4 d)
                   (at0 rpy) (at1 rpy) (at2 rpy).

Definition actual_q (d : AttitudeActualData) : arr4 float :=
  Arr4 (aa_q1 d) (aa_q2 d) (aa_q3 d) (aa_q4 d).

(** The state at reset: the initialisers of [attitude.c], zero for what has
    none, and the UAVObjects as the object manager holds them. *)
Definition zero_actual : AttitudeActualData :=
  mkAttitudeActual F32.zero F32.zero F32.zero F32.zero F32.zero F32.zero
                   F32.zero.

Definition reset_state (settings : AttitudeSettingsData) : State :=
  mkState zero3 F32.zero F32.zero F32.zero (F32.of_double (F64.literal 42 100))
    zero3i q_identity (Arr3 zero3 zero3 zero3) 0 false true
    0 0 0 0
    0 0 (mkBma180 0 0 0 0) (mkMpu6050 0 0 0 0) zero_raw zero3i zero3i F32.zero
    0 0 0
    zero_raw zero_actual settings
    (mkBaroAltitude F32.zero F32.zero F32.zero)
    SYSTEMALARMS_ALARM_OK [].

(** ** Shapes of inputs used in the statements *)

(** A FIFO whose first [k] reads find nothing, whose next reads return the
    samples of [l] in order, and which is empty from then on. *)
Definition fifo_of {D : Type} (k : nat) (l : list D) (n : nat) : option D :=
  if Nat.ltb n k then None else nth_error l (n - k).

(** A FIFO that never holds a sample. *)
Definition fifo_empty {D : Type} (n : nat) : option D := None.

Definition sum_of {D : Type} (f : D -> Z) (l : list D) : Z :=
  fold_right (fun d acc => f d + acc) 0 l.

Definition is_AttitudeActualSet (e : Event) : bool :=
  match e with EvAttitudeActualSet _ => true | _ => false end.

Definition is_AttitudeRawSet (e : Event) : bool :=
  match e with EvAttitudeRawSet _ => true | _ => false end.

Definition is_settings_read (e : Event) : bool :=
  match e with EvGet ObjAttitudeSettings => true | _ => false end.

(** Number of reads of the settings object in a stretch of the log. *)
Definition settings_reads (evs : list Event) : nat :=
  length (filter is_settings_read evs).

Definition is_baro_event (e : Event) : bool :=
  match e with
  | EvBMP085_StartADC _ | EvGet ObjBaroAltitude | EvBaroAltitudeSet _ => true
  | _ => false
  end.

Definition is_read (e : Event) : bool :=
  match e with EvGet _ => true | _ => false end.

(** Two states agree on everything but the filter's own variables ([q],
    [gyro_correct_int], [lastSysTime]), the AttitudeActual object and the
    log. *)
Definition same_outside_filter (s s' : State) : Prop :=
  accelKi s' = accelKi s /\ accelKp s' = accelKp s
  /\ yawBiasRate s' = yawBiasRate s /\ gyroGain s' = gyroGain s
  /\ accelbias s' = accelbias s /\ R s' = R s /\ rotate s' = rotate s
  /\ zero_during_arming s' = zero_during_arming s
  /\ bias_correct_gyro s' = bias_correct_gyro s
  /\ accel_test s' = accel_test s /\ gyro_test s' = gyro_test s
  /\ mag_test s' = mag_test s /\ pressure_test s' = pressure_test s
  /\ accel_samples s' = accel_samples s /\ gyro_samples s' = gyro_samples s
  /\ accel s' = accel s /\ gyro s' = gyro s /\ raw s' = raw s
  /\ accel_accum s' = accel_accum s /\ gyro_accum s' = gyro_accum s
  /\ scaling s' = scaling s /\ baro_conversions s' = baro_conversions s
  /\ init s' = init s /\ AttitudeRaw s' = AttitudeRaw s
  /\ AttitudeSettings s' = AttitudeSettings s
  /\ BaroAltitude s' = BaroAltitude s
  /\ alarm_attitude s' = alarm_attitude s.

Definition is_AlarmsSet (e : Event) : bool :=
  match e with EvAlarmsSet _ => true | _ => false end.

(** Sensors whose two FIFOs, after some empty reads, each yield the samples
    of a list that is not empty, with fuel for all the reads of one call. *)
Definition feeds (fuel : nat) (i : SensorInput) : Prop :=
  exists k d l kg dg lg,
    accel_fifo i = fifo_of k (d :: l)
    /\ gyro_fifo i = fifo_of kg (dg :: lg)
    /\ (fuel > k + length l)%nat /\ (fuel > kg + length lg)%nat.

Definition is_BaroAltitudeSet (e : Event) : bool :=
  match e with EvBaroAltitudeSet _ => true | _ => false end.

Definition is_pressure_start (e : Event) : bool :=
  match e with EvBMP085_StartADC PressureConv => true | _ => false end.

(** The reading that [updateSensors] hands back: return value and the record
    behind its pointer argument. *)
Definition reading_of (r : option (Z * AttitudeRawData * State))
  : option (Z * AttitudeRawData) :=
  match r with
  | Some (ret, a, _) => Some (ret, a)
  | None => None
  end.

(** ** Classes of floats used in the statements *)

Definition is_zero (x : float) : bool :=
  match x with S754_zero _ => true | _ => false end.

(** A zero or a not-a-number. *)
Definition zero_or_nan (x : float) : bool :=
  match x with S754_zero _ | S754_nan => true | _ => false end.

Definition has_nan3 (v : arr3 float) : bool :=
  F32.is_nan (at0 v) || F32.is_nan (at1 v) || F32.is_nan (at2 v).

Definition has_nan4 (v : arr4 float) : bool :=
  F32.is_nan (q0 v) || F32.is_nan (q1 v) || F32.is_nan (q2 v)
  || F32.is_nan (q3 v).

Definition all_zero3 (v : arr3 float) : bool :=
  is_zero (at0 v) && is_zero (at1 v) && is_zero (at2 v).

Definition all_zero4 (v : arr4 float) : bool :=
  is_zero (q0 v) && is_zero (q1 v) && is_zero (q2 v) && is_zero (q3 v).

Definition nan3 : arr3 float := Arr3 S754_nan S754_nan S754_nan.

(** The gains as one value: [accelKp], [accelKi], [yawBiasRate]. *)
Definition gains (s : State) : float * float * float :=
  (accelKp s, accelKi s, yawBiasRate s).

(** The gains forced while converging or arming: 1, 0.9, 0.23. *)
Definition forced_gains : float * float * float :=
  (F32.of_Z 1, F32.of_double (F64.literal 9 10),
   F32.of_double (F64.literal 23 100)).

(** The gains a settings object asks for. *)
Definition configured_gains (c : AttitudeSettingsData)
  : float * float * float :=
  (AccelKp c, AccelKi c, YawBiasRate c).

(** ** Concrete inputs for the examples

    The examples look at neither roll, pitch and yaw, nor the rotation
    matrix, nor the altitude: for them the conversions that are not part of
    the sources return zeros (or their argument). *)

Definition example_rpy (_ : arr4 float) : arr3 float := zero3.
Definition example_quat (_ : arr3 float) : arr4 float := q_identity.
Definition example_R (_ : arr4 float) : arr3 (arr3 float) :=
  Arr3 zero3 zero3 zero3.
Definition example_powf (x _ : float) : float := x.

(** Settings with all three gains 1, a stored z gyro bias of 100 (1 deg/s),
    and gyro bias correction switched on or off. *)
Definition example_settings (bias_correct : Z) : AttitudeSettingsData :=
  mkAttitudeSettings (F32.of_Z 1) (F32.of_Z 1) (F32.of_Z 1) (F32.of_Z 1)
    0 bias_correct zero3i (Arr3 0 0 100) zero3i.

(** Two empty reads, then accelerometer samples with x = 1, 2, 2; one
    gyroscope sample with z = -2; both scale factors 1; no magnetometer data
    and no finished barometer conversion. *)
Definition example_sensors : SensorInput :=
  mkSensorInput
    (fifo_of 2 [mkBma180 1 0 0 0; mkBma180 2 0 0 0; mkBma180 2 0 0 0])
    (F32.of_Z 1)
    (fifo_of 0 [mkMpu6050 0 0 (-2) 0]) (F32.of_Z 1)
    None 1 0 0.

(** The same with an accelerometer FIFO that never holds a sample. *)
Definition example_sensors_stalled : SensorInput :=
  mkSensorInput fifo_empty (F32.of_Z 1)
    (fifo_of 0 [mkMpu6050 0 0 (-2) 0]) (F32.of_Z 1)
    None 1 0 0.

(** Two accelerometer samples; after one empty read, three gyroscope samples
    with x = 7 and z = 10, 20, 30; both scale factors 1. *)
Definition example_sensors_three : SensorInput :=
  mkSensorInput
    (fifo_of 0 [mkBma180 1 0 0 0; mkBma180 3 0 0 0]) (F32.of_Z 1)
    (fifo_of 1 [mkMpu6050 7 0 10 0; mkMpu6050 7 0 20 0; mkMpu6050 7 0 30 0])
    (F32.of_Z 1)
    None 1 0 0.

(** An iteration at tick [t], disarmed. *)
Definition example_cycle (t : Z) : CycleInput :=
  mkCycleInput t t 0 example_sensors.

(** A raw sample of a turn: rates of 10 and 3 deg/s about x and y, and an
    accelerometer reading of (0, 1, -9). *)
Definition example_raw_turn : AttitudeRawData :=
  mkAttitudeRaw zero3
    (Arr3 (F32.of_Z 10) (F32.of_Z 3) F32.zero)
    (Arr3 F32.zero (F32.of_Z 1) (F32.of_Z (-9))) F32.zero F32.zero.

(** A raw sample with a gyroscope x rate of 2^103 deg/s, finite but far
    beyond any sensor, and gravity along -z. *)
Definition example_raw_huge : AttitudeRawData :=
  mkAttitudeRaw zero3
    (Arr3 (S754_finite false 8388608 80) F32.zero F32.zero)
    (Arr3 F32.zero F32.zero (F32.of_Z (-1))) F32.zero F32.zero.

(** A raw sample whose gyroscope x rate is not a number. *)
Definition example_raw_nan : AttitudeRawData :=
  mkAttitudeRaw zero3
    (Arr3 S754_nan (F32.of_Z 3) F32.zero)
    (Arr3 F32.zero (F32.of_Z 1) (F32.of_Z (-9))) F32.zero F32.zero.

(** A raw sample at rest: no rotation, gravity along -z. *)
Definition example_raw_rest : AttitudeRawData :=
  mkAttitudeRaw zero3 zero3
    (Arr3 F32.zero F32.zero (F32.of_Z (-9))) F32.zero F32.zero.

(** Sensors as [example_sensors], with a barometer conversion completed or
    not ([adc] is what [PIOS_BMP085_ReadADC] returns) and a pressure. *)
Definition example_sensors_baro (adc pressure : Z) : SensorInput :=
  mkSensorInput (accel_fifo example_sensors) (accel_scale example_sensors)
    (gyro_fifo example_sensors) (gyro_scale example_sensors)
    (mag_new example_sensors) adc pressure 215.


(** ** The module *)

Section Attitude.

(** What [attitude.c] takes from headers and libraries that are not part of
    the sources: the two FreeRTOS port constants used in the time step, the
    trigonometric conversions of [CoordinateConversions.h], and [powf]. *)
Variable portMAX_DELAY : Z.
Variable portTICK_RATE_MS : Z.
Variable Quaternion2RPY : arr4 float -> arr3 float.
Variable RPY2Quaternion : arr3 float -> arr4 float.
Variable Quaternion2R : arr4 float -> arr3 (arr3 float).
Variable powf : float -> float -> float.

(** *** [settingsUpdatedCb] *)

Definition settingsUpdatedCb (s : State) : State :=
  let s := emit (EvGet ObjAttitudeSettings) s in
  let attitudeSettings := AttitudeSettings s in
  let s := set_accelKp (AccelKp attitudeSettings) s in
  let s := set_accelKi (AccelKi attitudeSettings) s in
  let s := set_yawBiasRate (YawBiasRate attitudeSettings) s in
  let s := set_gyroGain (GyroGain attitudeSettings) s in
  let s := set_zero_during_arming
             (ZeroDuringArming attitudeSettings
              =? ATTITUDESETTINGS_ZERODURINGARMING_TRUE) s in
  let s := set_bias_correct_gyro
             (BiasCorrectGyro attitudeSettings
              =? ATTITUDESETTINGS_BIASCORRECTGYRO_TRUE) s in
  let s := set_accelbias (AccelBias attitudeSettings) s in
  let hundred := literal_f 100 1 in
  let s := set_gyro_correct_int
             (Arr3 (F32.div (F32.of_Z (at0 (GyroBias attitudeSettings))) hundred)
                   (F32.div (F32.of_Z (at1 (GyroBias attitudeSettings))) hundred)
                   (F32.div (F32.of_Z (at2 (GyroBias attitudeSettings))) hundred))
             s in
  let rot := BoardRotation attitudeSettings in
  if (at0 rot =? 0) && (at1 rot =? 0) && (at2 rot =? 0) then
    let s := set_rotate 0 s in
    set_R (Quaternion2R q_identity) s
  else
    let rpy := Arr3 (F32.of_Z (at0 rot)) (F32.of_Z (at1 rot))
                    (F32.of_Z (at2 rot)) in
    let s := set_R (Quaternion2R (RPY2Quaternion rpy)) s in
    set_rotate 1 s.

(** *** [AttitudeInitialize] *)

Definition AttitudeInitialize (s : State) : State :=
  let s := emit (EvGet ObjAttitudeActual) s in
  let attitude := quat_copy q_identity (AttitudeActual s) in
  let s := AttitudeActualSet attitude s in
  let s := set_gyro_correct_int zero3 s in
  let s := set_q q_identity s in
  set_R (Arr3 zero3 zero3 zero3) s.

(** *** [updateSensors]

    The barometer part, from [PIOS_BMP085_ReadADC] on. *)
Definition updateBaro (i : SensorInput) (s : State) : State :=
  if baro_adc i =? 0 then
    let n := baro_conversions s in
    let s := set_baro_conversions (wrap_u32 (n + 1)) s in
    if negb (n mod 2 =? 0) then
      emit (EvBMP085_StartADC PressureConv) s
    else
      let s := emit (EvBMP085_StartADC TemperatureConv) s in
      let pressure := F32.of_Z (baro_pressure i) in
      let s := emit (EvGet ObjBaroAltitude) s in
      let altitude :=
        F32.mul
          (F32.sub (literal_f 1 1)
             (powf (F32.div pressure (F32.of_Z BMP085_P0))
                   (F32.div (literal_f 1 1) (literal_f 5255 1000))))
          (literal_f 44330 1) in
      let data :=
        mkBaroAltitude altitude
          (F32.div (F32.of_Z (baro_temperature i)) (literal_f 10 1))
          (F32.div pressure (literal_f 1000 1)) in
      BaroAltitudeSet data s
  else s.

(** Everything after the gyroscope FIFO has been drained: scaling of the
    gyroscope, temperatures, bias, magnetometer, publication of [raw],
    barometer.  [attitudeRaw] already holds this cycle's accelerometer. *)
Definition updateSensors_tail (i : SensorInput)
    (attitudeRaw : AttitudeRawData) (s : State)
  : AttitudeRawData * State :=
  let s := set_scaling
             (F32.div (gyro_scale i) (F32.of_Z (gyro_samples s))) s in
  let gx := F32.mul (F32.neg (F32.of_Z (at1 (gyro_accum s)))) (scaling s) in
  let gy := F32.mul (F32.neg (F32.of_Z (at0 (gyro_accum s)))) (scaling s) in
  let gz := F32.mul (F32.neg (F32.of_Z (at2 (gyro_accum s)))) (scaling s) in
  (* gyro.temperature is an integer: the assigned value is truncated, and
     the truncated value is what the raw sample receives *)
  let t_gyro :=
    wrap_s16 (F32.to_Z
      (F32.add (literal_f 35 1)
         (F32.div (F32.add (F32.of_Z (mpu_temperature (gyro s)))
                           (F32.of_Z 13200))
                  (F32.of_Z 280)))) in
  let s := set_gyro (mkMpu6050 (gyro_x (gyro s)) (gyro_y (gyro s))
                               (gyro_z (gyro s)) t_gyro) s in
  let temp_gyro := F32.of_Z t_gyro in
  let temp_accel :=
    F32.add (literal_f 25 1)
      (F32.div (F32.sub (F32.of_Z (bma_temperature (accel s))) (F32.of_Z 2))
               (F32.of_Z 2)) in
  let g := Arr3 gx gy gz in
  let g :=
    if bias_correct_gyro s then
      Arr3 (F32.add (at0 g) (at0 (gyro_correct_int s)))
           (F32.add (at1 g) (at1 (gyro_correct_int s)))
           (F32.add (at2 g) (at2 (gyro_correct_int s)))
    else g in
  let s := set_gyro_correct_int
             (set_at2
                (F32.add (at2 (gyro_correct_int s))
                         (F32.mul (F32.neg (at2 g)) (yawBiasRate s)))
                (gyro_correct_int s)) s in
  let mags :=
    match mag_new i with
    | Some values =>
        Arr3 (F32.of_Z (- at0 values)) (F32.of_Z (- at1 values))
             (F32.of_Z (- at2 values))
    | None => magnetometers attitudeRaw
    end in
  let attitudeRaw :=
    mkAttitudeRaw mags g (accels attitudeRaw) temp_gyro temp_accel in
  let s := AttitudeRawSet (raw s) s in
  (attitudeRaw, updateBaro i s).

(** The whole function: return value, the record behind the pointer
    argument, and the state; [None] when a FIFO loop is still running after
    [fuel] reads. *)
Definition updateSensors (fuel : nat) (i : SensorInput)
    (attitudeRaw : AttitudeRawData) (s : State)
  : option (Z * AttitudeRawData * State) :=
  let s := set_accel_accum zero3i s in
  let s := set_gyro_accum zero3i s in
  let s := set_accel_samples 0 s in
  let s := set_gyro_samples 0 s in
  match read_all (accel_fifo i) accum_accel fuel with
  | None => None
  | Some (d, count, acc) =>
      let s := set_accel d s in
      let s := set_accel_accum acc s in
      let s := set_accel_samples (wrap_u32 count) s in
      let s := set_scaling
                 (F32.div (accel_scale i) (F32.of_Z (accel_samples s))) s in
      let attitudeRaw :=
        mkAttitudeRaw (magnetometers attitudeRaw) (gyros attitudeRaw)
          (Arr3 (F32.mul (F32.of_Z (at0 (accel_accum s))) (scaling s))
                (F32.mul (F32.of_Z (at1 (accel_accum s))) (scaling s))
                (F32.mul (F32.of_Z (at2 (accel_accum s))) (scaling s)))
          (temperature_gyro attitudeRaw) (temperature_accel attitudeRaw) in
      match read_all (gyro_fifo i) accum_gyro fuel with
      | None => None
      | Some (d, count, acc) =>
          let s := set_gyro d s in
          let s := set_gyro_accum acc s in
          let s := set_gyro_samples (wrap_u32 count) s in
          let '(attitudeRaw, s) := updateSensors_tail i attitudeRaw s in
          Some (0, attitudeRaw, s)
      end
  end.

(** *** [updateAttitude] *)

(** [dT], from the tick count read on entry and [lastSysTime]. *)
Definition time_step (thisSysTime lastSys : Z) : float :=
  if thisSysTime =? lastSys then F32.of_double (F64.literal 1 1000)
  else
    F32.div
      (F32.of_Z (Z.land portMAX_DELAY (wrap_u32 (thisSysTime - lastSys))
                 / portTICK_RATE_MS))
      (literal_f 1000 1).

(** Gravity in the body frame for the quaternion [qv]. *)
Definition gravity_body (qv : arr4 float) : arr3 float :=
  let two := F32.of_Z 2 in
  Arr3
    (F32.neg (F32.mul two (F32.sub (F32.mul (q1 qv) (q3 qv))
                                   (F32.mul (q0 qv) (q2 qv)))))
    (F32.neg (F32.mul two (F32.add (F32.mul (q2 qv) (q3 qv))
                                   (F32.mul (q0 qv) (q1 qv)))))
    (F32.neg (F32.add
                (F32.sub (F32.sub (F32.mul (q0 qv) (q0 qv))
                                  (F32.mul (q1 qv) (q1 qv)))
                         (F32.mul (q2 qv) (q2 qv)))
                (F32.mul (q3 qv) (q3 qv)))).

(** [accel_err] after the division by the accelerometer magnitude. *)
Definition accel_error (qv : arr4 float) (a : arr3 float) : arr3 float :=
  let e := CrossProduct a (gravity_body qv) in
  let accel_mag :=
    sqrt_to_float
      (F32.add (F32.add (F32.mul (at0 a) (at0 a)) (F32.mul (at1 a) (at1 a)))
               (F32.mul (at2 a) (at2 a))) in
  Arr3 (F32.div (at0 e) accel_mag) (F32.div (at1 e) accel_mag)
       (F32.div (at2 e) accel_mag).

(** One component of [qdot]: [x * dT * M_PI / 180 / 2], the last three
    operations in double, stored in a [float]. *)
Definition qdot_scale (x dT : float) : float :=
  F32.of_double
    (F64.div (F64.div (F64.mul (F64.of_float (F32.mul x dT)) F64.M_PI)
                      (F64.of_Z 180))
             (F64.of_Z 2)).

(** The time step on [q], sign flip included, before renormalisation. *)
Definition integrate (qv : arr4 float) (g : arr3 float) (dT : float)
  : arr4 float :=
  let g0 := at0 g in
  let g1 := at1 g in
  let g2 := at2 g in
  let d0 := qdot_scale
              (F32.sub (F32.sub (F32.mul (F32.neg (q1 qv)) g0)
                                (F32.mul (q2 qv) g1))
                       (F32.mul (q3 qv) g2)) dT in
  let d1 := qdot_scale
              (F32.add (F32.sub (F32.mul (q0 qv) g0) (F32.mul (q3 qv) g1))
                       (F32.mul (q2 qv) g2)) dT in
  let d2 := qdot_scale
              (F32.sub (F32.add (F32.mul (q3 qv) g0) (F32.mul (q0 qv) g1))
                       (F32.mul (q1 qv) g2)) dT in
  let d3 := qdot_scale
              (F32.add (F32.add (F32.mul (F32.neg (q2 qv)) g0)
                                (F32.mul (q1 qv) g1))
                       (F32.mul (q0 qv) g2)) dT in
  let n := Arr4 (F32.add (q0 qv) d0) (F32.add (q1 qv) d1)
                (F32.add (q2 qv) d2) (F32.add (q3 qv) d3) in
  if F32.ltb (q0 n) (F32.of_Z 0) then
    Arr4 (F32.neg (q0 n)) (F32.neg (q1 n)) (F32.neg (q2 n)) (F32.neg (q3 n))
  else n.

(** [qmag] of a quaternion. *)
Definition quat_mag (qv : arr4 float) : float :=
  sqrt_to_float
    (F32.add
       (F32.add (F32.add (F32.mul (q0 qv) (q0 qv)) (F32.mul (q1 qv) (q1 qv)))
                (F32.mul (q2 qv) (q2 qv)))
       (F32.mul (q3 qv) (q3 qv))).

(** The test [(fabs(qmag) < 1e-3) || (qmag != qmag)]. *)
Definition diverged (qmag : float) : bool :=
  F64.ltb (F64.fabs (F64.of_float qmag)) (F64.literal 1 1000)
  || F32.neb qmag qmag.

(** [gyro[]] after the proportional correction. *)
Definition corrected_rates (g accel_err : arr3 float) (Kp dT : float)
  : arr3 float :=
  Arr3 (F32.add (at0 g) (F32.div (F32.mul (at0 accel_err) Kp) dT))
       (F32.add (at1 g) (F32.div (F32.mul (at1 accel_err) Kp) dT))
       (F32.add (at2 g) (F32.div (F32.mul (at2 accel_err) Kp) dT)).

Definition updateAttitude (thisSysTime : Z) (attitudeRaw : AttitudeRawData)
    (s : State) : State :=
  let dT := time_step thisSysTime (lastSysTime s) in
  let s := set_lastSysTime thisSysTime s in
  let accel_err := accel_error (q s) (accels attitudeRaw) in
  let s := set_gyro_correct_int
             (Arr3 (F32.add (at0 (gyro_correct_int s))
                            (F32.mul (at0 accel_err) (accelKi s)))
                   (F32.add (at1 (gyro_correct_int s))
                            (F32.mul (at1 accel_err) (accelKi s)))
                   (at2 (gyro_correct_int s))) s in
  let g := corrected_rates (gyros attitudeRaw) accel_err (accelKp s) dT in
  let s := set_q (integrate (q s) g dT) s in
  let qmag := quat_mag (q s) in
  let s := set_q (Arr4 (F32.div (q0 (q s)) qmag) (F32.div (q1 (q s)) qmag)
                       (F32.div (q2 (q s)) qmag) (F32.div (q3 (q s)) qmag)) s in
  let s := if diverged qmag then set_q q_identity s else s in
  let s := emit (EvGet ObjAttitudeActual) s in
  let attitudeActual := quat_copy (q s) (AttitudeActual s) in
  let attitudeActual :=
    set_rpy (Quaternion2RPY (actual_q attitudeActual)) attitudeActual in
  AttitudeActualSet attitudeActual s.

(** The quaternion of a call after its time step and before it is
    renormalised, and the norm [qmag] computed from it. *)
Definition stepped_q (thisSysTime : Z) (attitudeRaw : AttitudeRawData)
    (s : State) : arr4 float :=
  let dT := time_step thisSysTime (lastSysTime s) in
  integrate (q s)
    (corrected_rates (gyros attitudeRaw)
       (accel_error (q s) (accels attitudeRaw)) (accelKp s) dT)
    dT.

Definition stepped_qmag (thisSysTime : Z) (attitudeRaw : AttitudeRawData)
    (s : State) : float :=
  quat_mag (stepped_q thisSysTime attitudeRaw s).

(** A sequence of calls of [updateAttitude], each with the tick count it
    reads and the raw sample it is given. *)
Fixpoint updateAttitude_run (calls : list (Z * AttitudeRawData)) (s : State)
  : State :=
  match calls with
  | [] => s
  | (t, a) :: rest => updateAttitude_run rest (updateAttitude t a s)
  end.

(** In every call of the sequence the time step gives a quaternion whose
    components are zeros or finite numbers of magnitude below [2 ^ n]. *)
Fixpoint steps_below (n : Z) (calls : list (Z * AttitudeRawData)) (s : State)
  : bool :=
  match calls with
  | [] => true
  | (t, a) :: rest =>
      quat_below n (stepped_q t a s)
      && steps_below n rest (updateAttitude t a s)
  end.

(** *** [AttitudeTask] *)

(** The gain selection at the head of the loop body. *)
Definition select_gains (i : CycleInput) (s : State) : State :=
  let s := emit (EvGet ObjFlightStatus) s in
  let forced (s : State) :=
    let s := set_accelKp (F32.of_Z 1) s in
    let s := set_accelKi (F32.of_double (F64.literal 9 10)) s in
    let s := set_yawBiasRate (F32.of_double (F64.literal 23 100)) s in
    set_init 0 s in
  if (tick_a i <? 7000) && (tick_b i >? 1000) then forced s
  else if zero_during_arming s
          && (flightStatus_Armed i =? FLIGHTSTATUS_ARMED_ARMING) then forced s
  else if init s =? 0 then
    let s := emit (EvGet ObjAttitudeSettings) s in
    let s := set_accelKi (AccelKi (AttitudeSettings s)) s in
    let s := emit (EvGet ObjAttitudeSettings) s in
    let s := set_accelKp (AccelKp (AttitudeSettings s)) s in
    let s := emit (EvGet ObjAttitudeSettings) s in
    let s := set_yawBiasRate (YawBiasRate (AttitudeSettings s)) s in
    set_init 1 s
  else s.

(** What the loop body does with the value [updateSensors] returned. *)
Definition handle_sensors (ret : Z) (attitudeRaw : AttitudeRawData)
    (s : State) : State :=
  if negb (ret =? 0) then AlarmsSet SYSTEMALARMS_ALARM_ERROR s
  else
    (* updateAttitude(&attitudeRaw) is commented out in the source *)
    let s := AttitudeRawSet attitudeRaw s in
    AlarmsClear s.

(** One iteration of [while (1)]. *)
Definition AttitudeTask_cycle (fuel : nat) (i : CycleInput) (s : State)
  : option State :=
  let s := select_gains i s in
  let s := emit EvWDG_UpdateFlag s in
  let s := emit (EvGet ObjAttitudeRaw) s in
  let attitudeRaw := AttitudeRaw s in
  match updateSensors fuel (sensors i) attitudeRaw s with
  | None => None
  | Some (ret, attitudeRaw, s) =>
      let s := handle_sensors ret attitudeRaw s in
      Some (emit (EvTaskDelay 1) s)
  end.

(** What precedes the loop: results of the four self tests are inputs. *)
Definition AttitudeTask_start (tests : Z * Z * Z * Z) (s : State) : State :=
  let '(ta, tg, tm, tp) := tests in
  let s := set_init 0 s in
  let s := AlarmsClear s in
  let s := settingsUpdatedCb s in
  let s := set_accel_test ta s in
  let s := set_gyro_test tg s in
  let s := set_mag_test tm s in
  let s := set_pressure_test tp s in
  emit (EvBMP085_StartADC TemperatureConv) s.

(** The loop over the inputs of successive iterations. *)
Fixpoint AttitudeTask_loop (fuel : nat) (ins : list CycleInput) (s : State)
  : option State :=
  match ins with
  | [] => Some s
  | i :: ins' =>
      match AttitudeTask_cycle fuel i s with
      | None => None
      | Some s' => AttitudeTask_loop fuel ins' s'
      end
  end.

(** The two tests at the head of the loop body. *)
Definition converging (i : CycleInput) : bool :=
  (tick_a i <? 7000) && (tick_b i >? 1000).

Definition arming (i : CycleInput) (s : State) : bool :=
  zero_during_arming s && (flightStatus_Armed i =? FLIGHTSTATUS_ARMED_ARMING).

(** An iteration in steady state: at or past 7000 ticks and not arming. *)
Definition steady (s : State) (i : CycleInput) : Prop :=
  7000 <= tick_a i /\ arming i s = false.

(** *** States the module can be in

    From reset, through [AttitudeInitialize] and the start of the task, by
    iterations of the loop, by a change of the settings object followed by its
    callback, and by [updateAttitude], which is included although the loop
    does not call it. *)
Inductive reachable : State -> Prop :=
  | reach_reset : forall settings, reachable (reset_state settings)
  | reach_initialize : forall s, reachable s -> reachable (AttitudeInitialize s)
  | reach_start : forall tests s,
      reachable s -> reachable (AttitudeTask_start tests s)
  | reach_cycle : forall fuel i s s',
      reachable s -> AttitudeTask_cycle fuel i s = Some s' -> reachable s'
  | reach_settings : forall c s,
      reachable s -> reachable (settingsUpdatedCb (set_AttitudeSettings c s))
  | reach_updateAttitude : forall t a s,
      reachable s -> reachable (updateAttitude t a s).

(** * Properties *)

(** ** The log only grows *)

Lemma log_emit : forall e s, log (emit e s) = log s ++ [e].
Proof. reflexivity. Qed.

Lemma updateBaro_log : forall i s,
  exists evs, log (updateBaro i s) = log s ++ evs
              /\ forallb is_baro_event evs = true.
Proof.
  intros i s. unfold updateBaro.
  destruct (baro_adc i =? 0).
  - destruct (negb (baro_conversions s mod 2 =? 0)).
    + exists [EvBMP085_StartADC PressureConv]. split; reflexivity.
    + eexists [EvBMP085_StartADC TemperatureConv; EvGet ObjBaroAltitude;
               EvBaroAltitudeSet _].
      split; [|reflexivity].
      cbn [log BaroAltitudeSet emit set_log set_BaroAltitude
           set_baro_conversions].
      rewrite <- !app_assoc. reflexivity.
  - exists []. split; [symmetry; apply app_nil_r | reflexivity].
Qed.

(** What [updateBaro] leaves alone. *)
Lemma updateBaro_frame : forall i s,
  let s' := updateBaro i s in
  q s' = q s /\ raw s' = raw s /\ gyro_correct_int s' = gyro_correct_int s
  /\ gains s' = gains s /\ init s' = init s
  /\ AttitudeRaw s' = AttitudeRaw s /\ AttitudeActual s' = AttitudeActual s
  /\ AttitudeSettings s' = AttitudeSettings s
  /\ alarm_attitude s' = alarm_attitude s /\ lastSysTime s' = lastSysTime s
  /\ zero_during_arming s' = zero_during_arming s
  /\ gyro_accum s' = gyro_accum s /\ gyro_samples s' = gyro_samples s
  /\ scaling s' = scaling s /\ accel_accum s' = accel_accum s
  /\ accel_samples s' = accel_samples s.
Proof.
  intros i s. unfold updateBaro.
  destruct (baro_adc i =? 0); [|cbv zeta; repeat split].
  destruct (negb (baro_conversions s mod 2 =? 0)); cbv zeta; repeat split.
Qed.

(** The state [updateSensors] hands to the barometer part. *)
Lemma updateSensors_inv : forall fuel i a s r a' s',
  updateSensors fuel i a s = Some (r, a', s') ->
  exists s1,
    s' = updateBaro i s1 /\ r = 0
    /\ log s1 = log s ++ [EvAttitudeRawSet (raw s)]
    /\ AttitudeRaw s1 = raw s
    /\ q s1 = q s /\ raw s1 = raw s /\ gains s1 = gains s /\ init s1 = init s
    /\ AttitudeActual s1 = AttitudeActual s
    /\ AttitudeSettings s1 = AttitudeSettings s
    /\ alarm_attitude s1 = alarm_attitude s /\ lastSysTime s1 = lastSysTime s
    /\ zero_during_arming s1 = zero_during_arming s.
Proof.
  intros fuel i a s r a' s'. unfold updateSensors. cbv zeta.
  destruct (read_all (accel_fifo i) accum_accel fuel) as [[[da ca] acca]|];
    [|discriminate].
  destruct (read_all (gyro_fifo i) accum_gyro fuel) as [[[dg cg] accg]|];
    [|discriminate].
  unfold updateSensors_tail. cbv zeta. intros H. inversion H; subst; clear H.
  eexists. split; [reflexivity|]. repeat split.
Qed.

(** [updateSensors] has one return statement, [return 0]. *)
Lemma updateSensors_returns_0 : forall fuel i a s r a' s',
  updateSensors fuel i a s = Some (r, a', s') -> r = 0.
Proof.
  intros fuel i a s r a' s' H.
  destruct (updateSensors_inv _ _ _ _ _ _ _ H) as (s1 & _ & Hr & _). exact Hr.
Qed.

Lemma updateSensors_log : forall fuel i a s r a' s',
  updateSensors fuel i a s = Some (r, a', s') ->
  exists evs, log s' = log s ++ EvAttitudeRawSet (raw s) :: evs
              /\ forallb is_baro_event evs = true.
Proof.
  intros fuel i a s r a' s' H.
  destruct (updateSensors_inv _ _ _ _ _ _ _ H) as (s1 & -> & _ & Hl & _).
  destruct (updateBaro_log i s1) as (evs & Hb & Hall).
  exists evs. split; [|exact Hall].
  rewrite Hb, Hl, <- app_assoc. reflexivity.
Qed.

Lemma updateSensors_frame : forall fuel i a s r a' s',
  updateSensors fuel i a s = Some (r, a', s') ->
  q s' = q s /\ raw s' = raw s /\ gains s' = gains s /\ init s' = init s
  /\ AttitudeActual s' = AttitudeActual s
  /\ AttitudeSettings s' = AttitudeSettings s
  /\ alarm_attitude s' = alarm_attitude s /\ lastSysTime s' = lastSysTime s
  /\ zero_during_arming s' = zero_during_arming s
  /\ AttitudeRaw s' = raw s.
Proof.
  intros fuel i a s r a' s' H.
  destruct (updateSensors_inv _ _ _ _ _ _ _ H)
    as (s1 & -> & _ & _ & HR & Hq & Hraw & Hg & Hi & Ha & Hs & Hal & Ht & Hz).
  destruct (updateBaro_frame i s1)
    as (Bq & Braw & _ & Bg & Bi & BR & Ba & Bs & Bal & Bt & Bz & _).
  repeat split; congruence.
Qed.

(** ** The loop body *)

Lemma select_gains_log : forall i s,
  exists evs, log (select_gains i s) = log s ++ evs
              /\ forallb is_read evs = true.
Proof.
  intros i s. unfold select_gains. cbv zeta.
  destruct ((tick_a i <? 7000) && (tick_b i >? 1000)).
  { exists [EvGet ObjFlightStatus]. split; reflexivity. }
  cbn [zero_during_arming emit set_log].
  destruct (zero_during_arming s
            && (flightStatus_Armed i =? FLIGHTSTATUS_ARMED_ARMING)).
  { exists [EvGet ObjFlightStatus]. split; reflexivity. }
  cbn [init emit set_log].
  destruct (init s =? 0).
  - exists [EvGet ObjFlightStatus; EvGet ObjAttitudeSettings;
            EvGet ObjAttitudeSettings; EvGet ObjAttitudeSettings].
    split; [|reflexivity]. cbn. rewrite <- !app_assoc. reflexivity.
  - exists [EvGet ObjFlightStatus]. split; reflexivity.
Qed.

Lemma select_gains_frame : forall i s,
  let s' := select_gains i s in
  q s' = q s /\ raw s' = raw s /\ gyro_correct_int s' = gyro_correct_int s
  /\ AttitudeRaw s' = AttitudeRaw s /\ AttitudeActual s' = AttitudeActual s
  /\ AttitudeSettings s' = AttitudeSettings s
  /\ alarm_attitude s' = alarm_attitude s /\ lastSysTime s' = lastSysTime s
  /\ zero_during_arming s' = zero_during_arming s.
Proof.
  intros i s. unfold select_gains. cbv zeta.
  destruct ((tick_a i <? 7000) && (tick_b i >? 1000)); [repeat split|].
  cbn [zero_during_arming emit set_log].
  destruct (zero_during_arming s
            && (flightStatus_Armed i =? FLIGHTSTATUS_ARMED_ARMING));
    [repeat split|].
  cbn [init emit set_log].
  destruct (init s =? 0); repeat split.
Qed.

(** An iteration that returns went through the success branch. *)
Lemma cycle_inv : forall fuel i s s',
  AttitudeTask_cycle fuel i s = Some s' ->
  exists a' s2,
    updateSensors fuel (sensors i) (AttitudeRaw (select_gains i s))
      (emit (EvGet ObjAttitudeRaw) (emit EvWDG_UpdateFlag (select_gains i s)))
    = Some (0, a', s2)
    /\ s' = emit (EvTaskDelay 1) (AlarmsClear (AttitudeRawSet a' s2)).
Proof.
  intros fuel i s s'. unfold AttitudeTask_cycle. cbv zeta.
  change (AttitudeRaw (emit (EvGet ObjAttitudeRaw)
            (emit EvWDG_UpdateFlag (select_gains i s))))
    with (AttitudeRaw (select_gains i s)).
  destruct (updateSensors fuel (sensors i) (AttitudeRaw (select_gains i s))
              (emit (EvGet ObjAttitudeRaw)
                 (emit EvWDG_UpdateFlag (select_gains i s))))
    as [[[r a'] s2]|] eqn:E; [|discriminate].
  intros H. inversion H; subst; clear H.
  pose proof (updateSensors_returns_0 _ _ _ _ _ _ _ E) as ->.
  exists a', s2. split; reflexivity.
Qed.

Lemma forallb_read_no_actual : forall evs,
  forallb is_read evs = true -> existsb is_AttitudeActualSet evs = false.
Proof.
  induction evs as [|e evs IH]; [reflexivity|].
  cbn. destruct e; cbn; try discriminate. exact IH.
Qed.

Lemma forallb_baro_no_actual : forall evs,
  forallb is_baro_event evs = true -> existsb is_AttitudeActualSet evs = false.
Proof.
  induction evs as [|e evs IH]; [reflexivity|].
  cbn. destruct e as [o| | | | | | | |]; cbn; try discriminate; try exact IH.
  destruct o; cbn; try discriminate; exact IH.
Qed.

(** C1 (the code departs from the claim): an iteration of the task loop whose
    sensor acquisition succeeds ends with the alarm cleared and the raw sample
    published, but the filter has not run: the quaternion, the time of the
    last filter step and the AttitudeActual object are what they were, and no
    AttitudeActualSet call was made. *)
Theorem cycle_leaves_attitude_untouched : forall fuel i s s',
  AttitudeTask_cycle fuel i s = Some s' ->
  alarm_attitude s' = SYSTEMALARMS_ALARM_OK
  /\ q s' = q s /\ lastSysTime s' = lastSysTime s
  /\ AttitudeActual s' = AttitudeActual s
  /\ exists evs, log s' = log s ++ evs
                 /\ existsb is_AttitudeActualSet evs = false.
Proof.
  intros fuel i s s' H.
  destruct (cycle_inv _ _ _ _ H) as (a' & s2 & E & ->).
  destruct (updateSensors_frame _ _ _ _ _ _ _ E)
    as (Hq & _ & _ & _ & Ha & _ & _ & Ht & _).
  destruct (select_gains_frame i s) as (Gq & _ & _ & _ & Ga & _ & _ & Gt & _).
  cbv zeta in *.
  split; [reflexivity|].
  split; [cbn; rewrite Hq; exact Gq|].
  split; [cbn; rewrite Ht; exact Gt|].
  split; [cbn; rewrite Ha; exact Ga|].
  destruct (updateSensors_log _ _ _ _ _ _ _ E) as (evb & Hl & Hb).
  destruct (select_gains_log i s) as (evg & Hg & Hr).
  exists (evg ++ [EvWDG_UpdateFlag; EvGet ObjAttitudeRaw]
          ++ EvAttitudeRawSet (raw s2) :: evb
          ++ [EvAttitudeRawSet a'; EvAlarmsClear; EvTaskDelay 1]).
  split.
  - cbn [log emit AlarmsClear AttitudeRawSet set_log set_alarm_attitude
         set_AttitudeRaw].
    rewrite Hl. cbn [log emit set_log]. rewrite Hg.
    destruct (updateSensors_frame _ _ _ _ _ _ _ E) as (_ & Hraw & _).
    rewrite Hraw. cbn [raw emit set_log].
    rewrite <- ?app_assoc. cbn. rewrite <- ?app_assoc. reflexivity.
  - rewrite !existsb_app. rewrite (forallb_read_no_actual _ Hr).
    cbn. rewrite existsb_app, (forallb_baro_no_actual _ Hb). reflexivity.
Qed.

(** ** Sensor faults *)

Lemma wait_sample_empty : forall (D : Type) (fifo : nat -> option D),
  (forall n, fifo n = None) -> forall fuel k, wait_sample fifo fuel k = None.
Proof.
  intros D fifo Hempty. induction fuel as [|fuel IH]; intros k; cbn.
  - reflexivity.
  - rewrite Hempty. apply IH.
Qed.

Lemma read_all_empty :
  forall (D : Type) (fifo : nat -> option D) accumulate fuel,
  (forall n, fifo n = None) -> read_all fifo accumulate fuel = None.
Proof.
  intros D fifo accumulate fuel Hempty. unfold read_all.
  rewrite (wait_sample_empty D fifo Hempty). reflexivity.
Qed.

(** An empty FIFO keeps [updateSensors] in its first loop. *)
Lemma updateSensors_spins : forall fuel i a s,
  (forall n, accel_fifo i n = None) \/ (forall n, gyro_fifo i n = None) ->
  updateSensors fuel i a s = None.
Proof.
  intros fuel i a s [Ha|Hg]; unfold updateSensors; cbv zeta.
  - rewrite (read_all_empty _ _ accum_accel fuel Ha). reflexivity.
  - destruct (read_all (accel_fifo i) accum_accel fuel) as [[[da ca] acca]|];
      [|reflexivity].
    rewrite (read_all_empty _ _ accum_gyro fuel Hg). reflexivity.
Qed.


(** ** The file-scope record [raw] *)

Lemma reachable_raw : forall s, reachable s -> raw s = zero_raw.
Proof.
  induction 1 as [settings | s _ IH | tests s _ IH | fuel i s s' _ IH Hc
                 | c s _ IH | t a s _ IH].
  - reflexivity.
  - exact IH.
  - destruct tests as [[[ta tg] tm] tp]. unfold AttitudeTask_start.
    cbv zeta. cbn [raw emit set_log set_pressure_test set_mag_test
                   set_gyro_test set_accel_test].
    unfold settingsUpdatedCb. cbv zeta.
    match goal with |- context [if ?c then _ else _] => destruct c end;
      exact IH.
  - destruct (cycle_inv _ _ _ _ Hc) as (a' & s2 & E & ->).
    destruct (updateSensors_frame _ _ _ _ _ _ _ E) as (_ & Hraw & _).
    destruct (select_gains_frame i s) as (_ & Graw & _).
    cbn. rewrite Hraw. cbn. cbv zeta in Graw. rewrite Graw. exact IH.
  - unfold settingsUpdatedCb. cbv zeta.
    match goal with |- context [if ?c then _ else _] => destruct c end;
      exact IH.
  - unfold updateAttitude. cbv zeta.
    match goal with |- context [if ?c then _ else _] => destruct c end;
      exact IH.
Qed.

Lemma forallb_read_no_raw : forall evs,
  forallb is_read evs = true -> existsb is_AttitudeRawSet evs = false.
Proof.
  induction evs as [|e evs IH]; [reflexivity|].
  cbn. destruct e; cbn; try discriminate. exact IH.
Qed.

Lemma forallb_baro_no_raw : forall evs,
  forallb is_baro_event evs = true -> existsb is_AttitudeRawSet evs = false.
Proof.
  induction evs as [|e evs IH]; [reflexivity|].
  cbn. destruct e as [o| | | | | | | |]; cbn; try discriminate; try exact IH.
  destruct o; cbn; try discriminate; exact IH.
Qed.


(** ** Divergence of the filter *)

Lemma neb_self_nan : forall x : float, F32.neb x x = true <-> x = S754_nan.
Proof.
  intros x. unfold F32.neb, SFeqb.
  destruct x as [s | s | | s m e]; cbn.
  - split; discriminate.
  - destruct s; split; discriminate.
  - split; reflexivity.
  - destruct s; rewrite Z.compare_refl, Pos.compare_cont_refl; cbn;
      split; discriminate.
Qed.

(** The test of the source, in the words of the claim. *)
Lemma diverged_spec : forall m : float,
  diverged m = true <->
  F64.ltb (F64.fabs (F64.of_float m)) (F64.literal 1 1000) = true
  \/ m = S754_nan.
Proof.
  intros m. unfold diverged. rewrite orb_true_iff, neb_self_nan. reflexivity.
Qed.

(** A not-a-number in any component makes [qmag] a not-a-number. *)
Lemma quat_mag_nan : forall v : arr4 float,
  q0 v = S754_nan \/ q1 v = S754_nan \/ q2 v = S754_nan \/ q3 v = S754_nan ->
  quat_mag v = S754_nan.
Proof.
  intros [a b c d] H. unfold quat_mag. cbn [q0 q1 q2 q3] in *.
  assert (Hs : F32.add (F32.add (F32.add (F32.mul a a) (F32.mul b b))
                                (F32.mul c c)) (F32.mul d d) = S754_nan).
  { assert (Hm : forall x, F32.mul S754_nan x = S754_nan) by reflexivity.
    assert (Hl : forall x, F32.add S754_nan x = S754_nan) by reflexivity.
    assert (Hr : forall x, F32.add x S754_nan = S754_nan)
      by (intros x; destruct x as [[|] | [|] | | [|] ? ?]; reflexivity).
    destruct H as [-> | [-> | [-> | ->]]];
      rewrite Hm, ?Hr, ?Hl; reflexivity. }
  rewrite Hs. reflexivity.
Qed.

Lemma updateAttitude_q : forall t a s,
  q (updateAttitude t a s)
  = if diverged (stepped_qmag t a s) then q_identity
    else let v := stepped_q t a s in
         let m := stepped_qmag t a s in
         Arr4 (F32.div (q0 v) m) (F32.div (q1 v) m)
              (F32.div (q2 v) m) (F32.div (q3 v) m).
Proof.
  intros t a s. unfold updateAttitude, stepped_qmag, stepped_q. cbv zeta.
  cbn [q accelKp lastSysTime set_q set_gyro_correct_int set_lastSysTime].
  match goal with |- context [if ?c then _ else _] => destruct c end;
    reflexivity.
Qed.

(** The published object carries the stored quaternion. *)
Lemma updateAttitude_publishes_q : forall t a s,
  actual_q (AttitudeActual (updateAttitude t a s)) = q (updateAttitude t a s).
Proof.
  intros t a s. unfold updateAttitude. cbv zeta.
  match goal with |- context [if ?c then _ else _] => destruct c end;
    cbn; match goal with |- _ = ?v => destruct v end; reflexivity.
Qed.

(** C4: when the norm computed after the time step is a not-a-number or is
    below 1e-3, the quaternion stored by that call of the filter update, and
    the one it publishes, is exactly (1,0,0,0), whatever the gyroscope and
    accelerometer readings and whatever the state before the call. *)
Theorem divergence_resets_quaternion : forall t a s,
  stepped_qmag t a s = S754_nan
  \/ F64.ltb (F64.fabs (F64.of_float (stepped_qmag t a s)))
             (F64.literal 1 1000) = true ->
  q (updateAttitude t a s) = q_identity
  /\ actual_q (AttitudeActual (updateAttitude t a s)) = q_identity.
Proof.
  intros t a s H.
  assert (D : diverged (stepped_qmag t a s) = true)
    by (apply diverged_spec; tauto).
  rewrite updateAttitude_publishes_q, updateAttitude_q, D. split; reflexivity.
Qed.

(** C10: a call of the filter update always leaves the bias integral with
    this call's accumulated error, [lastSysTime] with this call's tick count,
    and everything outside the filter as it was; when the divergence check
    triggers, the quaternion alone is set back to (1,0,0,0) and those values
    stay. *)
Theorem divergence_resets_only_q : forall t a s,
  let s' := updateAttitude t a s in
  let e := accel_error (q s) (accels a) in
  gyro_correct_int s'
  = Arr3 (F32.add (at0 (gyro_correct_int s)) (F32.mul (at0 e) (accelKi s)))
         (F32.add (at1 (gyro_correct_int s)) (F32.mul (at1 e) (accelKi s)))
         (at2 (gyro_correct_int s))
  /\ lastSysTime s' = t
  /\ same_outside_filter s s'
  /\ (diverged (stepped_qmag t a s) = true -> q s' = q_identity).
Proof.
  intros t a s s' e. subst s' e.
  split; [|split; [|split]].
  - unfold updateAttitude. cbv zeta.
    match goal with |- context [if ?c then _ else _] => destruct c end;
      reflexivity.
  - unfold updateAttitude. cbv zeta.
    match goal with |- context [if ?c then _ else _] => destruct c end;
      reflexivity.
  - unfold updateAttitude, same_outside_filter. cbv zeta.
    match goal with |- context [if ?c then _ else _] => destruct c end;
      repeat split.
  - intros D. rewrite updateAttitude_q, D. reflexivity.
Qed.

(** ** The yaw bias *)

Lemma updateBaro_bias : forall i s,
  gyro_correct_int (updateBaro i s) = gyro_correct_int s.
Proof.
  intros i s. destruct (updateBaro_frame i s) as (_ & _ & B & _). exact B.
Qed.


(** ** Draining a FIFO *)

Lemma wrap_s32_idem_l : forall u v, wrap_s32 (wrap_s32 u + v) = wrap_s32 (u + v).
Proof.
  intros u v. unfold wrap_s32. f_equal.
  replace ((u + 2 ^ 31) mod 2 ^ 32 - 2 ^ 31 + v + 2 ^ 31)
    with ((u + 2 ^ 31) mod 2 ^ 32 + v) by ring.
  rewrite Zplus_mod_idemp_l. f_equal. ring.
Qed.

Lemma wrap_s32_small : forall u, - 2 ^ 31 <= u < 2 ^ 31 -> wrap_s32 u = u.
Proof.
  intros u H. unfold wrap_s32. rewrite Z.mod_small; lia.
Qed.

Lemma wrap_u32_small : forall u, 0 <= u < 2 ^ 32 -> wrap_u32 u = u.
Proof.
  intros u H. unfold wrap_u32. apply Z.mod_small. exact H.
Qed.

Lemma fifo_of_at : forall (D : Type) k (l : list D) j,
  fifo_of k l (k + j) = nth_error l j.
Proof.
  intros D k l j. unfold fifo_of.
  destruct (Nat.ltb_spec (k + j) k) as [H|H]; [lia|].
  f_equal. lia.
Qed.

Lemma wait_sample_fifo_of : forall (D : Type) k (d : D) l fuel j,
  (j <= k)%nat -> (fuel > k - j)%nat ->
  wait_sample (fifo_of k (d :: l)) fuel j = Some (S k, d).
Proof.
  intros D k d l. induction fuel as [|fuel IH]; intros j Hj Hf; [lia|].
  cbn [wait_sample]. unfold fifo_of at 1.
  destruct (Nat.ltb_spec j k) as [H|H].
  - apply IH; lia.
  - assert (j = k) by lia. subst j. rewrite Nat.sub_diag. reflexivity.
Qed.

Lemma last_default : forall (D : Type) (l : list D) (x a b : D),
  last (x :: l) a = last (x :: l) b.
Proof.
  intros D l. induction l as [|y l IH]; intros x a b; [reflexivity|].
  change (last (y :: l) a = last (y :: l) b). apply IH.
Qed.

Lemma drain_fifo_of :
  forall (D : Type) (accumulate : arr3 Z -> D -> arr3 Z) k (l rest : list D)
         pre d fuel count acc,
  l = pre ++ d :: rest -> (fuel > length rest)%nat ->
  drain (fifo_of k l) accumulate fuel (k + (length pre + 1)) d count acc
  = Some (S (k + length l), last (d :: rest) d,
          wrap_s32 (count + Z.of_nat (S (length rest))),
          fold_left accumulate (d :: rest) acc).
Proof.
  intros D accumulate k l rest. induction rest as [|d' rest IH];
    intros pre d fuel count acc Hl Hf;
    (destruct fuel as [|fuel]; [cbn in Hf; lia|]); cbn [drain];
    rewrite fifo_of_at.
  - assert (E : nth_error l (length pre + 1) = None).
    { apply nth_error_None. rewrite Hl, length_app. cbn [length]. lia. }
    rewrite E. cbn [last fold_left length].
    assert (L : length l = (length pre + 1)%nat)
      by (rewrite Hl, length_app; cbn [length]; lia).
    rewrite L. reflexivity.
  - assert (E : nth_error l (length pre + 1) = Some d').
    { rewrite Hl, nth_error_app2 by lia.
      replace (length pre + 1 - length pre)%nat with 1%nat by lia.
      reflexivity. }
    rewrite E.
    replace (S (k + (length pre + 1)))
      with (k + (length (pre ++ [d]) + 1))%nat
      by (rewrite length_app; cbn [length]; lia).
    rewrite (IH (pre ++ [d]) d' fuel).
    + cbn [fold_left length]. rewrite wrap_s32_idem_l.
      change (last (d :: d' :: rest) d) with (last (d' :: rest) d).
      rewrite (last_default D rest d' d d').
      replace (count + 1 + Z.of_nat (S (length rest)))
        with (count + Z.of_nat (S (S (length rest)))) by lia.
      reflexivity.
    + rewrite Hl, <- app_assoc. reflexivity.
    + cbn [length] in Hf. lia.
Qed.

(** The two loops on a FIFO that is empty for [k] reads and then holds the
    samples [d :: l]: they end, with the last sample, the number of samples
    and the accumulated sums. *)
Lemma read_all_fifo_of :
  forall (D : Type) (accumulate : arr3 Z -> D -> arr3 Z) k (d : D) l fuel,
  (fuel > k + length l)%nat ->
  read_all (fifo_of k (d :: l)) accumulate fuel
  = Some (last (d :: l) d, wrap_s32 (Z.of_nat (S (length l))),
          fold_left accumulate (d :: l) zero3i).
Proof.
  intros D accumulate k d l fuel Hf. unfold read_all.
  rewrite (wait_sample_fifo_of D k d l fuel 0) by lia.
  replace (S k) with (k + (length (@nil D) + 1))%nat by (cbn; lia).
  rewrite (drain_fifo_of D accumulate k (d :: l) l [] d fuel 0 zero3i)
    by (reflexivity || lia).
  reflexivity.
Qed.

Lemma fold_accum_accel : forall l d acc,
  fold_left accum_accel (d :: l) acc
  = Arr3 (wrap_s32 (at0 acc + sum_of bma_x (d :: l)))
         (wrap_s32 (at1 acc + sum_of bma_y (d :: l)))
         (wrap_s32 (at2 acc + sum_of bma_z (d :: l))).
Proof.
  induction l as [|d' l IH]; intros d acc.
  - cbn. rewrite !Z.add_0_r. reflexivity.
  - change (fold_left accum_accel (d :: d' :: l) acc)
      with (fold_left accum_accel (d' :: l) (accum_accel acc d)).
    rewrite IH. unfold accum_accel at 1 2 3. cbn [at0 at1 at2].
    rewrite !wrap_s32_idem_l.
    change (sum_of bma_x (d :: d' :: l)) with (bma_x d + sum_of bma_x (d' :: l)).
    change (sum_of bma_y (d :: d' :: l)) with (bma_y d + sum_of bma_y (d' :: l)).
    change (sum_of bma_z (d :: d' :: l)) with (bma_z d + sum_of bma_z (d' :: l)).
    rewrite !Z.add_assoc. reflexivity.
Qed.

(** ** The accelerometer reading *)

Lemma updateSensors_accels :
  forall fuel i a s k d l kg dg lg,
  accel_fifo i = fifo_of k (d :: l) ->
  gyro_fifo i = fifo_of kg (dg :: lg) ->
  (fuel > k + length l)%nat -> (fuel > kg + length lg)%nat ->
  Z.of_nat (length (d :: l)) < 2 ^ 31 ->
  - 2 ^ 31 <= sum_of bma_x (d :: l) < 2 ^ 31 ->
  - 2 ^ 31 <= sum_of bma_y (d :: l) < 2 ^ 31 ->
  - 2 ^ 31 <= sum_of bma_z (d :: l) < 2 ^ 31 ->
  exists a' s',
    updateSensors fuel i a s = Some (0, a', s')
    /\ accels a'
       = let scaling :=
           F32.div (accel_scale i) (F32.of_Z (Z.of_nat (length (d :: l)))) in
         Arr3 (F32.mul (F32.of_Z (sum_of bma_x (d :: l))) scaling)
              (F32.mul (F32.of_Z (sum_of bma_y (d :: l))) scaling)
              (F32.mul (F32.of_Z (sum_of bma_z (d :: l))) scaling).
Proof.
  intros fuel i a s k d l kg dg lg Ha Hg Hf Hfg HN Hx Hy Hz.
  unfold updateSensors. cbv zeta.
  rewrite Ha, Hg, !read_all_fifo_of by assumption.
  unfold updateSensors_tail. cbv zeta.
  eexists. eexists. split; [reflexivity|].
  cbn [accels accel_accum accel_samples scaling set_scaling set_accel_samples
       set_accel_accum set_accel].
  rewrite fold_accum_accel. cbn [at0 at1 at2 zero3i].
  rewrite !Z.add_0_l.
  rewrite (wrap_s32_small _ Hx), (wrap_s32_small _ Hy), (wrap_s32_small _ Hz).
  change (Z.of_nat (S (length l))) with (Z.of_nat (length (d :: l))).
  rewrite wrap_s32_small by lia. rewrite wrap_u32_small by lia.
  reflexivity.
Qed.


(** ** Gain scheduling *)

Lemma select_gains_converging : forall i s,
  converging i = true ->
  gains (select_gains i s) = forced_gains /\ init (select_gains i s) = 0.
Proof.
  intros i s H. unfold select_gains, converging in *. cbv zeta.
  rewrite H. split; reflexivity.
Qed.

Lemma select_gains_arming : forall i s,
  arming i s = true ->
  gains (select_gains i s) = forced_gains /\ init (select_gains i s) = 0.
Proof.
  intros i s H. unfold select_gains, arming in *. cbv zeta.
  destruct ((tick_a i <? 7000) && (tick_b i >? 1000));
    [split; reflexivity|].
  cbn [zero_during_arming emit set_log]. rewrite H. split; reflexivity.
Qed.

Lemma select_gains_load : forall i s,
  converging i = false -> arming i s = false -> init s = 0 ->
  gains (select_gains i s) = configured_gains (AttitudeSettings s)
  /\ init (select_gains i s) = 1
  /\ log (select_gains i s)
     = log s ++ [EvGet ObjFlightStatus; EvGet ObjAttitudeSettings;
                 EvGet ObjAttitudeSettings; EvGet ObjAttitudeSettings].
Proof.
  intros i s Hc Ha Hi. unfold select_gains, converging, arming in *.
  cbv zeta. rewrite Hc. cbn [zero_during_arming init emit set_log].
  rewrite Ha, Hi. cbn. rewrite <- !app_assoc. repeat split.
Qed.

Lemma select_gains_keep : forall i s,
  converging i = false -> arming i s = false -> init s <> 0 ->
  select_gains i s = emit (EvGet ObjFlightStatus) s.
Proof.
  intros i s Hc Ha Hi. unfold select_gains, converging, arming in *.
  cbv zeta. rewrite Hc. cbn [zero_during_arming init emit set_log].
  rewrite Ha. apply Z.eqb_neq in Hi. rewrite Hi. reflexivity.
Qed.

Lemma steady_not_converging : forall s i, steady s i -> converging i = false.
Proof.
  intros s i [Ht _]. unfold converging.
  destruct (Z.ltb_spec (tick_a i) 7000); [lia|reflexivity].
Qed.

(** The rest of an iteration changes neither gains nor [init], and reads
    the settings object no more. *)
Lemma cycle_after_select_gains : forall fuel i s s',
  AttitudeTask_cycle fuel i s = Some s' ->
  gains s' = gains (select_gains i s)
  /\ init s' = init (select_gains i s)
  /\ AttitudeSettings s' = AttitudeSettings s
  /\ zero_during_arming s' = zero_during_arming s
  /\ exists evs, log s' = log (select_gains i s) ++ evs
                 /\ settings_reads evs = O.
Proof.
  intros fuel i s s' H.
  destruct (cycle_inv _ _ _ _ H) as (a' & s2 & E & ->).
  destruct (updateSensors_frame _ _ _ _ _ _ _ E)
    as (_ & _ & Hg & Hi & _ & Hs & _ & _ & Hz & _).
  destruct (select_gains_frame i s) as (_ & _ & _ & _ & _ & Gs & _ & _ & Gz).
  cbv zeta in Gs, Gz.
  split; [exact Hg|]. split; [exact Hi|].
  split; [cbn; rewrite Hs; exact Gs|].
  split; [cbn; rewrite Hz; exact Gz|].
  destruct (updateSensors_log _ _ _ _ _ _ _ E) as (evb & Hl & Hb).
  exists ([EvWDG_UpdateFlag; EvGet ObjAttitudeRaw]
          ++ EvAttitudeRawSet (raw s2) :: evb
          ++ [EvAttitudeRawSet a'; EvAlarmsClear; EvTaskDelay 1]).
  split.
  - cbn [log emit AlarmsClear AttitudeRawSet set_log set_alarm_attitude
         set_AttitudeRaw].
    rewrite Hl. cbn [log emit set_log].
    destruct (updateSensors_frame _ _ _ _ _ _ _ E) as (_ & Hraw & _).
    rewrite Hraw. cbn [raw emit set_log].
    rewrite <- ?app_assoc. cbn. rewrite <- ?app_assoc. reflexivity.
  - unfold settings_reads. cbn. rewrite filter_app. cbn.
    rewrite app_nil_r.
    clear - Hb. induction evb as [|e evb IH]; [reflexivity|].
    cbn in Hb. apply andb_true_iff in Hb. destruct Hb as [He Hb].
    cbn. destruct e as [o| | | | | | | |]; cbn in *; try discriminate;
      try (apply IH; exact Hb).
    destruct o; cbn in *; try discriminate. apply IH; exact Hb.
Qed.

Lemma settings_reads_app : forall e1 e2,
  settings_reads (e1 ++ e2) = (settings_reads e1 + settings_reads e2)%nat.
Proof.
  intros e1 e2. unfold settings_reads. rewrite filter_app, length_app.
  reflexivity.
Qed.

(** Steady-state iterations once the gains are loaded. *)
Lemma steady_loop_keeps : forall fuel ins s s',
  AttitudeTask_loop fuel ins s = Some s' ->
  Forall (steady s) ins -> init s <> 0 ->
  gains s' = gains s /\ init s' = init s
  /\ AttitudeSettings s' = AttitudeSettings s
  /\ exists evs, log s' = log s ++ evs /\ settings_reads evs = O.
Proof.
  intros fuel ins. induction ins as [|i ins IH]; intros s s' H Hst Hi.
  - cbn in H. inversion H; subst. repeat split.
    exists []. split; [symmetry; apply app_nil_r|reflexivity].
  - cbn [AttitudeTask_loop] in H.
    destruct (AttitudeTask_cycle fuel i s) as [s1|] eqn:E; [|discriminate].
    inversion Hst as [|i' ins' Hsi Hsr]; subst.
    destruct (cycle_after_select_gains _ _ _ _ E)
      as (Hg & Hin & Hs & Hz & evs1 & Hl1 & Hn1).
    rewrite (select_gains_keep i s (steady_not_converging s i Hsi)
               (proj2 Hsi) Hi) in Hg, Hin, Hl1.
    change (gains (emit (EvGet ObjFlightStatus) s)) with (gains s) in Hg.
    change (init (emit (EvGet ObjFlightStatus) s)) with (init s) in Hin.
    change (log (emit (EvGet ObjFlightStatus) s))
      with (log s ++ [EvGet ObjFlightStatus]) in Hl1.
    assert (Hst1 : Forall (steady s1) ins).
    { eapply Forall_impl; [|exact Hsr].
      intros j [Hj1 Hj2]. split; [exact Hj1|].
      unfold arming in *. rewrite Hz. exact Hj2. }
    destruct (IH s1 s' H Hst1) as (Hg' & Hi' & Hs' & evs2 & Hl2 & Hn2).
    { rewrite Hin. exact Hi. }
    split; [congruence|]. split; [congruence|]. split; [congruence|].
    exists ((EvGet ObjFlightStatus :: evs1) ++ evs2). split.
    + rewrite Hl2, Hl1, <- !app_assoc. reflexivity.
    + rewrite settings_reads_app, Hn2.
      change (settings_reads (EvGet ObjFlightStatus :: evs1))
        with (settings_reads evs1). rewrite Hn1. reflexivity.
Qed.


(** ** Digits and shifts *)

Lemma Zdigits2_log2 : forall m, 0 < m -> Zdigits2 m = Z.log2 m + 1.
Proof.
  intros [|p|p] H; try lia. cbn [Zdigits2].
  induction p as [p IH|p IH|].
  - cbn [digits2_pos]. rewrite Pos2Z.inj_succ, IH by lia.
    change (Z.log2 (Z.pos p~1)) with (Z.pos (Pos.size p)).
    destruct p; cbn; lia.
  - cbn [digits2_pos]. rewrite Pos2Z.inj_succ, IH by lia.
    change (Z.log2 (Z.pos p~0)) with (Z.pos (Pos.size p)).
    destruct p; cbn; lia.
  - reflexivity.
Qed.

Lemma shr_1_m : forall mrs,
  0 <= shr_m mrs -> shr_m (shr_1 mrs) = shr_m mrs / 2.
Proof.
  intros [m r s] H. cbn [shr_m] in H.
  destruct m as [|p|p]; [reflexivity| |lia].
  rewrite <- Z.div2_div. destruct p; reflexivity.
Qed.

Lemma iter_shr_1_m : forall n mrs,
  0 <= shr_m mrs ->
  shr_m (iter_pos shr_1 n mrs) = shr_m mrs / 2 ^ Z.pos n.
Proof.
  induction n as [n IH|n IH|]; intros mrs H; cbn [iter_pos].
  - assert (H1 : 0 <= shr_m (shr_1 mrs))
      by (rewrite shr_1_m by exact H; apply Z.div_pos; lia).
    assert (H2 : 0 <= shr_m (iter_pos shr_1 n (shr_1 mrs)))
      by (rewrite IH by exact H1; apply Z.div_pos; lia).
    rewrite IH, IH, shr_1_m by assumption.
    rewrite !Z.div_div by lia. f_equal.
    rewrite Pos2Z.inj_xI.
    replace (2 * Z.pos n + 1) with (1 + Z.pos n + Z.pos n) by lia.
    rewrite !Z.pow_add_r by lia. change (2 ^ 1) with 2. ring.
  - assert (H2 : 0 <= shr_m (iter_pos shr_1 n mrs))
      by (rewrite IH by exact H; apply Z.div_pos; lia).
    rewrite IH, IH by assumption.
    rewrite !Z.div_div by lia. f_equal.
    rewrite Pos2Z.inj_xO. rewrite <- Z.pow_add_r by lia. f_equal. lia.
  - apply shr_1_m, H.
Qed.


(** ** Rounding of binary floating-point numbers

    What follows relates the operations of [SpecFloat] to the real numbers
    they stand for, as far as the norm of the quaternion needs it. *)


(** Digits *)
Lemma Zdigits2_nonneg : forall m, 0 <= Zdigits2 m.
Proof. intros [|p|p]; cbn; lia. Qed.

Lemma Zdigits2_bounds : forall m, 0 < m ->
  2 ^ (Zdigits2 m - 1) <= m < 2 ^ Zdigits2 m.
Proof.
  intros m H. rewrite Zdigits2_log2 by exact H.
  replace (Z.log2 m + 1 - 1) with (Z.log2 m) by ring.
  replace (Z.log2 m + 1) with (Z.succ (Z.log2 m)) by ring.
  apply Z.log2_spec, H.
Qed.

Lemma Zdigits2_le : forall m k, 0 <= m -> 0 <= k -> m < 2 ^ k -> Zdigits2 m <= k.
Proof.
  intros m k Hm Hk H. destruct (Z.eq_dec m 0) as [->|Hn]; [cbn; lia|].
  rewrite Zdigits2_log2 by lia.
  assert (Z.log2 m < k) by (apply Z.log2_lt_pow2; lia). lia.
Qed.

Lemma Zdigits2_ge : forall m k, 0 <= k -> 2 ^ k <= m -> k + 1 <= Zdigits2 m.
Proof.
  intros m k Hk H. assert (0 < m) by (pose proof (Z.pow_pos_nonneg 2 k); lia).
  rewrite Zdigits2_log2 by lia.
  assert (k <= Z.log2 m) by (apply Z.log2_le_pow2; lia). lia.
Qed.

Lemma Zdigits2_div_pow2 : forall m n, 0 < m -> 0 <= n -> n < Zdigits2 m ->
  Zdigits2 (m / 2 ^ n) = Zdigits2 m - n.
Proof.
  intros m n Hm Hn Hd.
  pose proof (Zdigits2_bounds m Hm) as [Hlo Hhi].
  assert (Hq : 0 < m / 2 ^ n).
  { apply Z.div_str_pos. split; [apply Z.pow_pos_nonneg; lia|].
    apply Z.le_trans with (2 ^ (Zdigits2 m - 1)); [|exact Hlo].
    apply Z.pow_le_mono_r; lia. }
  rewrite !Zdigits2_log2 by assumption.
  rewrite <- Z.shiftr_div_pow2 by lia.
  rewrite Z.log2_shiftr by exact Hm.
  rewrite Zdigits2_log2 in Hd by exact Hm. lia.
Qed.

Lemma Zdigits2_div_pow2_small : forall m n, 0 <= m -> 0 <= n -> Zdigits2 m <= n ->
  m / 2 ^ n = 0.
Proof.
  intros m n Hm Hn Hd. apply Z.div_small. split; [exact Hm|].
  destruct (Z.eq_dec m 0) as [->|Hne]; [apply Z.pow_pos_nonneg; lia|].
  pose proof (Zdigits2_bounds m ltac:(lia)) as [_ Hhi].
  apply Z.lt_le_trans with (2 ^ Zdigits2 m); [exact Hhi|].
  apply Z.pow_le_mono_r; lia.
Qed.

Lemma Zdigits2_succ : forall m, 0 <= m -> Zdigits2 (m + 1) <= Zdigits2 m + 1.
Proof.
  intros m Hm. destruct (Z.eq_dec m 0) as [->|Hne]; [cbn; lia|].
  pose proof (Zdigits2_bounds m ltac:(lia)) as [_ Hhi].
  apply Zdigits2_le; [lia|pose proof (Zdigits2_nonneg m); lia|].
  rewrite Z.pow_add_r by (try apply Zdigits2_nonneg; lia). lia.
Qed.

Lemma Zdigits2_mono : forall a b, 0 <= a -> a <= b -> Zdigits2 a <= Zdigits2 b.
Proof.
  intros a b Ha Hab. destruct (Z.eq_dec a 0) as [->|Hne].
  - apply Zdigits2_nonneg.
  - rewrite !Zdigits2_log2 by lia.
    apply Z.add_le_mono_r, Z.log2_le_mono, Hab.
Qed.


Lemma shr_record_of_loc_m : forall m l, shr_m (shr_record_of_loc m l) = m.
Proof. intros m [|[| |]]; reflexivity. Qed.

Lemma round_nearest_even_bounds : forall m l,
  m <= round_nearest_even m l <= m + 1.
Proof.
  intros m l. unfold round_nearest_even.
  destruct l as [|[| |]]; try lia. destruct (Z.even m); lia.
Qed.

Lemma round_exact : forall m,
  round_nearest_even m (loc_of_shr_record (shr_record_of_loc m loc_Exact)) = m.
Proof. reflexivity. Qed.


Lemma div_pow2_bracket : forall m n, 0 <= n ->
  (m / 2 ^ n) * 2 ^ n <= m < (m / 2 ^ n + 1) * 2 ^ n.
Proof.
  intros m n Hn. assert (0 < 2 ^ n) by (apply Z.pow_pos_nonneg; lia).
  pose proof (Z.mul_div_le m (2 ^ n) ltac:(lia)).
  pose proof (Z.mul_succ_div_gt m (2 ^ n) ltac:(lia)).
  lia.
Qed.

(** ** Powers of two as reals *)

Lemma bpow_pos : forall e, (0 < bpow e)%R.
Proof. intros e. apply powerRZ_lt. lra. Qed.

Lemma bpow_add : forall a b, bpow (a + b) = (bpow a * bpow b)%R.
Proof. intros a b. apply powerRZ_add. lra. Qed.

Lemma bpow_IZR : forall n, 0 <= n -> IZR (2 ^ n) = bpow n.
Proof.
  intros n Hn. unfold bpow.
  rewrite <- (Z2Nat.id n Hn). generalize (Z.to_nat n). intros k.
  rewrite <- pow_IZR, <- pow_powerRZ. reflexivity.
Qed.

Lemma bpow_le : forall a b, a <= b -> (bpow a <= bpow b)%R.
Proof.
  intros a b H. replace b with (a + (b - a)) by ring. rewrite bpow_add.
  rewrite <- (Rmult_1_r (bpow a)) at 1.
  apply Rmult_le_compat_l; [apply Rlt_le, bpow_pos|].
  rewrite <- bpow_IZR by lia. apply IZR_le.
  assert (0 < 2 ^ (b - a)) by (apply Z.pow_pos_nonneg; lia). lia.
Qed.

Lemma bpow_0 : bpow 0 = 1%R.
Proof. reflexivity. Qed.

Lemma bpow_succ : forall e, bpow (e + 1) = (2 * bpow e)%R.
Proof. intros e. rewrite bpow_add. change (bpow 1) with (2 * 1)%R. ring. Qed.

Lemma iter_xO : forall d m, Z.pos (Pos.iter xO m d) = Z.pos m * 2 ^ Z.pos d.
Proof.
  intros d m. revert m. induction d as [|d IH] using Pos.peano_ind; intros m.
  - cbn. lia.
  - rewrite Pos.iter_succ, Pos2Z.inj_succ, Z.pow_succ_r by lia.
    change (Z.pos (Pos.iter xO m d)~0) with (2 * Z.pos (Pos.iter xO m d)).
    rewrite IH. ring.
Qed.

(** [shl_align] keeps the value and reaches the requested exponent when it
    is not above the given one. *)
Lemma shl_align_spec : forall mx ex ex' mz ez,
  shl_align mx ex ex' = (mz, ez) ->
  ez <= ex /\ Z.pos mz = Z.pos mx * 2 ^ (ex - ez)
  /\ (ex' <= ex -> ez = ex') /\ (ex <= ex' -> ez = ex).
Proof.
  intros mx ex ex' mz ez. unfold shl_align.
  destruct (ex' - ex) as [|d|d] eqn:Ed; intros H; inversion H; subst; clear H.
  - replace (ez - ez) with 0 by ring. cbn [Z.pow]. repeat split; lia.
  - replace (ez - ez) with 0 by ring. cbn [Z.pow]. repeat split; lia.
  - rewrite iter_xO. replace (ex - ez) with (Z.pos d) by lia.
    repeat split; lia.
Qed.

Lemma Zdigits2_mul_pow2 : forall m n, 0 < m -> 0 <= n ->
  Zdigits2 (m * 2 ^ n) = Zdigits2 m + n.
Proof.
  intros m n Hm Hn.
  assert (0 < 2 ^ n) by (apply Z.pow_pos_nonneg; lia).
  rewrite !Zdigits2_log2 by nia.
  rewrite <- Z.shiftl_mul_pow2 by lia. rewrite Z.log2_shiftl by lia. ring.
Qed.

(** ** Results of operations that do not overflow *)




Lemma bpow_lt_inv : forall a b, (bpow a < bpow b)%R -> a < b.
Proof.
  intros a b H. destruct (Z_lt_le_dec a b) as [Hlt|Hge]; [exact Hlt|].
  pose proof (bpow_le b a Hge). lra.
Qed.

(** *** Square roots *)
Lemma sqrt_bpow : forall e, sqrt (bpow (2 * e)) = bpow e.
Proof.
  intros e. replace (2 * e) with (e + e) by ring. rewrite bpow_add.
  apply sqrt_square, Rlt_le, bpow_pos.
Qed.

(** *** Quotients *)
Lemma new_location_exact : forall nb k,
  new_location nb k = loc_Exact -> k = 0.
Proof.
  intros nb k. unfold new_location, new_location_even, new_location_odd.
  destruct (Z.even nb); destruct (Z.eqb_spec k 0); try discriminate; auto.
Qed.

Section Rounding.
Variables prec emax : Z.
Hypothesis Hprec : 2 <= prec.
Hypothesis Hemax : prec < emax.

Local Abbreviation build := (build_float prec emax).
Local Abbreviation rel_err := (rel_error prec).
Local Abbreviation abs_err := (abs_error prec emax).
Local Abbreviation shaped := (shaped_as prec emax).
Local Abbreviation approx := (approximates prec emax).

Lemma fexp_ge_emin : forall z, emin prec emax <= fexp prec emax z.
Proof using Hprec Hemax. intros z. unfold fexp. lia. Qed.

(** One step of [shr_fexp] *)
Lemma shr_fexp_spec : forall m e l mrs e',
  0 <= m ->
  shr_fexp prec emax m e l = (mrs, e') ->
  let n := fexp prec emax (Zdigits2 m + e) - e in
  (n <= 0 /\ mrs = shr_record_of_loc m l /\ e' = e)
  \/ (0 < n /\ shr_m mrs = m / 2 ^ n /\ e' = e + n).
Proof using Hprec Hemax.
  intros m e l mrs e' Hm. unfold shr_fexp, shr.
  destruct (fexp prec emax (Zdigits2 m + e) - e) as [|n|n] eqn:En;
    intros H; inversion H; subst; clear H; cbv zeta.
  - left. repeat split; lia.
  - right. split; [lia|]. split; [|reflexivity].
    rewrite iter_shr_1_m by (rewrite shr_record_of_loc_m; exact Hm).
    rewrite shr_record_of_loc_m. reflexivity.
  - left. repeat split; lia.
Qed.

Lemma binary_round_aux_spec : forall sx mx ex lx,
  0 <= mx ->
  lx = loc_Exact \/ prec <= Zdigits2 mx \/ ex <= emin prec emax ->
  exists m e,
    binary_round_aux prec emax sx mx ex lx = build sx m e
    /\ 0 <= m /\ ex <= e /\ emin prec emax <= e /\ Zdigits2 m <= prec
    /\ (m - 1) * 2 ^ (e - ex) <= mx < (m + 2) * 2 ^ (e - ex)
    /\ ((lx = loc_Exact /\ e = ex /\ m = mx)
        \/ 2 ^ (prec - 1) <= m
        \/ e = emin prec emax).
Proof using Hprec Hemax.
  intros sx mx ex lx Hmx Hpre. unfold binary_round_aux.
  assert (H2p : 2 <= 2 ^ (prec - 1))
    by (change 2 with (2 ^ 1) at 1; apply Z.pow_le_mono_r; lia).
  destruct (shr_fexp prec emax mx ex lx) as [mrs1 e1] eqn:E1.
  pose proof (shr_fexp_spec _ _ _ _ _ Hmx E1) as S1. cbv zeta in S1.
  pose proof (round_nearest_even_bounds (shr_m mrs1) (loc_of_shr_record mrs1))
    as Hr.
  set (m2 := round_nearest_even (shr_m mrs1) (loc_of_shr_record mrs1)) in *.
  destruct (shr_fexp prec emax m2 e1 loc_Exact) as [mrs2 e2] eqn:E2.
  pose proof (fexp_ge_emin (Zdigits2 mx + ex)) as Hfe.
  pose proof (Zdigits2_nonneg mx) as Hdn.
  destruct S1 as [(Hn1 & Hrec & He1) | (Hn1 & Hm1 & He1)].
  - (* no shift in the first step *)
    subst mrs1 e1. rewrite shr_record_of_loc_m in *.
    assert (Hdx : Zdigits2 mx <= prec) by (unfold fexp in Hn1; lia).
    assert (Hex : emin prec emax <= ex) by lia.
    assert (Hm2 : 0 <= m2) by lia.
    pose proof (shr_fexp_spec _ _ _ _ _ Hm2 E2) as S2. cbv zeta in S2.
    pose proof (Zdigits2_mono mx m2 Hmx (proj1 Hr)) as Hmono.
    pose proof (Zdigits2_succ mx Hmx) as Hsucc.
    pose proof (Zdigits2_mono m2 (mx + 1) Hm2 (proj2 Hr)) as Hmono2.
    destruct (Z.eq_dec m2 mx) as [Heq|Hne].
    + (* rounding kept the mantissa *)
      rewrite Heq in *.
      destruct S2 as [(Hn2 & Hrec2 & He2) | (Hn2 & _ & _)]; [|lia].
      subst mrs2 e2. rewrite shr_record_of_loc_m.
      exists mx, ex. split; [reflexivity|].
      replace (ex - ex) with 0 by ring. rewrite Z.pow_0_r.
      repeat split; try lia.
      destruct Hpre as [Hl|[Hl|Hl]].
      * left. repeat split; assumption.
      * right. left. assert (Hd : Zdigits2 mx = prec) by lia.
        assert (0 < mx) by (destruct mx; cbn in Hd; lia).
        pose proof (Zdigits2_bounds mx ltac:(lia)) as [Hlo _].
        rewrite Hd in Hlo. exact Hlo.
      * right. right. lia.
    + (* rounding went up *)
      assert (Hup : m2 = mx + 1) by lia.
      assert (Hlx : lx <> loc_Exact).
      { intros ->. apply Hne. subst m2. reflexivity. }
      destruct Hpre as [Hl|[Hl|Hl]]; [contradiction| |].
      * (* full mantissa *)
        assert (Hd : Zdigits2 mx = prec) by lia.
        assert (Hpos : 0 < mx) by (destruct mx; cbn in Hd; lia).
        pose proof (Zdigits2_bounds mx Hpos) as [Hlo Hhi].
        rewrite Hd in Hlo, Hhi.
        destruct S2 as [(Hn2 & Hrec2 & He2) | (Hn2 & Hm3 & He2)].
        -- subst mrs2 e2. rewrite shr_record_of_loc_m.
           exists m2, ex. split; [reflexivity|].
           replace (ex - ex) with 0 by ring. rewrite Z.pow_0_r.
           assert (Zdigits2 m2 <= prec) by (unfold fexp in Hn2; lia).
           repeat split; try lia.
        -- assert (Hd2 : Zdigits2 m2 = prec + 1) by (unfold fexp in Hn2; lia).
           assert (Hn2' : fexp prec emax (Zdigits2 m2 + ex) - ex = 1)
             by (unfold fexp; lia).
           rewrite Hn2' in Hm3, He2. 
           pose proof (div_pow2_bracket m2 1 ltac:(lia)) as Hb.
           pose proof (Zdigits2_div_pow2 m2 1 ltac:(lia) ltac:(lia) ltac:(lia))
             as Hd3.
           rewrite <- Hm3 in Hb, Hd3. change (2 ^ 1) with 2 in Hb.
           exists (shr_m mrs2), e2. split; [reflexivity|].
           replace (e2 - ex) with 1 by lia. change (2 ^ 1) with 2.
           assert (H3pos : 0 < shr_m mrs2) by lia.
           pose proof (Zdigits2_bounds (shr_m mrs2) H3pos) as [Hlo3 _].
           replace (Zdigits2 (shr_m mrs2) - 1) with (prec - 1) in Hlo3 by lia.
           repeat split; try lia.
      * (* at the smallest exponent *)
        assert (Hee : ex = emin prec emax) by lia.
        destruct (Z_le_gt_dec prec (Zdigits2 mx)) as [Hfull|Hshort].
        -- (* as the previous case *)
           assert (Hd : Zdigits2 mx = prec) by lia.
           assert (Hpos : 0 < mx) by (destruct mx; cbn in Hd; lia).
           pose proof (Zdigits2_bounds mx Hpos) as [Hlo Hhi].
           rewrite Hd in Hlo, Hhi.
           destruct S2 as [(Hn2 & Hrec2 & He2) | (Hn2 & Hm3 & He2)].
           ++ subst mrs2 e2. rewrite shr_record_of_loc_m.
              exists m2, ex. split; [reflexivity|].
              replace (ex - ex) with 0 by ring. rewrite Z.pow_0_r.
              assert (Zdigits2 m2 <= prec) by (unfold fexp in Hn2; lia).
              repeat split; try lia.
           ++ assert (Hd2 : Zdigits2 m2 = prec + 1) by (unfold fexp in Hn2; lia).
              assert (Hn2' : fexp prec emax (Zdigits2 m2 + ex) - ex = 1)
                by (unfold fexp; lia).
              rewrite Hn2' in Hm3, He2.
              pose proof (div_pow2_bracket m2 1 ltac:(lia)) as Hb.
              pose proof (Zdigits2_div_pow2 m2 1 ltac:(lia) ltac:(lia) ltac:(lia))
                as Hd3.
              rewrite <- Hm3 in Hb, Hd3. change (2 ^ 1) with 2 in Hb.
              exists (shr_m mrs2), e2. split; [reflexivity|].
              replace (e2 - ex) with 1 by lia. change (2 ^ 1) with 2.
              assert (H3pos : 0 < shr_m mrs2) by lia.
              pose proof (Zdigits2_bounds (shr_m mrs2) H3pos) as [Hlo3 _].
              replace (Zdigits2 (shr_m mrs2) - 1) with (prec - 1) in Hlo3 by lia.
              repeat split; try lia.
        -- destruct S2 as [(Hn2 & Hrec2 & He2) | (Hn2 & Hm3 & He2)];
             [|unfold fexp in Hn2; lia].
           subst mrs2 e2. rewrite shr_record_of_loc_m.
           exists m2, ex. split; [reflexivity|].
           replace (ex - ex) with 0 by ring. rewrite Z.pow_0_r.
           repeat split; try lia.
  - (* the first step shifts *)
    set (n1 := fexp prec emax (Zdigits2 mx + ex) - ex) in *.
    set (m1 := shr_m mrs1) in *.
    pose proof (div_pow2_bracket mx n1 ltac:(lia)) as Hb1.
    rewrite <- Hm1 in Hb1.
    assert (Hm1pos : 0 <= m1) by (rewrite Hm1; apply Z.div_pos; [lia|apply Z.pow_pos_nonneg; lia]).
    assert (Hm2 : 0 <= m2) by lia.
    assert (HP : 0 < 2 ^ n1) by (apply Z.pow_pos_nonneg; lia).
    pose proof (shr_fexp_spec _ _ _ _ _ Hm2 E2) as S2. cbv zeta in S2.
    pose proof (Zdigits2_mono m1 m2 Hm1pos (proj1 Hr)) as Hmono.
    pose proof (Zdigits2_succ m1 Hm1pos) as Hsucc.
    pose proof (Zdigits2_mono m2 (m1 + 1) Hm2 (proj2 Hr)) as Hmono2.
    destruct (Z_le_gt_dec (emin prec emax) (Zdigits2 mx + ex - prec))
      as [Hnormal|Hsub].
    + (* normal range *)
      assert (Hn1v : n1 = Zdigits2 mx - prec) by (subst n1; unfold fexp; lia).
      assert (Hmxpos : 0 < mx) by (destruct mx; cbn in *; lia).
      assert (Hd1 : Zdigits2 m1 = prec).
      { rewrite Hm1, Zdigits2_div_pow2 by lia. lia. }
      assert (Hm1p : 0 < m1) by (destruct m1; cbn in Hd1; lia).
      pose proof (Zdigits2_bounds m1 Hm1p) as [Hlo1 Hhi1].
      rewrite Hd1 in Hlo1, Hhi1.
      destruct S2 as [(Hn2 & Hrec2 & He2) | (Hn2 & Hm3 & He2)].
      * subst mrs2 e2. rewrite shr_record_of_loc_m.
        exists m2, e1. split; [reflexivity|].
        replace (e1 - ex) with n1 by lia.
        assert (Zdigits2 m2 <= prec) by (unfold fexp in Hn2; lia).
        repeat split; try lia; try nia.
      * assert (Hd2 : Zdigits2 m2 = prec + 1) by (unfold fexp in Hn2; lia).
        assert (Hn2' : fexp prec emax (Zdigits2 m2 + e1) - e1 = 1)
          by (unfold fexp; lia).
        rewrite Hn2' in Hm3, He2.
        pose proof (div_pow2_bracket m2 1 ltac:(lia)) as Hb.
        pose proof (Zdigits2_div_pow2 m2 1 ltac:(lia) ltac:(lia) ltac:(lia))
          as Hd3.
        rewrite <- Hm3 in Hb, Hd3. change (2 ^ 1) with 2 in Hb.
        exists (shr_m mrs2), e2. split; [reflexivity|].
        replace (e2 - ex) with (n1 + 1) by lia.
        rewrite Z.pow_add_r by lia. change (2 ^ 1) with 2.
        assert (H3pos : 0 < shr_m mrs2) by lia.
        pose proof (Zdigits2_bounds (shr_m mrs2) H3pos) as [Hlo3 _].
        replace (Zdigits2 (shr_m mrs2) - 1) with (prec - 1) in Hlo3 by lia.
        repeat split; try lia; try nia.
    + (* below the normal range *)
      assert (He1v : e1 = emin prec emax) by (subst n1; unfold fexp in *; lia).
      assert (Hd1 : Zdigits2 m1 < prec).
      { destruct (Z_lt_le_dec n1 (Zdigits2 mx)) as [Hlt|Hge].
        - assert (Hmxpos : 0 < mx) by (destruct mx; cbn in *; lia).
          rewrite Hm1, Zdigits2_div_pow2 by lia. subst n1. unfold fexp. lia.
        - rewrite Hm1, Zdigits2_div_pow2_small by lia. cbn. lia. }
      assert (Hm1lt : m1 < 2 ^ (prec - 1)).
      { destruct (Z.eq_dec m1 0) as [->|Hne]; [apply Z.pow_pos_nonneg; lia|].
        pose proof (Zdigits2_bounds m1 ltac:(lia)) as [_ Hhi].
        apply Z.lt_le_trans with (2 ^ Zdigits2 m1); [exact Hhi|].
        apply Z.pow_le_mono_r; lia. }
      assert (Hd2 : Zdigits2 m2 <= prec).
      { apply Zdigits2_le; try lia.
        replace prec with (1 + (prec - 1)) by ring.
        rewrite Z.pow_add_r by lia. change (2 ^ 1) with 2. lia. }
      destruct S2 as [(Hn2 & Hrec2 & He2) | (Hn2 & Hm3 & He2)];
        [|unfold fexp in Hn2; lia].
      subst mrs2 e2. rewrite shr_record_of_loc_m.
      exists m2, e1. split; [reflexivity|].
      replace (e1 - ex) with n1 by lia.
      repeat split; try lia; try nia.
Qed.



(** Rounding in the reals: the result is off by at most [rel_err] of the
    exact value plus [abs_err], unless it overflows. *)
Lemma binary_round_aux_R : forall sx mx ex lx (x : Rdefinitions.R),
  0 <= mx ->
  lx = loc_Exact \/ prec <= Zdigits2 mx \/ ex <= emin prec emax ->
  (IZR mx * bpow ex <= x < (IZR mx + 1) * bpow ex)%R ->
  (lx = loc_Exact -> x = (IZR mx * bpow ex)%R) ->
  exists m e,
    binary_round_aux prec emax sx mx ex lx = build sx m e
    /\ 0 <= m /\ emin prec emax <= e /\ Zdigits2 m <= prec
    /\ (Rabs (IZR m * bpow e - x) <= rel_err * x + abs_err)%R
    /\ (1 <= m -> (bpow e <= x)%R \/ e = emin prec emax).
Proof using Hprec Hemax.
  intros sx mx ex lx x Hmx Hpre Hx Hexact.
  destruct (binary_round_aux_spec sx mx ex lx Hmx Hpre)
    as (m & e & Hb & Hm & Hee & Hemin & Hd & Hbr & Hcase).
  exists m, e. split; [exact Hb|]. split; [exact Hm|].
  split; [exact Hemin|]. split; [exact Hd|].
  assert (Hx0 : (0 <= x)%R).
  { apply Rle_trans with (IZR mx * bpow ex)%R; [|lra].
    apply Rmult_le_pos; [apply IZR_le; lia|apply Rlt_le, bpow_pos]. }
  pose proof (bpow_pos ex) as Hpex. pose proof (bpow_pos e) as Hpe.
  pose proof (bpow_pos (emin prec emax)) as Hpmin.
  pose proof (bpow_pos (3 - prec)) as Hpu.
  (* the bracket, in the reals *)
  assert (Hde : bpow e = (IZR (2 ^ (e - ex)) * bpow ex)%R).
  { rewrite bpow_IZR by lia. rewrite <- bpow_add. f_equal. ring. }
  assert (Hlo : ((IZR m - 1) * bpow e <= x)%R).
  { apply Rle_trans with (IZR mx * bpow ex)%R; [|lra].
    rewrite Hde, <- Rmult_assoc. apply Rmult_le_compat_r; [lra|].
    rewrite <- minus_IZR, <- mult_IZR. apply IZR_le. lia. }
  assert (Hhi : (x <= (IZR m + 2) * bpow e)%R).
  { apply Rle_trans with ((IZR mx + 1) * bpow ex)%R; [lra|].
    rewrite Hde, <- Rmult_assoc. apply Rmult_le_compat_r; [lra|].
    rewrite <- !plus_IZR, <- mult_IZR. apply IZR_le. lia. }
  unfold rel_error, abs_error.
  destruct Hcase as [(Hl & He & Hmm)|[Hnorm|Hsub]].
  - (* exact *)
    subst e m. rewrite (Hexact Hl). split.
    + replace (IZR mx * bpow ex - IZR mx * bpow ex)%R with 0%R by ring.
      rewrite Rabs_R0.
      apply Rplus_le_le_0_compat; [apply Rmult_le_pos|]; try lra.
      apply Rmult_le_pos; [apply IZR_le; lia|lra].
    + intros H1. left. rewrite <- (Rmult_1_l (bpow ex)) at 1.
      apply Rmult_le_compat_r; [lra|]. apply IZR_le. lia.
  - (* a full mantissa *)
    assert (H4 : (bpow (prec - 2) * bpow e <= x)%R).
    { apply Rle_trans with ((IZR m - 1) * bpow e)%R; [|exact Hlo].
      apply Rmult_le_compat_r; [lra|].
      rewrite <- bpow_IZR by lia. rewrite <- minus_IZR. apply IZR_le.
      replace (prec - 1) with (1 + (prec - 2)) in Hnorm by ring.
      rewrite Z.pow_add_r in Hnorm by lia. change (2 ^ 1) with 2 in Hnorm.
      assert (0 < 2 ^ (prec - 2)) by (apply Z.pow_pos_nonneg; lia). lia. }
    assert (H5 : (2 * bpow e <= bpow (3 - prec) * x)%R).
    { apply Rle_trans with (bpow (3 - prec) * (bpow (prec - 2) * bpow e))%R.
      - rewrite <- Rmult_assoc, <- bpow_add.
        replace (3 - prec + (prec - 2)) with 1 by ring.
        change (bpow 1) with (2 * 1)%R. lra.
      - apply Rmult_le_compat_l; lra. }
    split.
    + apply Rabs_le. lra.
    + intros _. left.
      apply Rle_trans with (bpow (prec - 2) * bpow e)%R; [|exact H4].
      rewrite <- (Rmult_1_l (bpow e)) at 1.
      apply Rmult_le_compat_r; [lra|].
      rewrite <- bpow_0. apply bpow_le. lia.
  - (* the smallest exponent *)
    subst e. split.
    + assert (0 <= bpow (3 - prec) * x)%R by (apply Rmult_le_pos; lra).
      apply Rabs_le. lra.
    + intros _. right. reflexivity.
Qed.

(** Signed value of a rounding result that did not overflow. *)
Lemma F2R_build : forall sx m e,
  0 <= m -> (1 <= m -> e <= emax - prec) ->
  F2R (build sx m e) = ((if sx then -1 else 1) * IZR m * bpow e)%R.
Proof using Hprec Hemax.
  intros sx m e Hm He. unfold build_float.
  destruct m as [|p|p]; [cbn; ring| |lia].
  assert (E : (e <=? emax - prec) = true) by (apply Z.leb_le, He; lia).
  rewrite E. reflexivity.
Qed.

(** A mantissa that already sits at or above its exponent is kept. *)
Lemma binary_round_aux_exact : forall sx mx ex,
  0 <= mx -> fexp prec emax (Zdigits2 mx + ex) <= ex ->
  binary_round_aux prec emax sx mx ex loc_Exact = build sx mx ex.
Proof using Hprec Hemax.
  intros sx mx ex Hmx Hf. unfold binary_round_aux.
  destruct (shr_fexp prec emax mx ex loc_Exact) as [mrs1 e1] eqn:E1.
  destruct (shr_fexp_spec _ _ _ _ _ Hmx E1) as [(_ & -> & ->)|(Hn & _)];
    [|lia].
  rewrite round_exact.
  destruct (shr_fexp prec emax mx ex loc_Exact) as [mrs2 e2] eqn:E2.
  inversion E1; subst. reflexivity.
Qed.

(** [binary_round] in the reals. *)
Lemma binary_round_R : forall sx mx ex,
  let x := (IZR (Z.pos mx) * bpow ex)%R in
  exists m e,
    binary_round prec emax sx mx ex = build sx m e
    /\ 0 <= m /\ emin prec emax <= e /\ Zdigits2 m <= prec
    /\ (Rabs (IZR m * bpow e - x) <= rel_err * x + abs_err)%R
    /\ (1 <= m -> (bpow e <= x)%R \/ e = emin prec emax)
    /\ (Zdigits2 (Z.pos mx) <= prec ->
        emin prec emax <= Zdigits2 (Z.pos mx) + ex - prec ->
        m = Z.pos mx * 2 ^ (prec - Zdigits2 (Z.pos mx))
        /\ e = ex - (prec - Zdigits2 (Z.pos mx))).
Proof using Hprec Hemax.
  intros sx mx ex x. unfold binary_round.
  destruct (shl_align mx ex (fexp prec emax (Z.pos (digits2_pos mx) + ex)))
    as [mz ez] eqn:Es.
  destruct (shl_align_spec _ _ _ _ _ Es) as (Hle & Hmz & Hdown & Hup).
  assert (Hval : (IZR (Z.pos mz) * bpow ez)%R = x).
  { subst x. rewrite Hmz, mult_IZR, bpow_IZR by lia.
    rewrite Rmult_assoc, <- bpow_add. do 2 f_equal. ring. }
  assert (Hx0 : (0 < x)%R).
  { subst x. apply Rmult_lt_0_compat; [apply IZR_lt; lia|apply bpow_pos]. }
  change (Z.pos (digits2_pos mx)) with (Zdigits2 (Z.pos mx)) in *.
  set (d := Zdigits2 (Z.pos mx)) in *.
  destruct (Z_le_gt_dec d prec) as [Hshort|Hlong];
    [destruct (Z_le_gt_dec (emin prec emax) (d + ex - prec))
       as [Hnormal|Hsub]|].
  - (* the mantissa is shifted to full length and kept *)
    assert (Hf : fexp prec emax (d + ex) = d + ex - prec)
      by (unfold fexp; lia).
    rewrite Hf in Hdown, Hup.
    assert (Hez : ez = d + ex - prec) by (apply Hdown; lia).
    assert (Hdz : Zdigits2 (Z.pos mz) = prec).
    { rewrite Hmz, Zdigits2_mul_pow2 by lia. fold d. lia. }
    rewrite binary_round_aux_exact;
      [|lia|rewrite Hdz; unfold fexp; lia].
    exists (Z.pos mz), ez.
    split; [reflexivity|]. split; [lia|]. split; [lia|]. split; [lia|].
    split; [|split].
    + rewrite Hval. replace (x - x)%R with 0%R by ring. rewrite Rabs_R0.
      pose proof (bpow_pos (3 - prec)). pose proof (bpow_pos (emin prec emax)).
      unfold rel_error, abs_error.
      assert (0 <= bpow (3 - prec) * x)%R by (apply Rmult_le_pos; lra). lra.
    + intros _. left. rewrite <- Hval.
      rewrite <- (Rmult_1_l (bpow ez)) at 1.
      apply Rmult_le_compat_r; [apply Rlt_le, bpow_pos|apply IZR_le; lia].
    + intros _ _. split; [|lia].
      rewrite Hmz. do 2 f_equal. lia.
  - destruct (binary_round_aux_R sx (Z.pos mz) ez loc_Exact x)
      as (m & e & Hb & Hm & Hemin & Hd & Herr & Hbig);
      [lia|left; reflexivity|rewrite Hval; pose proof (bpow_pos ez); lra
      |intros _; symmetry; exact Hval|].
    exists m, e. repeat (split; [assumption|]). intros; lia.
  - destruct (binary_round_aux_R sx (Z.pos mz) ez loc_Exact x)
      as (m & e & Hb & Hm & Hemin & Hd & Herr & Hbig);
      [lia|left; reflexivity|rewrite Hval; pose proof (bpow_pos ez); lra
      |intros _; symmetry; exact Hval|].
    exists m, e. repeat (split; [assumption|]). intros; lia.
Qed.

Lemma emin_le_top : emin prec emax <= emax - prec.
Proof using Hprec Hemax. unfold emin. lia. Qed.

Lemma build_approx : forall sx y (x : Rdefinitions.R),
  (exists m e,
      y = build sx m e
      /\ 0 <= m /\ emin prec emax <= e /\ Zdigits2 m <= prec
      /\ (Rabs (IZR m * bpow e - x) <= rel_err * x + abs_err)%R
      /\ (1 <= m -> (bpow e <= x)%R \/ e = emin prec emax)) ->
  (x < bpow (emax - prec + 1))%R ->
  approx sx y x.
Proof using Hprec Hemax.
  intros sx y x (m & e & -> & Hm & Hemin & Hd & Herr & Hbig) Hx.
  assert (He : 1 <= m -> e <= emax - prec).
  { intros H1. destruct (Hbig H1) as [Hb| ->]; [|apply emin_le_top].
    assert (e < emax - prec + 1) by (apply bpow_lt_inv; lra). lia. }
  split.
  - unfold build_float. destruct m as [|p|p]; [left; reflexivity| |lia].
    right. assert (E : (e <=? emax - prec) = true) by (apply Z.leb_le, He; lia).
    rewrite E. exists p, e. repeat split; try assumption. apply He. lia.
  - rewrite F2R_build by assumption.
    replace ((if sx then -1 else 1) * IZR m * bpow e - sgnR sx * x)%R
      with (sgnR sx * (IZR m * bpow e - x))%R by (unfold sgnR; ring).
    rewrite Rabs_mult.
    replace (Rabs (sgnR sx)) with 1%R; [lra|].
    unfold sgnR. destruct sx; [rewrite Rabs_left|rewrite Rabs_right]; lra.
Qed.

Lemma shaped_F2R_nonneg : forall y, shaped false y -> (0 <= F2R y)%R.
Proof using Hprec Hemax.
  intros y [->|(p & e & -> & _)]; cbn; [lra|].
  assert (0 < IZR (Z.pos p))%R by (apply IZR_lt; lia).
  pose proof (bpow_pos e).
  replace (1 * IZR (Z.pos p) * bpow e)%R with (IZR (Z.pos p) * bpow e)%R by ring.
  apply Rmult_le_pos; lra.
Qed.


(** *** Squares *)
Lemma SFmul_square : forall x,
  is_finite x = true ->
  (F2R x * F2R x < bpow (emax - prec + 1))%R ->
  approx false (SFmul prec emax x x) (F2R x * F2R x).
Proof using Hprec Hemax.
  intros [s|s| |s m e] Hf Hx; try discriminate.
  - cbn [SFmul F2R]. replace (xorb s s) with false by (destruct s; reflexivity).
    split; [left; reflexivity|]. cbn [F2R].
    replace (0 - sgnR false * (0 * 0))%R with 0%R by (unfold sgnR; ring).
    rewrite Rabs_R0. unfold rel_error, abs_error.
    pose proof (bpow_pos (3 - prec)). pose proof (bpow_pos (emin prec emax)).
    lra.
  - cbn [SFmul]. replace (xorb s s) with false by (destruct s; reflexivity).
    assert (Hsq : (F2R (S754_finite s m e) * F2R (S754_finite s m e))%R
                  = (IZR (Z.pos (m * m)) * bpow (e + e))%R).
    { cbn [F2R]. rewrite Pos2Z.inj_mul, mult_IZR, bpow_add.
      destruct s; ring. }
    rewrite Hsq in *.
    apply build_approx; [|exact Hx].
    apply binary_round_aux_R; [lia|left; reflexivity| |reflexivity].
    pose proof (bpow_pos (e + e)). lra.
Qed.

(** *** Sums of numbers that are not negative *)
Lemma SFadd_nonneg : forall x y,
  shaped false x -> shaped false y ->
  (F2R x + F2R y < bpow (emax - prec + 1))%R ->
  approx false (SFadd prec emax x y) (F2R x + F2R y).
Proof using Hprec Hemax.
  intros x y Hx Hy Hlt.
  assert (Hexact : forall z, shaped false z -> approx false z (F2R z)).
  { intros z Hz. split; [exact Hz|].
    replace (F2R z - sgnR false * F2R z)%R with 0%R by (unfold sgnR; ring).
    rewrite Rabs_R0. pose proof (shaped_F2R_nonneg z Hz).
    unfold rel_error, abs_error.
    pose proof (bpow_pos (3 - prec)). pose proof (bpow_pos (emin prec emax)).
    assert (0 <= bpow (3 - prec) * F2R z)%R by (apply Rmult_le_pos; lra). lra. }
  destruct Hx as [->|(px & ex & -> & Hex & Hdx)];
    destruct Hy as [->|(py & ey & -> & Hey & Hdy)].
  - cbn [SFadd F2R]. rewrite Rplus_0_r.
    apply (Hexact (S754_zero false)). left. reflexivity.
  - cbn [SFadd].
    change (F2R (S754_zero false)) with 0%R. rewrite Rplus_0_l. apply Hexact.
    right. exists py, ey. repeat split; try assumption; lia.
  - cbn [SFadd].
    change (F2R (S754_zero false)) with 0%R. rewrite Rplus_0_r. apply Hexact.
    right. exists px, ex. repeat split; try assumption; lia.
  - cbn [SFadd cond_Zopp].
    destruct (shl_align px ex (Z.min ex ey)) as [mx' ex'] eqn:Ex.
    destruct (shl_align py ey (Z.min ex ey)) as [my' ey'] eqn:Ey.
    destruct (shl_align_spec _ _ _ _ _ Ex) as (_ & Hmx & Hdx' & _).
    destruct (shl_align_spec _ _ _ _ _ Ey) as (_ & Hmy & Hdy' & _).
    cbn [fst].
    assert (Hex' : ex' = Z.min ex ey) by (apply Hdx'; lia).
    assert (Hey' : ey' = Z.min ex ey) by (apply Hdy'; lia).
    set (ez := Z.min ex ey) in *.
    change (Z.pos mx' + Z.pos my') with (Z.pos (mx' + my')).
    cbn [binary_normalize].
    assert (Hsum : (F2R (S754_finite false px ex) + F2R (S754_finite false py ey))%R
                   = (IZR (Z.pos (mx' + my')) * bpow ez)%R).
    { cbn [F2R]. rewrite Pos2Z.inj_add, plus_IZR, Hmx, Hmy, !mult_IZR.
      rewrite !bpow_IZR by lia. rewrite Hex', Hey'.
      rewrite Rmult_plus_distr_r, !Rmult_assoc, <- !bpow_add.
      replace (ex - ez + ez) with ex by ring.
      replace (ey - ez + ez) with ey by ring. ring. }
    rewrite Hsum in *.
    apply build_approx; [|exact Hlt].
    destruct (binary_round_R false (mx' + my') ez)
      as (m & e & Hb & Hm & Hemin & Hd & Herr & Hbig & _).
    exists m, e. repeat split; assumption.
Qed.

Lemma SFsqrt_R : forall mx ex,
  (sqrt (F2R (S754_finite false mx ex)) < bpow (emax - prec + 1))%R ->
  approx false (SFsqrt prec emax (S754_finite false mx ex))
    (sqrt (F2R (S754_finite false mx ex))).
Proof using Hprec Hemax.
  intros mx ex Hlt. cbn [SFsqrt]. unfold SFsqrt_core_binary.
  set (d := Zdigits2 (Z.pos mx)).
  set (e' := Z.min (fexp prec emax (Z.div2 (d + ex + 1))) (Z.div2 ex)).
  set (s := ex - 2 * e').
  assert (Hdiv2 : forall z, 2 * Z.div2 z <= z /\ z <= 2 * Z.div2 z + 1).
  { intros z. rewrite Z.div2_div.
    pose proof (Z.mul_div_le z 2 ltac:(lia)).
    pose proof (Z.mul_succ_div_gt z 2 ltac:(lia)). lia. }
  assert (Hs : 0 <= s) by (subst s e'; pose proof (Hdiv2 ex); lia).
  set (m' := match s with
             | 0 => Z.pos mx
             | Z.pos _ => Z.shiftl (Z.pos mx) s
             | Z.neg _ => 0
             end).
  assert (Hm' : m' = Z.pos mx * 2 ^ s).
  { subst m'. destruct s as [|n|n] eqn:Es; [cbn; lia| |lia].
    rewrite Z.shiftl_mul_pow2 by lia. reflexivity. }
  assert (Hm'pos : 0 < m').
  { rewrite Hm'. assert (0 < 2 ^ s) by (apply Z.pow_pos_nonneg; lia). nia. }
  pose proof (Z.sqrtrem_spec m' ltac:(lia)) as Hsq.
  destruct (Z.sqrtrem m') as [qz r]. destruct Hsq as [Hsq Hr].
  assert (Hq0 : 0 <= qz) by nia.
  (* the exact root *)
  assert (Hval : sqrt (F2R (S754_finite false mx ex))
                 = (sqrt (IZR m') * bpow e')%R).
  { cbn [F2R]. rewrite <- (sqrt_bpow e').
    rewrite <- sqrt_mult_alt by (apply IZR_le; lia).
    f_equal. rewrite Hm', mult_IZR, bpow_IZR by lia.
    replace ex with (s + 2 * e') at 1 by (subst s; ring).
    rewrite bpow_add. ring. }
  assert (Hqlo : (IZR qz <= sqrt (IZR m'))%R).
  { rewrite <- (sqrt_square (IZR qz)) by (apply IZR_le; lia).
    apply sqrt_le_1_alt. rewrite <- mult_IZR. apply IZR_le. lia. }
  assert (Hqhi : (sqrt (IZR m') < IZR qz + 1)%R).
  { rewrite <- (sqrt_square (IZR qz + 1))
      by (assert (0 <= IZR qz)%R by (apply IZR_le; lia); lra).
    apply sqrt_lt_1_alt. split; [apply IZR_le; lia|].
    rewrite <- plus_IZR, <- mult_IZR. apply IZR_lt. lia. }
  rewrite Hval in *. pose proof (bpow_pos e') as Hpe.
  apply build_approx; [|exact Hlt].
  apply binary_round_aux_R.
  - exact Hq0.
  - destruct (Z.eqb_spec r 0) as [Hr0|Hr0]; [left; reflexivity|].
    right.
    destruct (Z_le_gt_dec e' (emin prec emax)) as [Hsub|Hnorm];
      [right; exact Hsub|left].
    assert (Hf : e' <= Z.div2 (d + ex + 1) - prec)
      by (subst e'; unfold fexp in *; lia).
    assert (Hs' : 2 * prec - d - 1 <= s)
      by (subst s; pose proof (Hdiv2 (d + ex + 1)); lia).
    pose proof (Zdigits2_bounds (Z.pos mx) eq_refl) as [Hlo _]. fold d in Hlo.
    assert (Hd1 : 1 <= d) by (subst d; cbn; lia).
    assert (Hbig : 2 ^ (2 * prec - 2) <= m').
    { rewrite Hm'. apply Z.le_trans with (2 ^ (d - 1) * 2 ^ s).
      - rewrite <- Z.pow_add_r by lia. apply Z.pow_le_mono_r; lia.
      - apply Z.mul_le_mono_nonneg_r; [apply Z.pow_nonneg; lia|exact Hlo]. }
    assert (Hq : 2 ^ (prec - 1) <= qz).
    { destruct (Z_le_gt_dec (2 ^ (prec - 1)) qz) as [H|H]; [exact H|exfalso].
      assert (H2 : (qz + 1) * (qz + 1) <= 2 ^ (prec - 1) * 2 ^ (prec - 1))
        by (apply Z.mul_le_mono_nonneg; lia).
      rewrite <- Z.pow_add_r in H2 by lia.
      replace (prec - 1 + (prec - 1)) with (2 * prec - 2) in H2 by ring. lia. }
    pose proof (Zdigits2_ge qz (prec - 1) ltac:(lia) Hq). lia.
  - split.
    + apply Rmult_le_compat_r; lra.
    + apply Rmult_lt_compat_r; lra.
  - destruct (Z.eqb_spec r 0) as [Hr0|Hr0]; [|discriminate].
    intros _. f_equal. replace m' with (qz * qz) by lia.
    rewrite mult_IZR. apply sqrt_square, IZR_le, Hq0.
Qed.

Lemma SFdiv_R : forall sx mx ex my ey,
  let x := F2R (S754_finite false mx ex) in
  let y := F2R (S754_finite false my ey) in
  (x / y < bpow (emax - prec + 1))%R ->
  approx sx (SFdiv prec emax (S754_finite sx mx ex) (S754_finite false my ey))
    (x / y).
Proof using Hprec Hemax.
  intros sx mx ex my ey x y Hlt. cbn [SFdiv]. unfold SFdiv_core_binary.
  set (d1 := Zdigits2 (Z.pos mx)). set (d2 := Zdigits2 (Z.pos my)).
  set (e' := Z.min (fexp prec emax (d1 + ex - (d2 + ey))) (ex - ey)).
  set (s := ex - ey - e').
  assert (Hs : 0 <= s) by (subst s e'; lia).
  set (m' := match s with
             | 0 => Z.pos mx
             | Z.pos _ => Z.shiftl (Z.pos mx) s
             | Z.neg _ => 0
             end).
  assert (Hm' : m' = Z.pos mx * 2 ^ s).
  { subst m'. destruct s as [|n|n] eqn:Es; [cbn; lia| |lia].
    rewrite Z.shiftl_mul_pow2 by lia. reflexivity. }
  assert (H2s : 0 < 2 ^ s) by (apply Z.pow_pos_nonneg; lia).
  pose proof (Z_div_mod m' (Z.pos my) eq_refl) as Hdm.
  destruct (Z.div_eucl m' (Z.pos my)) as [qz r]. destruct Hdm as [Hdm Hr].
  assert (Hq0 : 0 <= qz) by nia.
  assert (Hmy : (0 < IZR (Z.pos my))%R) by (apply IZR_lt; lia).
  pose proof (bpow_pos e') as Hpe. pose proof (bpow_pos ey) as Hpey.
  assert (Hval : (x / y)%R = (IZR m' / IZR (Z.pos my) * bpow e')%R).
  { subst x y. cbn [F2R]. rewrite Hm', mult_IZR, bpow_IZR by lia.
    replace ex with (s + e' + ey) at 1 by (subst s; ring).
    rewrite !bpow_add. field. split; lra. }
  rewrite Hval in *. cbn [xorb]. rewrite xorb_false_r.
  apply build_approx; [|exact Hlt].
  assert (HqR : (IZR qz <= IZR m' / IZR (Z.pos my) < IZR qz + 1)%R).
  { rewrite Hdm, plus_IZR, mult_IZR.
    assert (0 <= IZR r < IZR (Z.pos my))%R
      by (split; [apply IZR_le|apply IZR_lt]; lia).
    split.
    - apply Rmult_le_reg_r with (IZR (Z.pos my)); [exact Hmy|].
      unfold Rdiv. rewrite Rmult_assoc, Rinv_l by lra. lra.
    - apply Rmult_lt_reg_r with (IZR (Z.pos my)); [exact Hmy|].
      unfold Rdiv. rewrite Rmult_assoc, Rinv_l by lra. lra. }
  apply binary_round_aux_R.
  - exact Hq0.
  - right.
    destruct (Z_le_gt_dec e' (emin prec emax)) as [Hsub|Hnorm];
      [right; exact Hsub|left].
    assert (Hf : e' <= d1 + ex - (d2 + ey) - prec)
      by (subst e'; unfold fexp in *; lia).
    assert (Hs' : prec - d1 + d2 <= s) by (subst s; lia).
    pose proof (Zdigits2_bounds (Z.pos mx) eq_refl) as [Hlo1 _]. fold d1 in Hlo1.
    pose proof (Zdigits2_bounds (Z.pos my) eq_refl) as [_ Hhi2]. fold d2 in Hhi2.
    assert (Hd1 : 1 <= d1) by (subst d1; cbn; lia).
    assert (Hd2 : 1 <= d2) by (subst d2; cbn; lia).
    assert (Hbig : 2 ^ (prec + d2 - 1) <= m').
    { rewrite Hm'. apply Z.le_trans with (2 ^ (d1 - 1) * 2 ^ s).
      - rewrite <- Z.pow_add_r by lia. apply Z.pow_le_mono_r; lia.
      - apply Z.mul_le_mono_nonneg_r; [lia|exact Hlo1]. }
    assert (Hq : 2 ^ (prec - 1) <= qz).
    { destruct (Z_le_gt_dec (2 ^ (prec - 1)) qz) as [H|H]; [exact H|exfalso].
      assert (H2 : Z.pos my * (qz + 1) <= 2 ^ d2 * 2 ^ (prec - 1))
        by (apply Z.mul_le_mono_nonneg; lia).
      rewrite <- Z.pow_add_r in H2 by lia.
      replace (d2 + (prec - 1)) with (prec + d2 - 1) in H2 by ring. lia. }
    pose proof (Zdigits2_ge qz (prec - 1) ltac:(lia) Hq). lia.
  - destruct HqR. split.
    + apply Rmult_le_compat_r; lra.
    + apply Rmult_lt_compat_r; lra.
  - intros Hl. apply new_location_exact in Hl. subst r.
    f_equal. rewrite Hdm, Z.add_0_r, mult_IZR. field. lra.
Qed.
End Rounding.

(** ** Rounding never turns a normal positive number into zero *)

(** The first step of rounding on a positive mantissa that is not below the
    normal range: the mantissa stays positive, the exponent does not
    decrease, and the magnitude (digits plus exponent) is kept. *)
Lemma shr_fexp_pos : forall m e l mrs e',
  0 < m -> -125 <= Zdigits2 m + e ->
  shr_fexp 24 128 m e l = (mrs, e') ->
  0 < shr_m mrs /\ e <= e' /\ Zdigits2 (shr_m mrs) + e' = Zdigits2 m + e.
Proof.
  intros m e l mrs e' Hm Hd. unfold shr_fexp, fexp, emin.
  rewrite Z.max_l by lia.
  replace (Zdigits2 m + e - 24 - e) with (Zdigits2 m - 24) by ring.
  assert (Hrec : shr_m (shr_record_of_loc m l) = m)
    by (destruct l as [|[| |]]; reflexivity).
  unfold shr. destruct (Zdigits2 m - 24) as [|n|n] eqn:En;
    intros H; inversion H; subst; clear H; rewrite ?Hrec.
  - repeat split; lia.
  - rewrite iter_shr_1_m by (rewrite Hrec; lia). rewrite Hrec.
    rewrite Zdigits2_log2 in En by exact Hm.
    assert (Hn : Z.pos n <= Z.log2 m) by lia.
    assert (Hpow : 2 ^ Z.pos n <= m).
    { apply Z.le_trans with (2 ^ Z.log2 m).
      - apply Z.pow_le_mono_r; lia.
      - apply Z.log2_spec, Hm. }
    assert (Hq : 0 < m / 2 ^ Z.pos n)
      by (apply Z.div_str_pos; split; [apply Z.pow_pos_nonneg; lia|exact Hpow]).
    split; [exact Hq|]. split; [lia|].
    rewrite !Zdigits2_log2 by assumption.
    rewrite <- Z.shiftr_div_pow2 by lia.
    rewrite Z.log2_shiftr by exact Hm. lia.
  - repeat split; lia.
Qed.

Lemma round_nearest_even_ge : forall m l,
  0 < m -> m <= round_nearest_even m l <= m + 1.
Proof.
  intros m l H. unfold round_nearest_even.
  destruct l as [|[| |]]; try lia. destruct (Z.even m); lia.
Qed.

(** Rounding a positive number that is not below the normal range gives a
    positive finite number, with an exponent at least the one given, or
    overflows to plus infinity. *)
Lemma binary_round_aux_pos : forall mx ex lx,
  0 < mx -> -125 <= Zdigits2 mx + ex ->
  (exists m e, binary_round_aux 24 128 false mx ex lx = S754_finite false m e
               /\ ex <= e)
  \/ binary_round_aux 24 128 false mx ex lx = S754_infinity false.
Proof.
  intros mx ex lx Hm Hd. unfold binary_round_aux.
  destruct (shr_fexp 24 128 mx ex lx) as [mrs1 e1] eqn:E1.
  destruct (shr_fexp_pos _ _ _ _ _ Hm Hd E1) as (P1 & Q1 & D1).
  pose proof (round_nearest_even_ge (shr_m mrs1) (loc_of_shr_record mrs1) P1)
    as Hr.
  set (m2 := round_nearest_even (shr_m mrs1) (loc_of_shr_record mrs1)) in *.
  assert (Hm2 : 0 < m2) by lia.
  assert (Hd2 : -125 <= Zdigits2 m2 + e1).
  { pose proof (Zdigits2_mono (shr_m mrs1) m2 (Z.lt_le_incl _ _ P1) (proj1 Hr)).
    lia. }
  destruct (shr_fexp 24 128 m2 e1 loc_Exact) as [mrs2 e2] eqn:E2.
  destruct (shr_fexp_pos _ _ _ _ _ Hm2 Hd2 E2) as (P2 & Q2 & _).
  destruct (shr_m mrs2) as [|m|m]; try lia.
  destruct (e2 <=? 128 - 24).
  - left. exists m, e2. split; [reflexivity|lia].
  - right. reflexivity.
Qed.

Lemma Zdigits2_pos : forall m, 0 < m -> 1 <= Zdigits2 m.
Proof.
  intros m H. rewrite Zdigits2_log2 by exact H.
  pose proof (Z.log2_nonneg m). lia.
Qed.

(** A positive integer converts to a positive float (or overflows). *)
Lemma of_Z_pos : forall d, 0 < d ->
  (exists m e, F32.of_Z d = S754_finite false m e /\ -23 <= e)
  \/ F32.of_Z d = S754_infinity false.
Proof.
  intros [|p|p] H; try lia.
  unfold F32.of_Z, F32.prec, F32.emax, binary_normalize, binary_round.
  pose proof (Zdigits2_pos (Z.pos p) H) as Hp. cbn [Zdigits2] in Hp.
  unfold fexp, emin. rewrite Z.add_0_r, Z.max_l by lia.
  unfold shl_align. rewrite Z.sub_0_r.
  destruct (Z.pos (digits2_pos p) - 24) as [|n|n] eqn:En.
  - destruct (binary_round_aux_pos (Z.pos p) 0 loc_Exact) as [(m & e & -> & He) | ->];
      [lia|cbn [Zdigits2]; lia| |right; reflexivity].
    left. exists m, e. split; [reflexivity|lia].
  - destruct (binary_round_aux_pos (Z.pos p) 0 loc_Exact) as [(m & e & -> & He) | ->];
      [lia|cbn [Zdigits2]; lia| |right; reflexivity].
    left. exists m, e. split; [reflexivity|lia].
  - destruct (binary_round_aux_pos (Z.pos (Pos.iter xO p n)) (Z.neg n) loc_Exact)
      as [(m & e & -> & He) | ->];
      [lia| | |right; reflexivity].
    + pose proof (Zdigits2_pos (Z.pos (Pos.iter xO p n))). lia.
    + left. exists m, e. split; [reflexivity|lia].
Qed.

Lemma literal_1000 : literal_f 1000 1 = S754_finite false 16384000 (-14).
Proof. vm_compute. reflexivity. Qed.

Lemma ltb_zero_finite : forall m e,
  F32.ltb F32.zero (S754_finite false m e) = true.
Proof. reflexivity. Qed.

(** Dividing a positive float by 1000 gives a positive float. *)
Lemma div_1000_pos : forall m1 e1,
  -23 <= e1 ->
  F32.ltb F32.zero (F32.div (S754_finite false m1 e1) (literal_f 1000 1)) = true.
Proof.
  intros m1 e1 He. rewrite literal_1000.
  unfold F32.div, F32.prec, F32.emax, SFdiv, SFdiv_core_binary.
  change (Zdigits2 (Z.pos 16384000)) with 24.
  pose proof (Zdigits2_pos (Z.pos m1) eq_refl) as Hd1.
  pose proof (Zdigits2_log2 (Z.pos m1) eq_refl) as Hlog.
  pose proof (Z.log2_spec (Z.pos m1) eq_refl) as [Hlo _].
  set (d1 := Zdigits2 (Z.pos m1)) in *.
  unfold fexp, emin. rewrite (Z.max_l (d1 + e1 - (24 + -14) - 24)) by lia.
  set (e' := Z.min (d1 + e1 - (24 + -14) - 24) (e1 - -14)).
  set (s := e1 - -14 - e').
  assert (Hs : 0 <= s /\ 47 - Z.log2 (Z.pos m1) <= s) by (subst s e'; lia).
  set (m' := match s with
             | 0 => Z.pos m1
             | Z.pos _ => Z.shiftl (Z.pos m1) s
             | Z.neg _ => 0
             end).
  assert (Hm' : m' = Z.pos m1 * 2 ^ s).
  { subst m'. destruct s as [|n|n] eqn:Es; [cbn; lia| |lia].
    rewrite Z.shiftl_mul_pow2 by lia. reflexivity. }
  assert (Hbig : 2 ^ 47 <= m').
  { rewrite Hm'. apply Z.le_trans with (2 ^ Z.log2 (Z.pos m1) * 2 ^ s).
    - rewrite <- Z.pow_add_r by (try apply Z.log2_nonneg; lia).
      apply Z.pow_le_mono_r; lia.
    - apply Z.mul_le_mono_nonneg_r; [apply Z.pow_nonneg; lia|exact Hlo]. }
  destruct (Z.div_eucl m' 16384000) as [qz r] eqn:Eq.
  assert (Hq : qz = m' / 16384000) by (unfold Z.div; rewrite Eq; reflexivity).
  assert (Hqbig : 2 ^ 23 <= qz).
  { rewrite Hq. apply Z.le_trans with (2 ^ 47 / 16384000).
    - vm_compute. discriminate.
    - apply Z.div_le_mono; [lia|exact Hbig]. }
  assert (Hqpos : 0 < qz) by (pose proof (Z.pow_pos_nonneg 2 23); lia).
  assert (Hdq : 24 <= Zdigits2 qz).
  { rewrite Zdigits2_log2 by exact Hqpos.
    pose proof (Z.log2_le_mono _ _ Hqbig) as Hl.
    rewrite Z.log2_pow2 in Hl by lia. lia. }
  destruct (binary_round_aux_pos qz e' (new_location 16384000 r))
    as [(m & e & E & _)|E];
    [exact Hqpos|subst e'; lia| |]; cbn [xorb]; rewrite E; reflexivity.
Qed.

(** C7: with a 32-bit tick counter and one tick per millisecond, the time
    step [dT] used by the filter update is 0.001 when the tick count equals
    the one of the previous call, and is strictly positive for every pair of
    tick counts, so it is never a zero and the division of the proportional
    correction by [dT] never divides by zero. *)
Theorem time_step_positive : forall t last,
  portMAX_DELAY = 4294967295 -> portTICK_RATE_MS = 1 ->
  0 <= t < 2 ^ 32 -> 0 <= last < 2 ^ 32 ->
  (t = last -> time_step t last = F32.of_double (F64.literal 1 1000))
  /\ F32.ltb F32.zero (time_step t last) = true
  /\ (forall b, time_step t last <> S754_zero b).
Proof.
  intros t last HM HR Ht Hl.
  assert (Hpos : F32.ltb F32.zero (time_step t last) = true).
  { unfold time_step. destruct (Z.eqb_spec t last) as [E|E].
    - vm_compute. reflexivity.
    - rewrite HM, HR, Z.div_1_r.
      change 4294967295 with (Z.ones 32). rewrite Z.land_comm, Z.land_ones by lia.
      unfold wrap_u32. rewrite Z.mod_mod by lia.
      assert (Hn : 0 < (t - last) mod 2 ^ 32).
      { assert (Hne : (t - last) mod 2 ^ 32 <> 0).
        { intros H0. apply Z.mod_divide in H0; [|lia].
          destruct H0 as [c Hc]. assert (c = 0) by nia. lia. }
        pose proof (Z.mod_pos_bound (t - last) (2 ^ 32)). lia. }
      destruct (of_Z_pos _ Hn) as [(m & e & -> & He) | ->].
      + apply div_1000_pos, He.
      + rewrite literal_1000. reflexivity. }
  split; [|split; [exact Hpos|]].
  - intros ->. unfold time_step. rewrite Z.eqb_refl. reflexivity.
  - intros b Hb. rewrite Hb in Hpos. destruct b; discriminate.
Qed.

(** ** Single and double precision *)

Local Abbreviation approx32 := (approximates 24 128).
Local Abbreviation shaped32 := (shaped_as 24 128).
Local Abbreviation approx64 := (approximates 53 1024).
Local Abbreviation shaped64 := (shaped_as 53 1024).

Lemma F32_square : forall x,
  is_finite x = true ->
  (F2R x * F2R x < bpow 105)%R ->
  approx32 false (F32.mul x x) (F2R x * F2R x).
Proof.
  intros x Hf Hlt. apply (SFmul_square 24 128); [lia|lia|exact Hf|exact Hlt].
Qed.

Lemma F32_add_nonneg : forall x y,
  shaped32 false x -> shaped32 false y ->
  (F2R x + F2R y < bpow 105)%R ->
  approx32 false (F32.add x y) (F2R x + F2R y).
Proof.
  intros x y Hx Hy Hlt. apply (SFadd_nonneg 24 128); try lia; assumption.
Qed.

Lemma approx_exact : forall prec emax s y,
  2 <= prec ->
  shaped_as prec emax s y -> approximates prec emax s y (Rabs (F2R y)).
Proof.
  intros prec emax s y Hp Hy. split; [exact Hy|].
  assert (E : F2R y = (sgnR s * Rabs (F2R y))%R).
  { destruct Hy as [->|(p & e & -> & _)]; cbn [F2R].
    - rewrite Rabs_R0. ring.
    - assert (0 < IZR (Z.pos p) * bpow e)%R
        by (apply Rmult_lt_0_compat; [apply IZR_lt; lia|apply bpow_pos]).
      destruct s; unfold sgnR.
      + replace (-1 * IZR (Z.pos p) * bpow e)%R
          with (- (IZR (Z.pos p) * bpow e))%R by ring.
        rewrite Rabs_Ropp, Rabs_pos_eq by lra. ring.
      + replace (1 * IZR (Z.pos p) * bpow e)%R
          with (IZR (Z.pos p) * bpow e)%R by ring.
        rewrite Rabs_pos_eq by lra. ring. }
  rewrite <- E. replace (F2R y - F2R y)%R with 0%R by ring. rewrite Rabs_R0.
  unfold rel_error, abs_error.
  pose proof (bpow_pos (3 - prec)). pose proof (bpow_pos (emin prec emax)).
  pose proof (Rabs_pos (F2R y)).
  assert (0 <= bpow (3 - prec) * Rabs (F2R y))%R by (apply Rmult_le_pos; lra).
  lra.
Qed.

(** Promotion of a float is exact, and a finite float becomes a double with
    a full mantissa. *)
Lemma F64_of_float_exact : forall s x,
  shaped32 s x ->
  shaped64 s (F64.of_float x) /\ F2R (F64.of_float x) = F2R x
  /\ (forall p e, x = S754_finite s p e ->
      exists M E, F64.of_float x = S754_finite s M E
                  /\ Zdigits2 (Z.pos M) = 53).
Proof.
  intros s x [->|(p & e & -> & He & Hd)].
  - split; [left; reflexivity|]. split; [reflexivity|]. intros p e H.
    discriminate.
  - unfold F64.of_float, F64.prec, F64.emax.
    assert (Hn : binary_normalize 53 1024 (cond_Zopp s (Z.pos p)) e s
                 = binary_round 53 1024 s p e) by (destruct s; reflexivity).
    rewrite Hn.
    destruct (binary_round_R 53 1024 ltac:(lia) ltac:(lia) s p e)
      as (m & e' & Hb & Hm & Hemin & Hdm & _ & _ & Hex).
    pose proof (Zdigits2_bounds (Z.pos p) eq_refl) as [Hlo Hhi].
    assert (Hd1 : 1 <= Zdigits2 (Z.pos p)) by (cbn; lia).
    unfold emin in *.
    destruct Hex as [Hmv Hev]; [lia|lia|].
    set (k := 53 - Zdigits2 (Z.pos p)) in *.
    assert (Hk : k = 53 - Zdigits2 (Z.pos p)) by reflexivity.
    clearbody k.
    assert (H2k : 0 < 2 ^ k) by (apply Z.pow_pos_nonneg; lia).
    assert (Hmp : 0 < m) by nia.
    destruct m as [|M|M]; try lia.
    rewrite Hb. unfold build_float.
    assert (E : (e' <=? 1024 - 53) = true) by (apply Z.leb_le; lia).
    rewrite E.
    assert (HdM : Zdigits2 (Z.pos M) = 53).
    { rewrite Hmv, Zdigits2_mul_pow2 by lia. lia. }
    split; [|split].
    + right. exists M, e'. repeat split; try reflexivity; unfold emin; lia.
    + cbn [F2R]. rewrite Hmv, mult_IZR, bpow_IZR by lia.
      assert (Eb : bpow e = (bpow k * bpow e')%R)
        by (rewrite <- bpow_add; f_equal; lia).
      rewrite Eb. ring.
    + intros p0 e0 _. exists M, e'. split; [reflexivity|exact HdM].
Qed.

Lemma bpow_lt : forall a b, a < b -> (bpow a < bpow b)%R.
Proof.
  intros a b H. apply Rlt_le_trans with (bpow (a + 1)).
  - rewrite bpow_succ. pose proof (bpow_pos a). lra.
  - apply bpow_le. lia.
Qed.

Lemma F64_sqrt_R : forall x,
  shaped64 false x -> (F2R x < bpow 200)%R ->
  approx64 false (F64.sqrt x) (sqrt (F2R x)).
Proof.
  intros x [->|(p & e & -> & He & Hd)] Hlt.
  - cbn [F64.sqrt SFsqrt F2R]. rewrite sqrt_0.
    pose proof (approx_exact 53 1024 false (S754_zero false) ltac:(lia)
                  (or_introl eq_refl)) as H.
    cbn [F2R] in H. rewrite Rabs_R0 in H. exact H.
  - apply (SFsqrt_R 53 1024); try lia.
    apply Rlt_trans with (bpow 100).
    + rewrite <- (sqrt_bpow 100). apply sqrt_lt_1_alt. split; [|exact Hlt].
      cbn [F2R]. assert (0 < IZR (Z.pos p))%R by (apply IZR_lt; lia).
      pose proof (bpow_pos e).
      replace (1 * IZR (Z.pos p) * bpow e)%R
        with (IZR (Z.pos p) * bpow e)%R by ring.
      apply Rmult_le_pos; lra.
    + apply bpow_lt. lia.
Qed.

(** Conversion of a double that is not negative to a float. *)
Lemma F32_of_double_R : forall r,
  shaped64 false r -> (F2R r < bpow 105)%R ->
  approx32 false (F32.of_double r) (F2R r).
Proof.
  intros r [->|(p & e & -> & He & Hd)] Hlt.
  - cbn [F32.of_double F2R].
    pose proof (approx_exact 24 128 false (S754_zero false) ltac:(lia)
                  (or_introl eq_refl)) as H.
    cbn [F2R] in H. rewrite Rabs_R0 in H. exact H.
  - unfold F32.of_double, F32.prec, F32.emax. cbn [cond_Zopp binary_normalize].
    assert (Hv : F2R (S754_finite false p e) = (IZR (Z.pos p) * bpow e)%R)
      by (cbn [F2R]; ring).
    rewrite Hv in *.
    apply (build_approx 24 128); try lia; [|exact Hlt].
    destruct (binary_round_R 24 128 ltac:(lia) ltac:(lia) false p e)
      as (m & e' & Hb & Hm & Hemin & Hdm & Herr & Hbig & _).
    exists m, e'. repeat split; assumption.
Qed.

(** Quotient of a finite float by a positive one. *)
Lemma F32_div_R : forall x my ey,
  is_finite x = true ->
  let y := F2R (S754_finite false my ey) in
  (Rabs (F2R x) / y < bpow 105)%R ->
  is_finite (F32.div x (S754_finite false my ey)) = true
  /\ (Rabs (F2R (F32.div x (S754_finite false my ey)) - F2R x / y)
      <= rel_error 24 * (Rabs (F2R x) / y) + abs_error 24 128)%R
  /\ ((forall m e, x <> S754_finite true m e) ->
      (0 <= F2R (F32.div x (S754_finite false my ey)))%R).
Proof.
  intros x my ey Hf y Hlt.
  assert (Hy : (0 < y)%R).
  { subst y. cbn [F2R]. assert (0 < IZR (Z.pos my))%R by (apply IZR_lt; lia).
    pose proof (bpow_pos ey).
    replace (1 * IZR (Z.pos my) * bpow ey)%R
      with (IZR (Z.pos my) * bpow ey)%R by ring.
    apply Rmult_lt_0_compat; lra. }
  destruct x as [s|s| |s m e]; try discriminate.
  - cbn [F32.div SFdiv F2R is_finite]. split; [reflexivity|].
    split; [|intros _; lra].
    unfold Rdiv. rewrite Rabs_R0, !Rmult_0_l, Rminus_0_r, Rabs_R0.
    unfold rel_error, abs_error. pose proof (bpow_pos (emin 24 128)). lra.
  - assert (Ha : Rabs (F2R (S754_finite s m e))
                 = F2R (S754_finite false m e)).
    { cbn [F2R]. assert (0 < IZR (Z.pos m) * bpow e)%R
        by (apply Rmult_lt_0_compat; [apply IZR_lt; lia|apply bpow_pos]).
      destruct s.
      - replace (-1 * IZR (Z.pos m) * bpow e)%R
          with (- (IZR (Z.pos m) * bpow e))%R by ring.
        rewrite Rabs_Ropp, Rabs_pos_eq by lra. ring.
      - apply Rabs_pos_eq. lra. }
    rewrite Ha in *.
    destruct (SFdiv_R 24 128 ltac:(lia) ltac:(lia) s m e my ey Hlt)
      as [Hsh Herr].
    change (SFdiv 24 128) with F32.div in Hsh, Herr.
    split; [|split].
    + destruct Hsh as [->|(p & e' & -> & _)]; reflexivity.
    + replace (F2R (S754_finite s m e) / y)%R
        with (sgnR s * (F2R (S754_finite false m e) / y))%R;
        [exact Herr|].
      cbn [F2R]. unfold sgnR. destruct s; field; lra.
    + intros Hne. destruct s; [exfalso; apply (Hne m e); reflexivity|].
      apply (shaped_F2R_nonneg 24 128); [lia|lia|exact Hsh].
Qed.
(** ** Error budget of the renormalisation, over the reals *)

Local Open Scope R_scope.

Lemma Rabs_bound : forall x y, Rabs x <= y -> - y <= x <= y.
Proof. intros x y. unfold Rabs. destruct (Rcase_abs x); lra. Qed.

Lemma square_le : forall a b, 0 <= a -> a <= b -> a * a <= b * b.
Proof. intros a b Ha Hab. apply Rmult_le_compat; lra. Qed.

Lemma le_of_square : forall a b, 0 <= b -> a * a <= b * b -> a <= b.
Proof.
  intros a b Hb H. apply Rsqr_incr_0_var; [exact H|exact Hb].
Qed.

(** Four squares summed from the left, each operation within the error of
    single precision. *)
Lemma sum_of_squares_budget :
  forall a0 a1 a2 a3 p0 p1 p2 p3 s1 s2 s3,
  let e := 1 / 2097152 in
  let t := 1 / 10000000000000000000000000000000000000000 in
  0 <= a0 -> 0 <= a1 -> 0 <= a2 -> 0 <= a3 ->
  Rabs (p0 - a0) <= e * a0 + t ->
  Rabs (p1 - a1) <= e * a1 + t ->
  Rabs (p2 - a2) <= e * a2 + t ->
  Rabs (p3 - a3) <= e * a3 + t ->
  Rabs (s1 - (p0 + p1)) <= e * (p0 + p1) + t ->
  Rabs (s2 - (s1 + p2)) <= e * (s1 + p2) + t ->
  Rabs (s3 - (s2 + p3)) <= e * (s2 + p3) + t ->
  999998 / 1000000 * (a0 + a1 + a2 + a3) - 8 * t <= s3
  /\ s3 <= 1000002 / 1000000 * (a0 + a1 + a2 + a3) + 8 * t.
Proof.
  intros a0 a1 a2 a3 p0 p1 p2 p3 s1 s2 s3 e t A0 A1 A2 A3
    H0 H1 H2 H3 K1 K2 K3.
  apply Rabs_bound in H0, H1, H2, H3, K1, K2, K3.
  subst e t. split; lra.
Qed.

(** The rounded root of the rounded sum, when it is at least 2^-10. *)
Lemma magnitude_budget :
  forall W S rho Q,
  let e := 1 / 2097152 in
  let d := 1 / 1125899906842624 in
  let t := 1 / 10000000000000000000000000000000000000000 in
  0 <= W -> 0 <= S ->
  999998 / 1000000 * W - 8 * t <= S ->
  S <= 1000002 / 1000000 * W + 8 * t ->
  Rabs (rho - sqrt S) <= d * sqrt S + t ->
  Rabs (Q - rho) <= e * rho + t ->
  1 / 1024 <= Q ->
  9999969 / 10000000 * W <= Q * Q /\ Q * Q <= 10000031 / 10000000 * W.
Proof.
  intros W S rho Q e d t HW HS Hlo Hhi Hrho HQ Hmin.
  apply Rabs_bound in Hrho, HQ.
  pose proof (sqrt_pos S) as Hr. pose proof (sqrt_sqrt S HS) as Hrr.
  set (r := sqrt S) in *. subst e d t.
  assert (Hr1 : 1 / 2048 <= r) by lra.
  assert (Hr2 : 1 / 2048 * (1 / 2048) <= r * r)
    by (apply square_le; lra).
  assert (Hk1 : Q <= 100000048 / 100000000 * r) by lra.
  assert (Hk0 : 99999952 / 100000000 * r <= Q) by lra.
  assert (Hq1 : Q * Q <= 100000048 / 100000000 * r
                         * (100000048 / 100000000 * r))
    by (apply square_le; lra).
  assert (Hq0 : 99999952 / 100000000 * r * (99999952 / 100000000 * r)
                <= Q * Q)
    by (apply square_le; lra).
  split; lra.
Qed.

(** One component of the quotient. *)
Lemma component_budget :
  forall z y,
  let e := 1 / 2097152 in
  let t := 1 / 10000000000000000000000000000000000000000 in
  Rabs z <= 1001 / 1000 ->
  Rabs (y - z) <= e * Rabs z + t ->
  99999904 / 100000000 * (z * z) - 3 * t <= y * y
  /\ y * y <= 100000096 / 100000000 * (z * z) + 3 * t.
Proof.
  intros z y e t Hz Hy.
  pose proof (Rabs_pos z) as Hz0. pose proof (Rabs_pos y) as Hy0.
  assert (Hup : Rabs y <= (1 + e) * Rabs z + t).
  { replace y with (z + (y - z)) at 1 by ring.
    pose proof (Rabs_triang z (y - z)). lra. }
  assert (Hlo : (1 - e) * Rabs z - t <= Rabs y).
  { pose proof (Rabs_triang_inv z (z - y)) as H.
    replace (z - (z - y)) with y in H by ring.
    rewrite (Rabs_minus_sym z y) in H. lra. }
  assert (Hyy : y * y = Rabs y * Rabs y).
  { unfold Rabs. destruct (Rcase_abs y); ring. }
  assert (Hzz : z * z = Rabs z * Rabs z).
  { unfold Rabs. destruct (Rcase_abs z); ring. }
  rewrite Hyy, Hzz. set (u := Rabs z) in *. set (v := Rabs y) in *.
  assert (Huu : 0 <= u * u) by (apply Rmult_le_pos; lra).
  subst e t. split.
  - destruct (Rle_or_lt 0 ((1 - 1 / 2097152) * u
        - 1 / 10000000000000000000000000000000000000000)) as [Hp|Hn].
    + assert (H : ((1 - 1 / 2097152) * u
        - 1 / 10000000000000000000000000000000000000000)
        * ((1 - 1 / 2097152) * u
        - 1 / 10000000000000000000000000000000000000000) <= v * v)
        by (apply square_le; lra).
      lra.
    + assert (H0 : 0 <= v * v) by (apply Rmult_le_pos; lra).
      assert (H1 : u * u <= u * 1) by (apply Rmult_le_compat_l; lra).
      lra.
  - assert (H : v * v <= ((1 + 1 / 2097152) * u
        + 1 / 10000000000000000000000000000000000000000)
        * ((1 + 1 / 2097152) * u
        + 1 / 10000000000000000000000000000000000000000))
      by (apply square_le; lra).
    lra.
Qed.

(** The quotient of a vector by a number close to its length has length 1
    within 1e-5. *)
Lemma unit_norm_budget :
  forall x0 x1 x2 x3 Q y0 y1 y2 y3,
  let e := 1 / 2097152 in
  let t := 1 / 10000000000000000000000000000000000000000 in
  let W := x0 * x0 + x1 * x1 + x2 * x2 + x3 * x3 in
  0 < Q ->
  9999969 / 10000000 * W <= Q * Q -> Q * Q <= 10000031 / 10000000 * W ->
  Rabs (y0 - x0 / Q) <= e * Rabs (x0 / Q) + t ->
  Rabs (y1 - x1 / Q) <= e * Rabs (x1 / Q) + t ->
  Rabs (y2 - x2 / Q) <= e * Rabs (x2 / Q) + t ->
  Rabs (y3 - x3 / Q) <= e * Rabs (x3 / Q) + t ->
  Rabs (sqrt (y0 * y0 + y1 * y1 + y2 * y2 + y3 * y3) - 1) <= 1 / 100000.
Proof.
  intros x0 x1 x2 x3 Q y0 y1 y2 y3 e t W HQ Hlo Hhi H0 H1 H2 H3.
  set (z0 := x0 / Q) in *. set (z1 := x1 / Q) in *.
  set (z2 := x2 / Q) in *. set (z3 := x3 / Q) in *.
  assert (E0 : x0 = z0 * Q) by (unfold z0; field; lra).
  assert (E1 : x1 = z1 * Q) by (unfold z1; field; lra).
  assert (E2 : x2 = z2 * Q) by (unfold z2; field; lra).
  assert (E3 : x3 = z3 * Q) by (unfold z3; field; lra).
  clearbody z0 z1 z2 z3.
  set (Z := z0 * z0 + z1 * z1 + z2 * z2 + z3 * z3).
  assert (HW : W = Z * (Q * Q)) by (unfold W, Z; rewrite E0, E1, E2, E3; ring).
  assert (HQQ : 0 < Q * Q) by (apply Rmult_lt_0_compat; lra).
  assert (P0 : 0 <= z0 * z0) by apply Rle_0_sqr.
  assert (P1 : 0 <= z1 * z1) by apply Rle_0_sqr.
  assert (P2 : 0 <= z2 * z2) by apply Rle_0_sqr.
  assert (P3 : 0 <= z3 * z3) by apply Rle_0_sqr.
  assert (HZ1 : Z <= 10000032 / 10000000).
  { apply Rmult_le_reg_r with (Q * Q); [exact HQQ|]. rewrite <- HW.
    lra. }
  assert (HZ0 : 9999968 / 10000000 <= Z).
  { apply Rmult_le_reg_r with (Q * Q); [exact HQQ|]. rewrite <- HW.
    lra. }
  assert (Hb : forall z, z * z <= Z -> Rabs z <= 1001 / 1000).
  { intros z Hz. apply le_of_square; [lra|].
    replace (Rabs z * Rabs z) with (z * z)
      by (unfold Rabs; destruct (Rcase_abs z); ring).
    lra. }
  destruct (component_budget z0 y0 (Hb z0 ltac:(unfold Z; lra)) H0)
    as [L0 U0].
  destruct (component_budget z1 y1 (Hb z1 ltac:(unfold Z; lra)) H1)
    as [L1 U1].
  destruct (component_budget z2 y2 (Hb z2 ltac:(unfold Z; lra)) H2)
    as [L2 U2].
  destruct (component_budget z3 y3 (Hb z3 ltac:(unfold Z; lra)) H3)
    as [L3 U3].
  set (N := y0 * y0 + y1 * y1 + y2 * y2 + y3 * y3).
  assert (HN0 : (1 - 1 / 100000) * (1 - 1 / 100000) <= N)
    by (unfold N, Z in *; lra).
  assert (HN1 : N <= (1 + 1 / 100000) * (1 + 1 / 100000))
    by (unfold N, Z in *; lra).
  apply Rabs_le. split.
  - apply sqrt_le_1_alt in HN0. rewrite sqrt_square in HN0; lra.
  - apply sqrt_le_1_alt in HN1. rewrite sqrt_square in HN1; lra.
Qed.

Local Close Scope R_scope.

Lemma sqrt_le_succ : forall x, (0 <= x -> sqrt x <= 1 + x)%R.
Proof.
  intros x Hx. pose proof (sqrt_pos x) as Hr.
  pose proof (sqrt_sqrt x Hx) as Hrr.
  pose proof (Rle_0_sqr (sqrt x - 1 / 2)) as H. unfold Rsqr in H. lra.
Qed.

(** ** The error bounds of the two formats as numbers *)

Lemma bpow_neg : forall n, 0 <= n -> bpow (- n) = (/ IZR (2 ^ n))%R.
Proof.
  intros n Hn. rewrite bpow_IZR by exact Hn. pose proof (bpow_pos n).
  apply Rmult_eq_reg_r with (bpow n); [|lra].
  rewrite <- bpow_add. replace (- n + n) with 0 by lia.
  rewrite bpow_0, Rinv_l by lra. reflexivity.
Qed.

Lemma rel_error_32 : rel_error 24 = (1 / 2097152)%R.
Proof.
  unfold rel_error. change (3 - 24) with (Z.opp 21). rewrite bpow_neg by lia.
  change (2 ^ 21) with 2097152. lra.
Qed.

Lemma rel_error_64 : rel_error 53 = (1 / 1125899906842624)%R.
Proof.
  unfold rel_error. change (3 - 53) with (Z.opp 50). rewrite bpow_neg by lia.
  change (2 ^ 50) with 1125899906842624. lra.
Qed.

Lemma abs_error_32 :
  (abs_error 24 128 <= 1 / 10000000000000000000000000000000000000000)%R.
Proof.
  unfold abs_error, emin. change (3 - 128 - 24) with (Z.opp 149).
  rewrite bpow_neg by lia.
  change (2 ^ 149) with 713623846352979940529142984724747568191373312.
  lra.
Qed.

Lemma abs_error_64 :
  (abs_error 53 1024 <= 1 / 10000000000000000000000000000000000000000)%R.
Proof.
  apply Rle_trans with (abs_error 24 128); [|apply abs_error_32].
  unfold abs_error, emin.
  pose proof (bpow_le (3 - 1024 - 53) (3 - 128 - 24) ltac:(lia)). lra.
Qed.

Lemma approx32_budget : forall y x,
  approx32 false y x -> (0 <= x)%R ->
  shaped32 false y /\ (0 <= F2R y)%R
  /\ (Rabs (F2R y - x)
      <= 1 / 2097152 * x
         + 1 / 10000000000000000000000000000000000000000)%R.
Proof.
  intros y x [Hs He] Hx. split; [exact Hs|]. split.
  - apply (shaped_F2R_nonneg 24 128); [lia|lia|exact Hs].
  - unfold sgnR in He. rewrite Rmult_1_l, rel_error_32 in He.
    pose proof abs_error_32. lra.
Qed.

Lemma approx64_budget : forall y x,
  approx64 false y x -> (0 <= x)%R ->
  shaped64 false y /\ (0 <= F2R y)%R
  /\ (Rabs (F2R y - x)
      <= 1 / 1125899906842624 * x
         + 1 / 10000000000000000000000000000000000000000)%R.
Proof.
  intros y x [Hs He] Hx. split; [exact Hs|]. split.
  - apply (shaped_F2R_nonneg 53 1024); [lia|lia|exact Hs].
  - unfold sgnR in He. rewrite Rmult_1_l, rel_error_64 in He.
    pose proof abs_error_64. lra.
Qed.

(** ** Magnitudes *)

Lemma Rabs_F2R : forall s m e,
  Rabs (F2R (S754_finite s m e)) = (IZR (Z.pos m) * bpow e)%R.
Proof.
  intros s m e. cbn [F2R].
  assert (0 < IZR (Z.pos m) * bpow e)%R
    by (apply Rmult_lt_0_compat; [apply IZR_lt; lia|apply bpow_pos]).
  destruct s.
  - replace (-1 * IZR (Z.pos m) * bpow e)%R
      with (- (IZR (Z.pos m) * bpow e))%R by ring.
    rewrite Rabs_Ropp, Rabs_pos_eq by lra. reflexivity.
  - replace (1 * IZR (Z.pos m) * bpow e)%R
      with (IZR (Z.pos m) * bpow e)%R by ring.
    apply Rabs_pos_eq. lra.
Qed.

Lemma magnitude_below_spec : forall n x,
  magnitude_below n x = true ->
  is_finite x = true /\ (Rabs (F2R x) < bpow n)%R.
Proof.
  intros n [s|s| |s m e] H; try discriminate; (split; [reflexivity|]).
  - cbn [F2R]. rewrite Rabs_R0. apply bpow_pos.
  - cbn [magnitude_below] in H. apply Z.leb_le in H.
    rewrite Rabs_F2R.
    pose proof (Zdigits2_bounds (Z.pos m) eq_refl) as [_ Hhi].
    pose proof (Zdigits2_nonneg (Z.pos m)) as Hd.
    apply Rlt_le_trans with (bpow (Zdigits2 (Z.pos m) + e)).
    + rewrite bpow_add, <- (bpow_IZR (Zdigits2 (Z.pos m))) by exact Hd.
      apply Rmult_lt_compat_r; [apply bpow_pos|]. apply IZR_lt, Hhi.
    + apply bpow_le, H.
Qed.

Lemma square_below : forall x n,
  (Rabs x < bpow n -> x * x < bpow (2 * n))%R.
Proof.
  intros x n H. replace (2 * n) with (n + n) by lia. rewrite bpow_add.
  replace (x * x)%R with (Rabs x * Rabs x)%R
    by (unfold Rabs; destruct (Rcase_abs x); ring).
  pose proof (Rabs_pos x). pose proof (bpow_pos n).
  apply Rle_lt_trans with (Rabs x * bpow n)%R.
  - apply Rmult_le_compat_l; lra.
  - apply Rmult_lt_compat_r; lra.
Qed.

(** ** The divergence test and the sign flip *)

(** A norm that passes the divergence test is a positive number, at least
    2^-10. *)
Lemma not_diverged_R : forall m : float,
  shaped32 false m -> diverged m = false ->
  exists M E, m = S754_finite false M E /\ (1 / 1024 <= F2R m)%R.
Proof.
  intros m Hs Hd. unfold diverged in Hd. apply orb_false_iff in Hd as [Hlt _].
  destruct (F64_of_float_exact false m Hs) as (Hs64 & Hv & Hfull).
  destruct Hs as [->|(p & e & -> & He & Hdp)].
  - exfalso. revert Hlt. vm_compute. discriminate.
  - exists p, e. split; [reflexivity|].
    destruct (Hfull p e eq_refl) as (M & E & HM & HdM).
    rewrite <- Hv, HM. rewrite HM in Hlt. cbn [F64.fabs SFabs] in Hlt.
    assert (HL : F64.literal 1 1000
                 = S754_finite false 4611686018427388 (-62))
      by (vm_compute; reflexivity).
    rewrite HL in Hlt. unfold F64.ltb, SFltb, SFcompare in Hlt.
    assert (HE : -62 <= E).
    { destruct (Z.compare_spec E (-62)); [lia|discriminate|lia]. }
    pose proof (Zdigits2_bounds (Z.pos M) eq_refl) as [Hlo _].
    rewrite HdM in Hlo. change (53 - 1) with 52 in Hlo.
    cbn [F2R]. rewrite Rmult_1_l.
    apply Rle_trans with (bpow 52 * bpow (-62))%R.
    + rewrite <- bpow_add. change (52 + -62) with (Z.opp 10).
      rewrite bpow_neg by lia. change (2 ^ 10) with 1024. lra.
    + pose proof (bpow_pos 52). pose proof (bpow_pos (-62)).
      apply Rmult_le_compat; try lra.
      * rewrite <- bpow_IZR by lia. apply IZR_le, Hlo.
      * apply bpow_le, HE.
Qed.

(** After the sign flip the scalar part is not a negative number. *)
Lemma integrate_q0_sign : forall qv g dT m e,
  q0 (integrate qv g dT) <> S754_finite true m e.
Proof.
  intros qv g dT m e. unfold integrate. cbv zeta. cbn [q0 q1 q2 q3].
  change (F32.of_Z 0) with (S754_zero false).
  match goal with
  | |- context [F32.ltb ?n _] => generalize n
  end.
  intros n.
  destruct n as [[|]|[|]| |[|] m' e']; cbn; intros H; discriminate.
Qed.

(** ** The norm [qmag] of a bounded quaternion *)

Lemma bpow_105 : bpow 105 = (32 * bpow 100)%R.
Proof.
  change 105 with (5 + 100). rewrite bpow_add, <- (bpow_IZR 5) by lia.
  change (2 ^ 5) with 32. reflexivity.
Qed.

Lemma bpow_100_ge_1 : (1 <= bpow 100)%R.
Proof. rewrite <- bpow_0. apply bpow_le. lia. Qed.

Lemma quat_mag_R : forall v,
  quat_below 50 v = true ->
  let W := (F2R (q0 v) * F2R (q0 v) + F2R (q1 v) * F2R (q1 v)
            + F2R (q2 v) * F2R (q2 v) + F2R (q3 v) * F2R (q3 v))%R in
  let Q := F2R (quat_mag v) in
  shaped32 false (quat_mag v)
  /\ ((1 / 1024 <= Q)%R ->
      (9999969 / 10000000 * W <= Q * Q
       /\ Q * Q <= 10000031 / 10000000 * W)%R).
Proof.
  intros [a b c d]. unfold quat_below, quat_mag, sqrt_to_float.
  cbn [q0 q1 q2 q3]. rewrite !andb_true_iff.
  intros [[[Ha Hb] Hc] Hd].
  apply magnitude_below_spec in Ha as [Fa Ma], Hb as [Fb Mb],
    Hc as [Fc Mc], Hd as [Fd Md].
  apply square_below in Ma, Mb, Mc, Md. change (2 * 50) with 100 in *.
  pose proof bpow_105 as H105. pose proof bpow_100_ge_1 as H100.
  pose proof (Rle_0_sqr (F2R a)) as Na. pose proof (Rle_0_sqr (F2R b)) as Nb.
  pose proof (Rle_0_sqr (F2R c)) as Nc. pose proof (Rle_0_sqr (F2R d)) as Nd.
  unfold Rsqr in Na, Nb, Nc, Nd.
  destruct (approx32_budget _ _ (F32_square a Fa ltac:(lra)) Na)
    as (Sa & Pa & Ea).
  destruct (approx32_budget _ _ (F32_square b Fb ltac:(lra)) Nb)
    as (Sb & Pb & Eb).
  destruct (approx32_budget _ _ (F32_square c Fc ltac:(lra)) Nc)
    as (Sc & Pc & Ec).
  destruct (approx32_budget _ _ (F32_square d Fd ltac:(lra)) Nd)
    as (Sd & Pd & Ed).
  set (pa := F32.mul a a) in *. set (pb := F32.mul b b) in *.
  set (pc := F32.mul c c) in *. set (pd := F32.mul d d) in *.
  pose proof (Rabs_bound _ _ Ea) as Ba. pose proof (Rabs_bound _ _ Eb) as Bb.
  pose proof (Rabs_bound _ _ Ec) as Bc. pose proof (Rabs_bound _ _ Ed) as Bd.
  destruct (approx32_budget _ _ (F32_add_nonneg pa pb Sa Sb ltac:(lra))
              ltac:(lra)) as (S1 & P1 & E1).
  set (s1 := F32.add pa pb) in *. pose proof (Rabs_bound _ _ E1) as B1.
  destruct (approx32_budget _ _ (F32_add_nonneg s1 pc S1 Sc ltac:(lra))
              ltac:(lra)) as (S2 & P2 & E2).
  set (s2 := F32.add s1 pc) in *. pose proof (Rabs_bound _ _ E2) as B2.
  destruct (approx32_budget _ _ (F32_add_nonneg s2 pd S2 Sd ltac:(lra))
              ltac:(lra)) as (S3 & P3 & E3).
  set (s3 := F32.add s2 pd) in *. pose proof (Rabs_bound _ _ E3) as B3.
  destruct (F64_of_float_exact false s3 S3) as (SD & ED & _).
  set (D := F64.of_float s3) in *.
  assert (HD : (F2R D < bpow 200)%R).
  { pose proof (bpow_le 105 200 ltac:(lia)). lra. }
  pose proof (sqrt_pos (F2R D)) as Hr0.
  pose proof (sqrt_le_succ (F2R D) ltac:(lra)) as Hr1.
  destruct (approx64_budget _ _ (F64_sqrt_R D SD HD) Hr0) as (SR & PR & ER).
  set (rho := F64.sqrt D) in *. pose proof (Rabs_bound _ _ ER) as BR.
  destruct (approx32_budget _ _ (F32_of_double_R rho SR ltac:(lra)) PR)
    as (SQ & PQ & EQ).
  split; [exact SQ|]. intros Hmin.
  destruct (sum_of_squares_budget _ _ _ _ _ _ _ _ _ _ _ Na Nb Nc Nd
              Ea Eb Ec Ed E1 E2 E3) as [Hlo Hhi].
  rewrite ED in ER.
  apply (magnitude_budget _ (F2R s3) (F2R rho)); try assumption; lra.
Qed.

Lemma F2R_one : F2R F32.one = 1%R.
Proof.
  change F32.one with (S754_finite false 8388608 (-23)). cbn [F2R].
  change (-23) with (Z.opp 23). rewrite bpow_neg by lia.
  change (2 ^ 23) with 8388608. lra.
Qed.

Lemma quat_norm_identity : quat_norm q_identity = 1%R.
Proof.
  unfold quat_norm, q_identity. cbn [q0 q1 q2 q3]. rewrite F2R_one.
  change (F2R F32.zero) with 0%R.
  replace (1 * 1 + 0 * 0 + 0 * 0 + 0 * 0)%R with 1%R by ring.
  apply sqrt_1.
Qed.

Lemma inv_le_1024 : forall Q, (1 / 1024 <= Q -> / Q <= 1024)%R.
Proof.
  intros Q H. apply Rmult_le_reg_l with Q; [lra|].
  rewrite Rinv_r by lra. lra.
Qed.

(** One component of the renormalised quaternion. *)
Lemma renormalised_component : forall x M E,
  let m := S754_finite false M E in
  magnitude_below 50 x = true ->
  (1 / 1024 <= F2R m)%R ->
  is_finite (F32.div x m) = true
  /\ (Rabs (F2R (F32.div x m) - F2R x / F2R m)
      <= 1 / 2097152 * Rabs (F2R x / F2R m)
         + 1 / 10000000000000000000000000000000000000000)%R
  /\ ((forall p e, x <> S754_finite true p e) ->
      (0 <= F2R (F32.div x m))%R).
Proof.
  intros x M E m Hx Hm.
  apply magnitude_below_spec in Hx as [Fx Mx].
  pose proof (inv_le_1024 _ Hm) as Hi.
  assert (Hi0 : (0 < / F2R m)%R) by (apply Rinv_0_lt_compat; lra).
  assert (Hlt : (Rabs (F2R x) / F2R m < bpow 105)%R).
  { pose proof (Rabs_pos (F2R x)).
    apply Rle_lt_trans with (Rabs (F2R x) * 1024)%R.
    - unfold Rdiv. apply Rmult_le_compat_l; lra.
    - apply Rlt_le_trans with (bpow 50 * bpow 10)%R.
      + rewrite <- (bpow_IZR 10) by lia. change (2 ^ 10) with 1024.
        apply Rmult_lt_compat_r; lra.
      + rewrite <- bpow_add. apply bpow_le. lia. }
  destruct (F32_div_R x M E Fx Hlt) as (Hf & He & Hs).
  fold m in Hf, He, Hs.
  split; [exact Hf|]. split; [|exact Hs].
  rewrite rel_error_32 in He. pose proof abs_error_32.
  replace (Rabs (F2R x / F2R m)) with (Rabs (F2R x) / F2R m)%R; [lra|].
  unfold Rdiv. rewrite Rabs_mult, (Rabs_pos_eq (/ F2R m)) by lra.
  reflexivity.
Qed.

(** The quotient of a bounded quaternion by its norm, when the norm passes
    the divergence test. *)
Lemma renormalised_unit : forall v,
  quat_below 50 v = true ->
  (forall p e, q0 v <> S754_finite true p e) ->
  diverged (quat_mag v) = false ->
  let q' := Arr4 (F32.div (q0 v) (quat_mag v)) (F32.div (q1 v) (quat_mag v))
                 (F32.div (q2 v) (quat_mag v)) (F32.div (q3 v) (quat_mag v)) in
  quat_finite q' = true
  /\ (Rabs (quat_norm q' - 1) <= 1 / 100000)%R
  /\ (0 <= F2R (q0 q'))%R.
Proof.
  intros v Hb Hsign Hd. cbv zeta.
  destruct (quat_mag_R v Hb) as [Hsh Hbud]. cbv zeta in Hbud.
  destruct (not_diverged_R _ Hsh Hd) as (M & E & HM & Hmin).
  specialize (Hbud Hmin). destruct Hbud as [Hlo Hhi].
  revert Hmin Hlo Hhi. rewrite HM. intros Hmin Hlo Hhi.
  unfold quat_below in Hb. rewrite !andb_true_iff in Hb.
  destruct Hb as [[[B0 B1] B2] B3].
  destruct (renormalised_component _ M E B0 Hmin) as (F0 & E0 & S0).
  destruct (renormalised_component _ M E B1 Hmin) as (F1 & E1 & _).
  destruct (renormalised_component _ M E B2 Hmin) as (F2 & E2 & _).
  destruct (renormalised_component _ M E B3 Hmin) as (F3 & E3 & _).
  split; [|split].
  - unfold quat_finite. cbn [q0 q1 q2 q3]. rewrite F0, F1, F2, F3.
    reflexivity.
  - unfold quat_norm. cbn [q0 q1 q2 q3].
    apply (unit_norm_budget (F2R (q0 v)) (F2R (q1 v)) (F2R (q2 v))
             (F2R (q3 v)) (F2R (S754_finite false M E)));
      try assumption; lra.
  - cbn [q0]. apply S0, Hsign.
Qed.

Lemma stepped_q_sign : forall t a s p e,
  q0 (stepped_q t a s) <> S754_finite true p e.
Proof. intros t a s p e. unfold stepped_q. apply integrate_q0_sign. Qed.

Lemma updateAttitude_q_mag : forall t a s,
  q (updateAttitude t a s)
  = if diverged (quat_mag (stepped_q t a s)) then q_identity
    else Arr4 (F32.div (q0 (stepped_q t a s)) (quat_mag (stepped_q t a s)))
              (F32.div (q1 (stepped_q t a s)) (quat_mag (stepped_q t a s)))
              (F32.div (q2 (stepped_q t a s)) (quat_mag (stepped_q t a s)))
              (F32.div (q3 (stepped_q t a s)) (quat_mag (stepped_q t a s))).
Proof.
  intros t a s. unfold updateAttitude, stepped_q. cbv zeta.
  cbn [q accelKp lastSysTime set_q set_gyro_correct_int set_lastSysTime].
  match goal with |- context [if ?c then _ else _] => destruct c end;
    reflexivity.
Qed.

(** * Calls that return *)

Lemma fold_accum_gyro : forall l d acc,
  fold_left accum_gyro (d :: l) acc
  = Arr3 (wrap_s32 (at0 acc + sum_of gyro_x (d :: l)))
         (wrap_s32 (at1 acc + sum_of gyro_y (d :: l)))
         (wrap_s32 (at2 acc + sum_of gyro_z (d :: l))).
Proof.
  induction l as [|d' l IH]; intros d acc.
  - cbn. rewrite !Z.add_0_r. reflexivity.
  - change (fold_left accum_gyro (d :: d' :: l) acc)
      with (fold_left accum_gyro (d' :: l) (accum_gyro acc d)).
    rewrite IH. unfold accum_gyro at 1 2 3. cbn [at0 at1 at2].
    rewrite !wrap_s32_idem_l.
    change (sum_of gyro_x (d :: d' :: l))
      with (gyro_x d + sum_of gyro_x (d' :: l)).
    change (sum_of gyro_y (d :: d' :: l))
      with (gyro_y d + sum_of gyro_y (d' :: l)).
    change (sum_of gyro_z (d :: d' :: l))
      with (gyro_z d + sum_of gyro_z (d' :: l)).
    rewrite !Z.add_assoc. reflexivity.
Qed.

(** A FIFO that is still empty when the fuel is spent keeps the first loop
    running. *)
Lemma wait_sample_short : forall (D : Type) k (l : list D) fuel j,
  (j + fuel <= k)%nat -> wait_sample (fifo_of k l) fuel j = None.
Proof.
  intros D k l. induction fuel as [|fuel IH]; intros j H; [reflexivity|].
  cbn [wait_sample]. unfold fifo_of at 1.
  destruct (Nat.ltb_spec j k) as [Hj|Hj]; [|lia].
  apply IH. lia.
Qed.

Lemma read_all_short :
  forall (D : Type) (accumulate : arr3 Z -> D -> arr3 Z) k (l : list D) fuel,
  (fuel <= k)%nat -> read_all (fifo_of k l) accumulate fuel = None.
Proof.
  intros D accumulate k l fuel H. unfold read_all.
  rewrite wait_sample_short by lia. reflexivity.
Qed.

(** The number of samples as the code holds it: counted in an [int32_t],
    stored in a [uint32_t]. *)
Lemma count_small : forall n : nat,
  Z.of_nat n < 2 ^ 31 -> wrap_u32 (wrap_s32 (Z.of_nat n)) = Z.of_nat n.
Proof.
  intros n H. rewrite wrap_s32_small by lia. apply wrap_u32_small. lia.
Qed.

Lemma updateBaro_accel_samples : forall i s,
  accel_samples (updateBaro i s) = accel_samples s.
Proof.
  intros i s.
  destruct (updateBaro_frame i s)
    as (_ & _ & _ & _ & _ & _ & _ & _ & _ & _ & _ & _ & _ & _ & _ & B).
  exact B.
Qed.

Lemma updateBaro_gyro_samples : forall i s,
  gyro_samples (updateBaro i s) = gyro_samples s.
Proof.
  intros i s.
  destruct (updateBaro_frame i s)
    as (_ & _ & _ & _ & _ & _ & _ & _ & _ & _ & _ & _ & B & _).
  exact B.
Qed.

(** [updateSensors] on FIFOs that yield samples: it returns 0, with the
    readings computed from the 32-bit sums of all the samples. *)
Lemma updateSensors_fed : forall fuel i a s k d l kg dg lg,
  accel_fifo i = fifo_of k (d :: l) ->
  gyro_fifo i = fifo_of kg (dg :: lg) ->
  (fuel > k + length l)%nat -> (fuel > kg + length lg)%nat ->
  exists a' s',
    updateSensors fuel i a s = Some (0, a', s')
    /\ accels a'
       = (let scaling :=
            F32.div (accel_scale i)
              (F32.of_Z (wrap_u32 (wrap_s32 (Z.of_nat (length (d :: l)))))) in
          Arr3
            (F32.mul (F32.of_Z (wrap_s32 (sum_of bma_x (d :: l)))) scaling)
            (F32.mul (F32.of_Z (wrap_s32 (sum_of bma_y (d :: l)))) scaling)
            (F32.mul (F32.of_Z (wrap_s32 (sum_of bma_z (d :: l)))) scaling))
    /\ gyros a'
       = (let scaling :=
            F32.div (gyro_scale i)
              (F32.of_Z (wrap_u32 (wrap_s32 (Z.of_nat (length (dg :: lg)))))) in
          let g :=
            Arr3
              (F32.mul
                 (F32.neg (F32.of_Z (wrap_s32 (sum_of gyro_y (dg :: lg)))))
                 scaling)
              (F32.mul
                 (F32.neg (F32.of_Z (wrap_s32 (sum_of gyro_x (dg :: lg)))))
                 scaling)
              (F32.mul
                 (F32.neg (F32.of_Z (wrap_s32 (sum_of gyro_z (dg :: lg)))))
                 scaling) in
          if bias_correct_gyro s
          then Arr3 (F32.add (at0 g) (at0 (gyro_correct_int s)))
                    (F32.add (at1 g) (at1 (gyro_correct_int s)))
                    (F32.add (at2 g) (at2 (gyro_correct_int s)))
          else g)
    /\ gyro_correct_int s'
       = Arr3 (at0 (gyro_correct_int s)) (at1 (gyro_correct_int s))
              (F32.add (at2 (gyro_correct_int s))
                       (F32.mul (F32.neg (at2 (gyros a'))) (yawBiasRate s)))
    /\ accel_samples s' = wrap_u32 (wrap_s32 (Z.of_nat (length (d :: l))))
    /\ gyro_samples s' = wrap_u32 (wrap_s32 (Z.of_nat (length (dg :: lg)))).
Proof.
  intros fuel i a s k d l kg dg lg Ha Hg Hf Hfg.
  unfold updateSensors. cbv zeta.
  rewrite Ha, Hg, !read_all_fifo_of by assumption.
  unfold updateSensors_tail. cbv zeta.
  eexists. eexists. split; [reflexivity|].
  cbn [accels gyros accel_accum accel_samples gyro_accum gyro_samples scaling
       bias_correct_gyro gyro_correct_int yawBiasRate
       set_scaling set_accel_samples set_accel_accum set_accel
       set_gyro set_gyro_accum set_gyro_samples set_gyro_correct_int].
  rewrite fold_accum_accel, fold_accum_gyro. cbn [at0 at1 at2 zero3i].
  rewrite !Z.add_0_l.
  change (Z.of_nat (S (length l))) with (Z.of_nat (length (d :: l))).
  change (Z.of_nat (S (length lg))) with (Z.of_nat (length (dg :: lg))).
  rewrite updateBaro_bias, updateBaro_accel_samples, updateBaro_gyro_samples.
  cbn [gyro_correct_int accel_samples gyro_samples AttitudeRawSet emit
       set_log set_AttitudeRaw set_gyro_correct_int set_gyro set_scaling
       set_gyro_samples set_gyro_accum set_accel_samples set_accel_accum
       set_accel set_at2 at0 at1 at2].
  destruct (bias_correct_gyro s); repeat split.
Qed.

Lemma select_gains_bias_flag : forall i s,
  bias_correct_gyro (select_gains i s) = bias_correct_gyro s.
Proof.
  intros i s. unfold select_gains. cbv zeta.
  destruct ((tick_a i <? 7000) && (tick_b i >? 1000)); [reflexivity|].
  cbn [zero_during_arming emit set_log].
  destruct (zero_during_arming s
            && (flightStatus_Armed i =? FLIGHTSTATUS_ARMED_ARMING));
    [reflexivity|].
  cbn [init emit set_log].
  destruct (init s =? 0); reflexivity.
Qed.

(** An iteration on sensors that yield samples returns, through the success
    branch. *)
Lemma cycle_fed : forall fuel i s k d l kg dg lg,
  accel_fifo (sensors i) = fifo_of k (d :: l) ->
  gyro_fifo (sensors i) = fifo_of kg (dg :: lg) ->
  (fuel > k + length l)%nat -> (fuel > kg + length lg)%nat ->
  exists a' s2,
    updateSensors fuel (sensors i) (AttitudeRaw s)
      (emit (EvGet ObjAttitudeRaw) (emit EvWDG_UpdateFlag (select_gains i s)))
    = Some (0, a', s2)
    /\ AttitudeTask_cycle fuel i s
       = Some (emit (EvTaskDelay 1) (AlarmsClear (AttitudeRawSet a' s2))).
Proof.
  intros fuel i s k d l kg dg lg Ha Hg Hf Hfg.
  destruct (updateSensors_fed fuel (sensors i) (AttitudeRaw s)
              (emit (EvGet ObjAttitudeRaw)
                 (emit EvWDG_UpdateFlag (select_gains i s)))
              k d l kg dg lg Ha Hg Hf Hfg) as (a' & s2 & E & _).
  exists a', s2. split; [exact E|].
  unfold AttitudeTask_cycle. cbv zeta.
  destruct (select_gains_frame i s) as (_ & _ & _ & GR & _).
  cbv zeta in GR.
  change (AttitudeRaw (emit (EvGet ObjAttitudeRaw)
            (emit EvWDG_UpdateFlag (select_gains i s))))
    with (AttitudeRaw (select_gains i s)).
  rewrite GR, E. reflexivity.
Qed.

Lemma cycle_feeds : forall fuel i s,
  feeds fuel (sensors i) -> exists s', AttitudeTask_cycle fuel i s = Some s'.
Proof.
  intros fuel i s (k & d & l & kg & dg & lg & Ha & Hg & Hf & Hfg).
  destruct (cycle_fed fuel i s k d l kg dg lg Ha Hg Hf Hfg)
    as (a' & s2 & _ & E).
  eexists. exact E.
Qed.

Lemma loop_feeds : forall fuel ins s,
  Forall (fun i => feeds fuel (sensors i)) ins ->
  exists s', AttitudeTask_loop fuel ins s = Some s'.
Proof.
  intros fuel ins. induction ins as [|i ins IH]; intros s H.
  - exists s. reflexivity.
  - inversion H as [|i' ins' Hi Hr]; subst.
    destruct (cycle_feeds fuel i s Hi) as [s1 E].
    destruct (IH s1 Hr) as [s' E'].
    exists s'. cbn [AttitudeTask_loop]. rewrite E. exact E'.
Qed.

Lemma cycle_stalls : forall fuel i s,
  (forall n, accel_fifo (sensors i) n = None)
  \/ (forall n, gyro_fifo (sensors i) n = None) ->
  AttitudeTask_cycle fuel i s = None.
Proof.
  intros fuel i s H. unfold AttitudeTask_cycle. cbv zeta.
  rewrite (updateSensors_spins fuel (sensors i) _ _ H). reflexivity.
Qed.

Lemma forallb_read_no_alarm : forall evs,
  forallb is_read evs = true -> existsb is_AlarmsSet evs = false.
Proof.
  induction evs as [|e evs IH]; [reflexivity|].
  cbn. destruct e; cbn; try discriminate. exact IH.
Qed.

Lemma forallb_baro_no_alarm : forall evs,
  forallb is_baro_event evs = true -> existsb is_AlarmsSet evs = false.
Proof.
  induction evs as [|e evs IH]; [reflexivity|].
  cbn. destruct e as [o| | | | | | | |]; cbn; try discriminate; try exact IH.
  destruct o; cbn; try discriminate; exact IH.
Qed.

(** The events of an iteration that returns. *)
Lemma cycle_log : forall fuel i s s',
  AttitudeTask_cycle fuel i s = Some s' ->
  exists evg evb,
    log s' = log s ++ (evg ++ [EvWDG_UpdateFlag; EvGet ObjAttitudeRaw])
             ++ EvAttitudeRawSet (raw s)
                :: evb ++ [EvAttitudeRawSet (AttitudeRaw s'); EvAlarmsClear;
                           EvTaskDelay 1]
    /\ forallb is_read evg = true /\ forallb is_baro_event evb = true
    /\ alarm_attitude s' = SYSTEMALARMS_ALARM_OK.
Proof.
  intros fuel i s s' Hc.
  destruct (cycle_inv _ _ _ _ Hc) as (a' & s2 & E & ->).
  destruct (select_gains_frame i s) as (_ & Graw & _).
  cbv zeta in Graw.
  destruct (updateSensors_log _ _ _ _ _ _ _ E) as (evb & Hl & Hb).
  destruct (select_gains_log i s) as (evg & Hg & Hr).
  exists evg, evb. split; [|split; [exact Hr|split; [exact Hb|reflexivity]]].
  cbn [log emit AlarmsClear AttitudeRawSet set_log set_alarm_attitude
       set_AttitudeRaw AttitudeRaw].
  rewrite Hl. cbn [log raw emit set_log]. rewrite Hg, Graw.
  rewrite <- ?app_assoc. cbn. rewrite <- ?app_assoc. reflexivity.
Qed.

(** * Sensor faults *)

(** C2 (the code departs from the claim): [updateSensors] cannot report a
    fault.  Its only return statement is [return 0], and it reaches it only
    after each FIFO has yielded a sample: with an accelerometer or gyroscope
    FIFO that stays empty it polls for ever, and with one that is empty for
    the first [k] reads it is still polling after [k] reads; once samples
    arrive it drains them all and returns 0.  So an iteration of the task
    loop either completes with the raw sample published and the alarm clear,
    never having raised it, or does not complete at all; the branch that
    raises the alarm and skips publication exists but is never taken. *)
Theorem sensor_fault_handling :
  (forall fuel i a s r a' s',
      updateSensors fuel i a s = Some (r, a', s') -> r = 0)
  /\ (forall fuel i a s,
      (forall n, accel_fifo i n = None) \/ (forall n, gyro_fifo i n = None) ->
      updateSensors fuel i a s = None)
  /\ (forall fuel i a s k l,
      accel_fifo i = fifo_of k l -> (fuel <= k)%nat ->
      updateSensors fuel i a s = None)
  /\ (forall fuel i a s k d l kg dg lg,
      accel_fifo i = fifo_of k (d :: l) ->
      gyro_fifo i = fifo_of kg (dg :: lg) ->
      (fuel > k + length l)%nat -> (fuel > kg + length lg)%nat ->
      exists a' s',
        updateSensors fuel i a s = Some (0, a', s')
        /\ accel_samples s'
           = wrap_u32 (wrap_s32 (Z.of_nat (length (d :: l))))
        /\ gyro_samples s'
           = wrap_u32 (wrap_s32 (Z.of_nat (length (dg :: lg)))))
  /\ (forall fuel i s, feeds fuel (sensors i) ->
      exists s' evs,
        AttitudeTask_cycle fuel i s = Some s'
        /\ alarm_attitude s' = SYSTEMALARMS_ALARM_OK
        /\ log s' = log s ++ evs
                    ++ [EvAttitudeRawSet (AttitudeRaw s'); EvAlarmsClear;
                        EvTaskDelay 1]
        /\ existsb is_AlarmsSet evs = false)
  /\ (forall fuel i s,
      (forall n, accel_fifo (sensors i) n = None)
      \/ (forall n, gyro_fifo (sensors i) n = None) ->
      AttitudeTask_cycle fuel i s = None)
  /\ (forall r a s, r <> 0 ->
      let s' := handle_sensors r a s in
      alarm_attitude s' = SYSTEMALARMS_ALARM_ERROR
      /\ AttitudeRaw s' = AttitudeRaw s
      /\ AttitudeActual s' = AttitudeActual s
      /\ q s' = q s
      /\ log s' = log s ++ [EvAlarmsSet SYSTEMALARMS_ALARM_ERROR])
  /\ (forall a s,
      let s' := handle_sensors 0 a s in
      alarm_attitude s' = SYSTEMALARMS_ALARM_OK
      /\ AttitudeRaw s' = a
      /\ log s' = log s ++ [EvAttitudeRawSet a; EvAlarmsClear]).
Proof.
  split; [exact updateSensors_returns_0|].
  split; [exact updateSensors_spins|].
  split.
  { intros fuel i a s k l Ha Hf. unfold updateSensors. cbv zeta.
    rewrite Ha, read_all_short by exact Hf. reflexivity. }
  split.
  { intros fuel i a s k d l kg dg lg Ha Hg Hf Hfg.
    destruct (updateSensors_fed fuel i a s k d l kg dg lg Ha Hg Hf Hfg)
      as (a' & s' & E & _ & _ & _ & Hna & Hng).
    exists a', s'. split; [exact E|]. split; assumption. }
  split.
  { intros fuel i s Hfeed. destruct (cycle_feeds fuel i s Hfeed) as [s' E].
    destruct (cycle_log _ _ _ _ E) as (evg & evb & Hl & Hr & Hb & Hal).
    exists s', ((evg ++ [EvWDG_UpdateFlag; EvGet ObjAttitudeRaw])
                ++ EvAttitudeRawSet (raw s) :: evb).
    split; [exact E|]. split; [exact Hal|]. split.
    - rewrite Hl, <- !app_assoc. cbn. rewrite <- ?app_assoc. reflexivity.
    - rewrite !existsb_app, (forallb_read_no_alarm _ Hr). cbn.
      apply forallb_baro_no_alarm, Hb. }
  split; [exact cycle_stalls|].
  split.
  - intros r a s Hr. unfold handle_sensors.
    destruct (r =? 0) eqn:E; [apply Z.eqb_eq in E; contradiction|].
    cbn. repeat split.
  - intros a s. unfold handle_sensors. cbn.
    repeat split. rewrite <- app_assoc. reflexivity.
Qed.

(** * The file-scope record [raw] *)

(** C9: in every state the module can reach, the file-scope record [raw] is
    the zero record, for nothing writes it.  A call of [updateSensors] on
    FIFOs that yield samples returns, and on its way publishes [raw] through
    AttitudeRawSet: the record published there is the zero record whatever
    the samples were, it is the only AttitudeRawSet call of
    [updateSensors], and it is not the record the call fills in for its
    caller, which carries the readings computed from the samples.  An
    iteration of the task loop on such sensors completes with two
    AttitudeRawSet calls and no other: first the zero record, from inside
    [updateSensors], then the filled-in record, which is what the AttitudeRaw
    object holds at the end.  The same holds of every call and every
    iteration that returns, whatever the shape of the FIFOs. *)
Theorem raw_publication_is_zero : forall s,
  reachable s ->
  raw s = zero_raw
  /\ (forall fuel i a k d l kg dg lg,
        accel_fifo i = fifo_of k (d :: l) ->
        gyro_fifo i = fifo_of kg (dg :: lg) ->
        (fuel > k + length l)%nat -> (fuel > kg + length lg)%nat ->
        exists a' s' evs,
          updateSensors fuel i a s = Some (0, a', s')
          /\ AttitudeRaw s' = zero_raw /\ raw s' = zero_raw
          /\ log s' = log s ++ EvAttitudeRawSet zero_raw :: evs
          /\ existsb is_AttitudeRawSet evs = false
          /\ accels a'
             = (let scaling :=
                  F32.div (accel_scale i)
                    (F32.of_Z
                       (wrap_u32 (wrap_s32 (Z.of_nat (length (d :: l)))))) in
                Arr3
                  (F32.mul (F32.of_Z (wrap_s32 (sum_of bma_x (d :: l))))
                           scaling)
                  (F32.mul (F32.of_Z (wrap_s32 (sum_of bma_y (d :: l))))
                           scaling)
                  (F32.mul (F32.of_Z (wrap_s32 (sum_of bma_z (d :: l))))
                           scaling)))
  /\ (forall fuel i k d l kg dg lg,
        accel_fifo (sensors i) = fifo_of k (d :: l) ->
        gyro_fifo (sensors i) = fifo_of kg (dg :: lg) ->
        (fuel > k + length l)%nat -> (fuel > kg + length lg)%nat ->
        exists s' evs0 evs1,
          AttitudeTask_cycle fuel i s = Some s'
          /\ log s' = log s ++ evs0 ++ EvAttitudeRawSet zero_raw
                      :: evs1 ++ [EvAttitudeRawSet (AttitudeRaw s');
                                  EvAlarmsClear; EvTaskDelay 1]
          /\ existsb is_AttitudeRawSet evs0 = false
          /\ existsb is_AttitudeRawSet evs1 = false
          /\ accels (AttitudeRaw s')
             = (let scaling :=
                  F32.div (accel_scale (sensors i))
                    (F32.of_Z
                       (wrap_u32 (wrap_s32 (Z.of_nat (length (d :: l)))))) in
                Arr3
                  (F32.mul (F32.of_Z (wrap_s32 (sum_of bma_x (d :: l))))
                           scaling)
                  (F32.mul (F32.of_Z (wrap_s32 (sum_of bma_y (d :: l))))
                           scaling)
                  (F32.mul (F32.of_Z (wrap_s32 (sum_of bma_z (d :: l))))
                           scaling)))
  /\ (forall fuel i a r a' s',
        updateSensors fuel i a s = Some (r, a', s') ->
        AttitudeRaw s' = zero_raw /\ raw s' = zero_raw
        /\ exists evs, log s' = log s ++ EvAttitudeRawSet zero_raw :: evs
                       /\ existsb is_AttitudeRawSet evs = false)
  /\ (forall fuel i s',
        AttitudeTask_cycle fuel i s = Some s' ->
        exists evs0 evs1,
          log s' = log s ++ evs0 ++ EvAttitudeRawSet zero_raw
                      :: evs1 ++ [EvAttitudeRawSet (AttitudeRaw s');
                                  EvAlarmsClear; EvTaskDelay 1]
          /\ existsb is_AttitudeRawSet evs0 = false
          /\ existsb is_AttitudeRawSet evs1 = false).
Proof.
  intros s Hs. pose proof (reachable_raw s Hs) as Hz.
  assert (Hpub : forall fuel i a r a' s',
            updateSensors fuel i a s = Some (r, a', s') ->
            AttitudeRaw s' = zero_raw /\ raw s' = zero_raw
            /\ exists evs, log s' = log s ++ EvAttitudeRawSet zero_raw :: evs
                           /\ existsb is_AttitudeRawSet evs = false).
  { intros fuel i a r a' s' E.
    destruct (updateSensors_frame _ _ _ _ _ _ _ E)
      as (_ & Hraw & _ & _ & _ & _ & _ & _ & _ & HR).
    destruct (updateSensors_log _ _ _ _ _ _ _ E) as (evs & Hl & Hb).
    rewrite HR, Hraw, Hz. repeat split.
    exists evs. rewrite Hl, Hz. split; [reflexivity|].
    apply forallb_baro_no_raw, Hb. }
  assert (Hcyc : forall fuel i s',
            AttitudeTask_cycle fuel i s = Some s' ->
            exists evs0 evs1,
              log s' = log s ++ evs0 ++ EvAttitudeRawSet zero_raw
                          :: evs1 ++ [EvAttitudeRawSet (AttitudeRaw s');
                                      EvAlarmsClear; EvTaskDelay 1]
              /\ existsb is_AttitudeRawSet evs0 = false
              /\ existsb is_AttitudeRawSet evs1 = false).
  { intros fuel i s' Hc.
    destruct (cycle_log _ _ _ _ Hc) as (evg & evb & Hl & Hr & Hb & _).
    exists (evg ++ [EvWDG_UpdateFlag; EvGet ObjAttitudeRaw]), evb.
    split; [rewrite Hl, Hz; reflexivity|]. split.
    - rewrite existsb_app, (forallb_read_no_raw _ Hr). reflexivity.
    - apply forallb_baro_no_raw, Hb. }
  split; [exact Hz|]. split; [|split; [|split; [exact Hpub|exact Hcyc]]].
  - intros fuel i a k d l kg dg lg Ha Hg Hf Hfg.
    destruct (updateSensors_fed fuel i a s k d l kg dg lg Ha Hg Hf Hfg)
      as (a' & s' & E & Hacc & _).
    destruct (Hpub _ _ _ _ _ _ E) as (HR & Hraw & evs & Hl & Hn).
    exists a', s', evs. repeat (split; [assumption|]). exact Hacc.
  - intros fuel i k d l kg dg lg Ha Hg Hf Hfg.
    destruct (cycle_fed fuel i s k d l kg dg lg Ha Hg Hf Hfg)
      as (a' & s2 & E & Ec).
    destruct (updateSensors_fed fuel (sensors i) (AttitudeRaw s)
                (emit (EvGet ObjAttitudeRaw)
                   (emit EvWDG_UpdateFlag (select_gains i s)))
                k d l kg dg lg Ha Hg Hf Hfg)
      as (a2 & s3 & E2 & Hacc & _).
    rewrite E in E2. inversion E2; subst a2 s3; clear E2.
    destruct (Hcyc _ _ _ Ec) as (evs0 & evs1 & Hl & H0 & H1).
    eexists. exists evs0, evs1.
    split; [exact Ec|]. split; [exact Hl|]. split; [exact H0|].
    split; [exact H1|]. exact Hacc.
Qed.

(** * The yaw bias *)

(** C5 (as amended): a call of [updateSensors] on FIFOs that yield samples
    returns, having changed only the z component of the bias integral, by
    [bias_z += -gz * yawBiasRate].  Here [gz] is the z gyroscope reading as
    the call publishes it: minus the 32-bit sum of all the z samples drained,
    times the quotient of the gyroscope scale by the number of samples, to
    which the bias integral [bias_z] itself has been added when
    [bias_correct_gyro] is set.  No accelerometer sample enters it. *)
Theorem yaw_bias_update : forall fuel i a s k d l kg dg lg,
  accel_fifo i = fifo_of k (d :: l) ->
  gyro_fifo i = fifo_of kg (dg :: lg) ->
  (fuel > k + length l)%nat -> (fuel > kg + length lg)%nat ->
  exists a' s',
    updateSensors fuel i a s = Some (0, a', s')
    /\ let gz_raw :=
         F32.mul (F32.neg (F32.of_Z (wrap_s32 (sum_of gyro_z (dg :: lg)))))
           (F32.div (gyro_scale i)
              (F32.of_Z
                 (wrap_u32 (wrap_s32 (Z.of_nat (length (dg :: lg))))))) in
       let gz :=
         if bias_correct_gyro s
         then F32.add gz_raw (at2 (gyro_correct_int s))
         else gz_raw in
       at2 (gyros a') = gz
       /\ gyro_correct_int s'
          = Arr3 (at0 (gyro_correct_int s)) (at1 (gyro_correct_int s))
                 (F32.add (at2 (gyro_correct_int s))
                          (F32.mul (F32.neg gz) (yawBiasRate s))).
Proof.
  intros fuel i a s k d l kg dg lg Ha Hg Hf Hfg.
  destruct (updateSensors_fed fuel i a s k d l kg dg lg Ha Hg Hf Hfg)
    as (a' & s' & E & _ & Hgy & Hb & _).
  exists a', s'. split; [exact E|]. cbv zeta.
  assert (Hz : at2 (gyros a')
               = if bias_correct_gyro s
                 then F32.add
                        (F32.mul
                           (F32.neg
                              (F32.of_Z (wrap_s32 (sum_of gyro_z (dg :: lg)))))
                           (F32.div (gyro_scale i)
                              (F32.of_Z
                                 (wrap_u32
                                    (wrap_s32
                                       (Z.of_nat (length (dg :: lg))))))))
                        (at2 (gyro_correct_int s))
                 else F32.mul
                        (F32.neg
                           (F32.of_Z (wrap_s32 (sum_of gyro_z (dg :: lg)))))
                        (F32.div (gyro_scale i)
                           (F32.of_Z
                              (wrap_u32
                                 (wrap_s32
                                    (Z.of_nat (length (dg :: lg)))))))).
  { rewrite Hgy. cbv zeta. destruct (bias_correct_gyro s); reflexivity. }
  split; [exact Hz|]. rewrite Hb, Hz. reflexivity.
Qed.

(** * The accelerometer reading *)

(** C8: an iteration of the task loop on FIFOs that yield samples completes,
    and the accelerometer reading it publishes is, for each axis, the sum of
    all the samples drained in this iteration, times the quotient of the
    driver's scale factor by the number of samples, [S * (scale / N)] in
    single precision: the average of the drained samples times the scale,
    not a single sample.  [S] and [N] are what the 32-bit accumulators and
    counter hold, which are the sum and the number of samples themselves
    whenever these fit. *)
Theorem accel_reading_is_scaled_sum :
  forall fuel i s k d l kg dg lg,
  accel_fifo (sensors i) = fifo_of k (d :: l) ->
  gyro_fifo (sensors i) = fifo_of kg (dg :: lg) ->
  (fuel > k + length l)%nat -> (fuel > kg + length lg)%nat ->
  exists s',
    AttitudeTask_cycle fuel i s = Some s'
    /\ accels (AttitudeRaw s')
       = (let scaling :=
            F32.div (accel_scale (sensors i))
              (F32.of_Z (wrap_u32 (wrap_s32 (Z.of_nat (length (d :: l)))))) in
          Arr3
            (F32.mul (F32.of_Z (wrap_s32 (sum_of bma_x (d :: l)))) scaling)
            (F32.mul (F32.of_Z (wrap_s32 (sum_of bma_y (d :: l)))) scaling)
            (F32.mul (F32.of_Z (wrap_s32 (sum_of bma_z (d :: l)))) scaling))
    /\ (Z.of_nat (length (d :: l)) < 2 ^ 31 ->
        - 2 ^ 31 <= sum_of bma_x (d :: l) < 2 ^ 31 ->
        - 2 ^ 31 <= sum_of bma_y (d :: l) < 2 ^ 31 ->
        - 2 ^ 31 <= sum_of bma_z (d :: l) < 2 ^ 31 ->
        accels (AttitudeRaw s')
        = (let scaling :=
             F32.div (accel_scale (sensors i))
                     (F32.of_Z (Z.of_nat (length (d :: l)))) in
           Arr3 (F32.mul (F32.of_Z (sum_of bma_x (d :: l))) scaling)
                (F32.mul (F32.of_Z (sum_of bma_y (d :: l))) scaling)
                (F32.mul (F32.of_Z (sum_of bma_z (d :: l))) scaling))).
Proof.
  intros fuel i s k d l kg dg lg Ha Hg Hf Hfg.
  destruct (cycle_fed fuel i s k d l kg dg lg Ha Hg Hf Hfg)
    as (a' & s2 & E & Ec).
  destruct (updateSensors_fed fuel (sensors i) (AttitudeRaw s)
              (emit (EvGet ObjAttitudeRaw)
                 (emit EvWDG_UpdateFlag (select_gains i s)))
              k d l kg dg lg Ha Hg Hf Hfg)
    as (a2 & s3 & E2 & Hacc & _).
  rewrite E in E2. inversion E2; subst a2 s3; clear E2.
  eexists. split; [exact Ec|].
  cbn [AttitudeRaw emit set_log AlarmsClear AttitudeRawSet
       set_alarm_attitude set_AttitudeRaw].
  split; [exact Hacc|].
  intros HN Hx Hy Hz. rewrite Hacc. cbv zeta.
  rewrite (wrap_s32_small _ Hx), (wrap_s32_small _ Hy), (wrap_s32_small _ Hz).
  rewrite count_small by exact HN. reflexivity.
Qed.

(** * Gain scheduling *)

(** Either the next steady-state iteration will load the gains, or they are
    the configured ones already. *)
Lemma reachable_gains : forall s,
  reachable s ->
  init s = 0
  \/ (init s = 1 /\ gains s = configured_gains (AttitudeSettings s)).
Proof.
  induction 1 as [settings | s _ IH | tests s _ IH | fuel i s s' _ IH Hc
                 | c s _ IH | t a s _ IH].
  - left. reflexivity.
  - exact IH.
  - left. destruct tests as [[[ta tg] tm] tp]. unfold AttitudeTask_start.
    cbv zeta. cbn [init emit set_log set_pressure_test set_mag_test
                   set_gyro_test set_accel_test].
    unfold settingsUpdatedCb. cbv zeta.
    match goal with |- context [if ?c then _ else _] => destruct c end;
      reflexivity.
  - destruct (cycle_after_select_gains _ _ _ _ Hc)
      as (Hg & Hi & Hs & _).
    rewrite Hg, Hi, Hs.
    destruct (converging i) eqn:Ec.
    { left. apply select_gains_converging, Ec. }
    destruct (arming i s) eqn:Ea.
    { left. apply select_gains_arming, Ea. }
    right. destruct (Z.eq_dec (init s) 0) as [H0|H0].
    + destruct (select_gains_load i s Ec Ea H0) as (Lg & Li & _).
      split; assumption.
    + rewrite (select_gains_keep i s Ec Ea H0).
      destruct IH as [IH|IH]; [contradiction|exact IH].
  - assert (Hi : init (settingsUpdatedCb (set_AttitudeSettings c s))
                 = init s).
    { unfold settingsUpdatedCb. cbv zeta.
      match goal with |- context [if ?c then _ else _] => destruct c end;
        reflexivity. }
    assert (Hg : gains (settingsUpdatedCb (set_AttitudeSettings c s))
                 = configured_gains
                     (AttitudeSettings
                        (settingsUpdatedCb (set_AttitudeSettings c s)))).
    { unfold settingsUpdatedCb. cbv zeta.
      match goal with |- context [if ?c then _ else _] => destruct c end;
        reflexivity. }
    rewrite Hi. destruct IH as [IH|[IH _]]; [left; exact IH|].
    right. split; [exact IH|exact Hg].
  - assert (Hi : init (updateAttitude t a s) = init s
                 /\ gains (updateAttitude t a s) = gains s
                 /\ AttitudeSettings (updateAttitude t a s)
                    = AttitudeSettings s).
    { unfold updateAttitude. cbv zeta.
      match goal with |- context [if ?c then _ else _] => destruct c end;
        repeat split. }
    destruct Hi as (Hi & Hg & Hs). rewrite Hi, Hg, Hs. exact IH.
Qed.

(** A run of steady-state iterations entered with [init] at 0. *)
Lemma steady_loop_loads : forall fuel i ins s s',
  AttitudeTask_loop fuel (i :: ins) s = Some s' ->
  Forall (steady s) (i :: ins) -> init s = 0 ->
  gains s' = configured_gains (AttitudeSettings s)
  /\ AttitudeSettings s' = AttitudeSettings s
  /\ exists evs, log s' = log s ++ evs /\ settings_reads evs = 3%nat.
Proof.
  intros fuel i ins s s' H Hst Hi.
  cbn [AttitudeTask_loop] in H.
  destruct (AttitudeTask_cycle fuel i s) as [s1|] eqn:E; [|discriminate].
  inversion Hst as [|i' ins' Hsi Hsr]; subst.
  destruct (cycle_after_select_gains _ _ _ _ E)
    as (Hg & Hin & Hs & Hz & evs1 & Hl1 & Hn1).
  destruct (select_gains_load i s (steady_not_converging s i Hsi)
              (proj2 Hsi) Hi) as (Lg & Lin & Ll).
  assert (Hst1 : Forall (steady s1) ins).
  { eapply Forall_impl; [|exact Hsr].
    intros j [Hj1 Hj2]. split; [exact Hj1|].
    unfold arming in *. rewrite Hz. exact Hj2. }
  destruct (steady_loop_keeps fuel ins s1 s' H Hst1)
    as (Hg' & _ & Hs' & evs2 & Hl2 & Hn2).
  { rewrite Hin, Lin. discriminate. }
  split; [congruence|]. split; [congruence|].
  exists (([EvGet ObjFlightStatus; EvGet ObjAttitudeSettings;
            EvGet ObjAttitudeSettings; EvGet ObjAttitudeSettings]
           ++ evs1) ++ evs2).
  split.
  - rewrite Hl2, Hl1, Ll, <- !app_assoc. reflexivity.
  - rewrite !settings_reads_app, Hn1, Hn2. reflexivity.
Qed.

(** C6: while the tick count lies between 1000 and 7000, and likewise when
    zero-during-arming is set and the vehicle is arming, the gains used are
    Kp = 1, Ki = 0.9 and yaw-bias-rate = 0.23, whatever the settings hold,
    and [init] is cleared.  In every state the module can reach, an
    iteration outside that window and not arming uses the gains of the
    settings object: it loads them if [init] is clear, which it is after
    any forced iteration and at the start of the task, and it reads no
    setting and changes nothing if they are loaded already.  An iteration
    that returns ends with the gains chosen at its head, and iterations on
    sensors that yield samples do return.  So after a forced iteration any
    run of steady-state iterations ends with the configured gains, and reads
    the settings for one load only (three reads, one per gain). *)
Theorem gain_scheduling :
  (forall i s, tick_a i < 7000 -> 1000 < tick_b i ->
     gains (select_gains i s) = forced_gains /\ init (select_gains i s) = 0)
  /\ (forall i s,
     zero_during_arming s = true ->
     flightStatus_Armed i = FLIGHTSTATUS_ARMED_ARMING ->
     gains (select_gains i s) = forced_gains /\ init (select_gains i s) = 0)
  /\ (forall i s, reachable s ->
     7000 <= tick_a i \/ tick_b i <= 1000 -> arming i s = false ->
     gains (select_gains i s) = configured_gains (AttitudeSettings s)
     /\ init (select_gains i s) = 1
     /\ (init s <> 0 -> select_gains i s = emit (EvGet ObjFlightStatus) s)
     /\ (init s = 0 ->
         log (select_gains i s)
         = log s ++ [EvGet ObjFlightStatus; EvGet ObjAttitudeSettings;
                     EvGet ObjAttitudeSettings; EvGet ObjAttitudeSettings]))
  /\ (forall fuel i s s', AttitudeTask_cycle fuel i s = Some s' ->
     gains s' = gains (select_gains i s)
     /\ init s' = init (select_gains i s)
     /\ AttitudeSettings s' = AttitudeSettings s)
  /\ (forall fuel ins s,
     Forall (fun i => feeds fuel (sensors i)) ins ->
     exists s', AttitudeTask_loop fuel ins s = Some s')
  /\ (forall fuel i0 i ins s s1 s',
     converging i0 = true \/ arming i0 s = true ->
     AttitudeTask_cycle fuel i0 s = Some s1 ->
     AttitudeTask_loop fuel (i :: ins) s1 = Some s' ->
     Forall (steady s1) (i :: ins) ->
     gains s1 = forced_gains
     /\ gains s' = configured_gains (AttitudeSettings s)
     /\ exists evs, log s' = log s1 ++ evs /\ settings_reads evs = 3%nat).
Proof.
  split; [|split; [|split; [|split; [|split]]]].
  - intros i s Ha Hb. apply select_gains_converging. unfold converging.
    apply andb_true_iff. split; [apply Z.ltb_lt|apply Z.gtb_lt]; lia.
  - intros i s Hz Harm. apply select_gains_arming. unfold arming.
    rewrite Hz, Harm. reflexivity.
  - intros i s Hs Ht Ha.
    assert (Hc : converging i = false).
    { unfold converging. apply andb_false_iff.
      destruct Ht as [Ht|Ht]; [left; apply Z.ltb_ge; lia|right].
      rewrite Z.gtb_ltb. apply Z.ltb_ge. lia. }
    destruct (Z.eq_dec (init s) 0) as [H0|H0].
    + destruct (select_gains_load i s Hc Ha H0) as (Lg & Li & Ll).
      split; [exact Lg|]. split; [exact Li|].
      split; [intros H; contradiction|intros _; exact Ll].
    + destruct (reachable_gains s Hs) as [IH|[I1 Ig]]; [contradiction|].
      rewrite (select_gains_keep i s Hc Ha H0).
      split; [exact Ig|]. split; [exact I1|].
      split; [reflexivity|intros H; contradiction].
  - intros fuel i s s' H.
    destruct (cycle_after_select_gains _ _ _ _ H) as (Hg & Hi & Hs & _).
    split; [exact Hg|]. split; [exact Hi|exact Hs].
  - exact loop_feeds.
  - intros fuel i0 i ins s s1 s' Hforced E0 Hrun Hst.
    destruct (cycle_after_select_gains _ _ _ _ E0)
      as (Hg & Hi & Hs & _).
    assert (F : gains (select_gains i0 s) = forced_gains
                /\ init (select_gains i0 s) = 0).
    { destruct Hforced as [Hc|Ha];
        [apply select_gains_converging, Hc|apply select_gains_arming, Ha]. }
    destruct F as [Fg Fi].
    destruct (steady_loop_loads fuel i ins s1 s' Hrun Hst)
      as (Lg & _ & evs & Hl & Hn); [congruence|].
    split; [congruence|]. split; [congruence|].
    exists evs. split; assumption.
Qed.

(** * The norm of the stored quaternion *)

Lemma unit_quaternion_identity : unit_quaternion q_identity.
Proof.
  split; [reflexivity|]. rewrite quat_norm_identity. split.
  - replace (1 - 1)%R with 0%R by ring. rewrite Rabs_R0. lra.
  - cbn [q0 q_identity]. rewrite F2R_one. lra.
Qed.

Lemma updateAttitude_unit : forall t a s,
  quat_below 50 (stepped_q t a s) = true ->
  unit_quaternion (q (updateAttitude t a s)).
Proof.
  intros t a s Hb. rewrite updateAttitude_q_mag.
  destruct (diverged (quat_mag (stepped_q t a s))) eqn:Hd.
  - exact unit_quaternion_identity.
  - exact (renormalised_unit (stepped_q t a s) Hb (stepped_q_sign t a s) Hd).
Qed.

Lemma steps_below_firstn : forall n k calls s,
  steps_below n calls s = true -> steps_below n (firstn k calls) s = true.
Proof.
  intros n k. induction k as [|k IH]; intros calls s H; [reflexivity|].
  destruct calls as [|[t a] rest]; [reflexivity|].
  cbn [firstn steps_below] in *. apply andb_true_iff in H as [H1 H2].
  rewrite H1. apply IH, H2.
Qed.

Lemma updateAttitude_run_unit : forall calls s,
  unit_quaternion (q s) -> steps_below 50 calls s = true ->
  unit_quaternion (q (updateAttitude_run calls s)).
Proof.
  induction calls as [|[t a] rest IH]; intros s Hs H; [exact Hs|].
  cbn [updateAttitude_run steps_below] in *.
  apply andb_true_iff in H as [H1 H2].
  apply IH; [apply updateAttitude_unit, H1|exact H2].
Qed.

(** C3: whatever the state and the readings, when the quaternion that the
    time step of a call of the filter update produces has components that
    are zeros or finite numbers of magnitude below 2^50, the quaternion the
    call stores has finite components, a Euclidean norm within 1e-5 of 1 and
    a scalar part that is not negative.  All arithmetic is the binary32 and
    binary64 arithmetic of the source: rounding, underflow, the sign flip and
    the reset to (1,0,0,0) are included.  The identity quaternion has these
    properties, and so has the stored quaternion after every call of any
    sequence of such calls that starts from it. *)
Theorem renormalisation_keeps_unit_norm :
  (forall t a s,
     quat_below 50 (stepped_q t a s) = true ->
     unit_quaternion (q (updateAttitude t a s)))
  /\ unit_quaternion q_identity
  /\ (forall calls s k,
     q s = q_identity -> steps_below 50 calls s = true ->
     unit_quaternion (q (updateAttitude_run (firstn k calls) s))).
Proof.
  split; [exact updateAttitude_unit|].
  split; [exact unit_quaternion_identity|].
  intros calls s k Hq H. apply updateAttitude_run_unit.
  - rewrite Hq. exact unit_quaternion_identity.
  - apply steps_below_firstn, H.
Qed.

(** * Further properties of the filter update *)

(** ** Not-a-number in the inputs *)

Lemma mul_nan_r : forall x, F32.mul x S754_nan = S754_nan.
Proof. intros [[|]|[|]| |[|] m e]; reflexivity. Qed.

Lemma add_nan_r : forall x, F32.add x S754_nan = S754_nan.
Proof. intros [[|]|[|]| |[|] m e]; reflexivity. Qed.

Lemma sub_nan_r : forall x, F32.sub x S754_nan = S754_nan.
Proof. intros [[|]|[|]| |[|] m e]; reflexivity. Qed.

Lemma div_nan_r : forall x, F32.div x S754_nan = S754_nan.
Proof. intros [[|]|[|]| |[|] m e]; reflexivity. Qed.

Lemma is_nan_eq : forall x, F32.is_nan x = true -> x = S754_nan.
Proof. intros [s|s| |s m e] H; try discriminate. reflexivity. Qed.

(** A not-a-number among the readings of the accelerometer makes all three
    components of the error a not-a-number. *)
Lemma accel_error_nan : forall qv a,
  has_nan3 a = true -> accel_error qv a = nan3.
Proof.
  intros qv [a0 a1 a2] H. unfold accel_error. cbv zeta. cbn [at0 at1 at2].
  assert (Hm : sqrt_to_float
                 (F32.add (F32.add (F32.mul a0 a0) (F32.mul a1 a1))
                          (F32.mul a2 a2)) = S754_nan).
  { unfold has_nan3 in H. cbn [at0 at1 at2] in H.
    rewrite !orb_true_iff in H.
    destruct H as [[H|H]|H]; apply is_nan_eq in H; subst;
      cbn [F32.mul SFmul]; rewrite ?add_nan_r; reflexivity. }
  rewrite Hm, !div_nan_r. reflexivity.
Qed.

(** A not-a-number in a rate, in the error or in the gain makes the
    corrected rate a not-a-number. *)
Lemma corrected_rates_nan : forall g e Kp dT,
  F32.is_nan (at0 g) || F32.is_nan (at0 e) || F32.is_nan Kp = true ->
  at0 (corrected_rates g e Kp dT) = S754_nan.
Proof.
  intros g e Kp dT H. unfold corrected_rates. cbn [at0].
  rewrite !orb_true_iff in H.
  destruct H as [[H|H]|H]; apply is_nan_eq in H; rewrite H.
  - reflexivity.
  - apply add_nan_r.
  - rewrite mul_nan_r. apply add_nan_r.
Qed.

Lemma corrected_rates_nan1 : forall g e Kp dT,
  F32.is_nan (at1 g) = true -> at1 (corrected_rates g e Kp dT) = S754_nan.
Proof.
  intros g e Kp dT H. unfold corrected_rates. cbn [at1].
  apply is_nan_eq in H. rewrite H. reflexivity.
Qed.

Lemma corrected_rates_nan2 : forall g e Kp dT,
  F32.is_nan (at2 g) = true -> at2 (corrected_rates g e Kp dT) = S754_nan.
Proof.
  intros g e Kp dT H. unfold corrected_rates. cbn [at2].
  apply is_nan_eq in H. rewrite H. reflexivity.
Qed.

Lemma qdot_scale_nan : forall dT, qdot_scale S754_nan dT = S754_nan.
Proof. reflexivity. Qed.

(** The time step hands a not-a-number on: from a component of the
    quaternion to that component, from a rate to the scalar part. *)
Lemma integrate_nan : forall qv g dT,
  has_nan4 qv = true \/ has_nan3 g = true ->
  has_nan4 (integrate qv g dT) = true.
Proof.
  intros [a b c d] [g0 g1 g2] dT H. unfold integrate. cbv zeta.
  assert (Hflip : forall n : arr4 float,
            has_nan4 n = true ->
            has_nan4 (if F32.ltb (q0 n) (F32.of_Z 0)
                      then Arr4 (F32.neg (q0 n)) (F32.neg (q1 n))
                                (F32.neg (q2 n)) (F32.neg (q3 n))
                      else n) = true).
  { intros [n0 n1 n2 n3] Hn. cbn [q0 q1 q2 q3].
    destruct (F32.ltb n0 (F32.of_Z 0)); [|exact Hn].
    unfold has_nan4 in Hn |- *. cbn [q0 q1 q2 q3] in Hn |- *.
    rewrite !orb_true_iff in Hn. rewrite !orb_true_iff.
    destruct Hn as [[[Hn|Hn]|Hn]|Hn]; apply is_nan_eq in Hn; subst;
      [left; left; left|left; left; right|left; right|right]; reflexivity. }
  apply Hflip. clear Hflip. unfold has_nan4, has_nan3 in H |- *.
  cbn [q0 q1 q2 q3 at0 at1 at2] in H |- *.
  rewrite !orb_true_iff in H. rewrite !orb_true_iff.
  destruct H as [[[[H|H]|H]|H]|[[H|H]|H]]; apply is_nan_eq in H; subst.
  - left. left. left. reflexivity.
  - left. left. right. reflexivity.
  - left. right. reflexivity.
  - right. reflexivity.
  - left. left. left.
    rewrite mul_nan_r. cbn [F32.sub SFsub]. rewrite qdot_scale_nan.
    rewrite add_nan_r. reflexivity.
  - left. left. left.
    rewrite mul_nan_r, sub_nan_r. cbn [F32.sub SFsub]. rewrite qdot_scale_nan.
    rewrite add_nan_r. reflexivity.
  - left. left. left.
    rewrite mul_nan_r, sub_nan_r, qdot_scale_nan.
    rewrite add_nan_r. reflexivity.
Qed.

Lemma has_nan4_mag : forall v, has_nan4 v = true -> quat_mag v = S754_nan.
Proof.
  intros v H. apply quat_mag_nan. unfold has_nan4 in H.
  rewrite !orb_true_iff in H.
  destruct H as [[[H|H]|H]|H]; apply is_nan_eq in H;
    [left|right; left|right; right; left|right; right; right]; exact H.
Qed.

Lemma stepped_q_nan : forall t a s,
  has_nan4 (q s) || has_nan3 (gyros a) || has_nan3 (accels a)
  || F32.is_nan (accelKp s) = true ->
  has_nan4 (stepped_q t a s) = true.
Proof.
  intros t a s H.
  unfold stepped_q. cbv zeta. apply integrate_nan.
  rewrite !orb_true_iff in H.
  destruct H as [[[H|H]|H]|H]; [left; exact H|right..].
  - unfold has_nan3 in H |- *. rewrite !orb_true_iff in H.
    rewrite !orb_true_iff.
    destruct H as [[H|H]|H].
    + left. left. rewrite corrected_rates_nan; [reflexivity|].
      rewrite H. reflexivity.
    + left. right. rewrite corrected_rates_nan1; [reflexivity|exact H].
    + right. rewrite corrected_rates_nan2; [reflexivity|exact H].
  - unfold has_nan3 at 1. rewrite corrected_rates_nan; [reflexivity|].
    rewrite (accel_error_nan _ _ H). cbn [nan3 at0 F32.is_nan].
    rewrite orb_true_r. reflexivity.
  - unfold has_nan3 at 1. rewrite corrected_rates_nan; [reflexivity|].
    rewrite H. apply orb_true_r.
Qed.

Lemma updateAttitude_nan : forall t a s,
  has_nan4 (stepped_q t a s) = true ->
  q (updateAttitude t a s) = q_identity
  /\ actual_q (AttitudeActual (updateAttitude t a s)) = q_identity.
Proof.
  intros t a s Hv.
  assert (D : diverged (quat_mag (stepped_q t a s)) = true).
  { rewrite (has_nan4_mag _ Hv). reflexivity. }
  rewrite updateAttitude_publishes_q, updateAttitude_q_mag, D.
  split; reflexivity.
Qed.

(** A not-a-number in a component of the stored quaternion, in a gyroscope
    or accelerometer reading, or in the proportional gain, never reaches the
    stored quaternion: the call of the filter update that meets it stores,
    and publishes, exactly (1,0,0,0). *)
Theorem nan_input_resets_quaternion : forall t a s,
  has_nan4 (q s) || has_nan3 (gyros a) || has_nan3 (accels a)
  || F32.is_nan (accelKp s) = true ->
  q (updateAttitude t a s) = q_identity
  /\ actual_q (AttitudeActual (updateAttitude t a s)) = q_identity.
Proof.
  intros t a s H. apply updateAttitude_nan, stepped_q_nan, H.
Qed.

(** ** A norm that overflows *)

Lemma div_by_infinity : forall x s,
  is_finite x = true -> is_zero (F32.div x (S754_infinity s)) = true.
Proof. intros [b|b| |b m e] s H; try discriminate; reflexivity. Qed.

Lemma is_zero_F2R : forall x, is_zero x = true -> F2R x = 0%R.
Proof. intros [b|b| |b m e] H; try discriminate; reflexivity. Qed.

(** The divergence test does not catch a norm that overflows.  When the
    norm [qmag] computed after the time step is +infinity while the four
    components are finite, the test does not trigger, every component is
    divided by infinity, and the quaternion stored is (0,0,0,0), of norm 0. *)
Theorem norm_overflow_stores_zero : forall t a s,
  stepped_qmag t a s = S754_infinity false ->
  quat_finite (stepped_q t a s) = true ->
  diverged (stepped_qmag t a s) = false
  /\ all_zero4 (q (updateAttitude t a s)) = true
  /\ quat_norm (q (updateAttitude t a s)) = 0%R.
Proof.
  intros t a s Hm Hf. rewrite updateAttitude_q, Hm.
  change (diverged (S754_infinity false)) with false. cbv zeta iota.
  unfold quat_finite in Hf. rewrite !andb_true_iff in Hf.
  destruct Hf as [[[F0 F1] F2] F3].
  pose proof (div_by_infinity _ false F0) as Z0.
  pose proof (div_by_infinity _ false F1) as Z1.
  pose proof (div_by_infinity _ false F2) as Z2.
  pose proof (div_by_infinity _ false F3) as Z3.
  split; [reflexivity|]. split.
  - unfold all_zero4. cbn [q0 q1 q2 q3]. rewrite Z0, Z1, Z2, Z3. reflexivity.
  - unfold quat_norm. cbn [q0 q1 q2 q3].
    rewrite (is_zero_F2R _ Z0), (is_zero_F2R _ Z1), (is_zero_F2R _ Z2),
      (is_zero_F2R _ Z3).
    replace (0 * 0 + 0 * 0 + 0 * 0 + 0 * 0)%R with 0%R by ring.
    apply sqrt_0.
Qed.

(** ** Zeros *)

Lemma mul_zero_class : forall x y,
  zero_or_nan x = true -> zero_or_nan (F32.mul x y) = true.
Proof.
  intros [a|a| |a m e] [b|b| |b n f] H; try discriminate; reflexivity.
Qed.

Lemma mul_zero_class_r : forall x y,
  zero_or_nan y = true -> zero_or_nan (F32.mul x y) = true.
Proof.
  intros [a|a| |a m e] [b|b| |b n f] H; try discriminate; reflexivity.
Qed.

Lemma add_zero_class : forall x y,
  zero_or_nan x = true -> zero_or_nan y = true ->
  zero_or_nan (F32.add x y) = true.
Proof.
  intros [[|]|a| |a m e] [[|]|b| |b n f] Hx Hy; try discriminate;
    reflexivity.
Qed.

Lemma sub_zero_class : forall x y,
  zero_or_nan x = true -> zero_or_nan y = true ->
  zero_or_nan (F32.sub x y) = true.
Proof.
  intros [[|]|a| |a m e] [[|]|b| |b n f] Hx Hy; try discriminate;
    reflexivity.
Qed.

Lemma neg_zero_class : forall x,
  zero_or_nan x = true -> zero_or_nan (F32.neg x) = true.
Proof. intros [a|a| |a m e] H; try discriminate; reflexivity. Qed.

Lemma div_zero_class : forall x y,
  zero_or_nan x = true -> zero_or_nan (F32.div x y) = true.
Proof.
  intros [a|a| |a m e] [b|b| |b n f] H; try discriminate; reflexivity.
Qed.

Lemma div_zero_by_zero : forall x y,
  zero_or_nan x = true -> is_zero y = true -> F32.div x y = S754_nan.
Proof.
  intros [a|a| |a m e] [b|b| |b n f] Hx Hy; try discriminate; reflexivity.
Qed.

Lemma is_zero_class : forall x, is_zero x = true -> zero_or_nan x = true.
Proof. intros [a|a| |a m e] H; try discriminate; reflexivity. Qed.

Lemma qdot_scale_zero_class : forall x dT,
  zero_or_nan x = true -> zero_or_nan (qdot_scale x dT) = true.
Proof.
  intros [a|a| |a m e] [b|b| |b n f] H; try discriminate; reflexivity.
Qed.

(** The magnitude of an accelerometer reading of zeros is zero. *)
Lemma accel_mag_zero : forall a0 a1 a2,
  is_zero a0 = true -> is_zero a1 = true -> is_zero a2 = true ->
  sqrt_to_float
    (F32.add (F32.add (F32.mul a0 a0) (F32.mul a1 a1)) (F32.mul a2 a2))
  = S754_zero false.
Proof.
  intros [[|]|a| |a m e] [[|]|b| |b n f] [[|]|c| |c k g] H0 H1 H2;
    try discriminate; reflexivity.
Qed.

Lemma accel_error_zero : forall qv a,
  all_zero3 a = true -> accel_error qv a = nan3.
Proof.
  intros qv [a0 a1 a2] H. unfold all_zero3 in H. cbn [at0 at1 at2] in H.
  rewrite !andb_true_iff in H. destruct H as [[H0 H1] H2].
  unfold accel_error. cbv zeta. cbn [at0 at1 at2].
  rewrite (accel_mag_zero _ _ _ H0 H1 H2).
  unfold CrossProduct, nan3. cbn [at0 at1 at2].
  apply is_zero_class in H0, H1, H2.
  f_equal; apply div_zero_by_zero; try reflexivity; apply sub_zero_class;
    first [apply mul_zero_class; assumption
          |apply mul_zero_class_r; assumption].
Qed.

(** What a call does to the bias integral. *)
Lemma updateAttitude_bias : forall t a s,
  gyro_correct_int (updateAttitude t a s)
  = let e := accel_error (q s) (accels a) in
    Arr3 (F32.add (at0 (gyro_correct_int s)) (F32.mul (at0 e) (accelKi s)))
         (F32.add (at1 (gyro_correct_int s)) (F32.mul (at1 e) (accelKi s)))
         (at2 (gyro_correct_int s)).
Proof.
  intros t a s. unfold updateAttitude. cbv zeta.
  match goal with |- context [if ?c then _ else _] => destruct c end;
    reflexivity.
Qed.

Lemma stepped_q_nan_error : forall t a s,
  accel_error (q s) (accels a) = nan3 ->
  has_nan4 (stepped_q t a s) = true.
Proof.
  intros t a s He. unfold stepped_q. cbv zeta. apply integrate_nan. right.
  unfold has_nan3 at 1. rewrite corrected_rates_nan; [reflexivity|].
  rewrite He. cbn [nan3 at0 F32.is_nan]. rewrite orb_true_r. reflexivity.
Qed.

(** An accelerometer reading of zeros (of either sign) makes the tilt
    error 0/0.  The call sets the quaternion back to (1,0,0,0), but the x and
    y components of the gyro bias integral have taken the not-a-number in,
    whatever they and the integral gain were. *)
Theorem zero_acceleration_poisons_bias : forall t a s,
  all_zero3 (accels a) = true ->
  accel_error (q s) (accels a) = nan3
  /\ q (updateAttitude t a s) = q_identity
  /\ at0 (gyro_correct_int (updateAttitude t a s)) = S754_nan
  /\ at1 (gyro_correct_int (updateAttitude t a s)) = S754_nan
  /\ at2 (gyro_correct_int (updateAttitude t a s)) = at2 (gyro_correct_int s).
Proof.
  intros t a s H. pose proof (accel_error_zero (q s) _ H) as He.
  split; [exact He|]. split.
  - rewrite updateAttitude_q_mag,
      (has_nan4_mag _ (stepped_q_nan_error t a s He)).
    reflexivity.
  - rewrite updateAttitude_bias. cbv zeta. rewrite He.
    cbn [nan3 at0 at1 at2 F32.mul SFmul]. rewrite !add_nan_r.
    repeat split.
Qed.

(** ** Level and at rest *)

Lemma gravity_body_identity :
  gravity_body q_identity
  = Arr3 (S754_zero true) (S754_zero true) (F32.neg F32.one).
Proof. vm_compute. reflexivity. Qed.

(** With the quaternion at the identity and an accelerometer reading along
    the body z axis, every component of the tilt error is a zero or a
    not-a-number. *)
Lemma accel_error_aligned : forall a,
  is_zero (at0 a) = true -> is_zero (at1 a) = true ->
  let e := accel_error q_identity a in
  zero_or_nan (at0 e) = true /\ zero_or_nan (at1 e) = true
  /\ zero_or_nan (at2 e) = true.
Proof.
  intros [a0 a1 a2] H0 H1. cbn [at0 at1 at2] in H0, H1 |- *.
  unfold accel_error. cbv zeta. rewrite gravity_body_identity.
  unfold CrossProduct. cbn [at0 at1 at2].
  apply is_zero_class in H0, H1.
  repeat split; apply div_zero_class, sub_zero_class;
    first [apply mul_zero_class; first [assumption|reflexivity]
          |apply mul_zero_class_r; first [assumption|reflexivity]].
Qed.

Lemma corrected_rate_zero_class : forall g e Kp dT,
  is_zero g = true -> zero_or_nan e = true ->
  zero_or_nan (F32.add g (F32.div (F32.mul e Kp) dT)) = true.
Proof.
  intros g e Kp dT Hg He.
  apply add_zero_class; [apply is_zero_class, Hg|].
  apply div_zero_class, mul_zero_class, He.
Qed.

(** The time step and the renormalisation on increments that are zeros or
    not-a-numbers. *)
Lemma renormalise_rest : forall d0 d1 d2 d3,
  zero_or_nan d0 = true -> zero_or_nan d1 = true ->
  zero_or_nan d2 = true -> zero_or_nan d3 = true ->
  let n := Arr4 (F32.add F32.one d0) (F32.add F32.zero d1)
                (F32.add F32.zero d2) (F32.add F32.zero d3) in
  let v := if F32.ltb (q0 n) (F32.of_Z 0)
           then Arr4 (F32.neg (q0 n)) (F32.neg (q1 n))
                     (F32.neg (q2 n)) (F32.neg (q3 n))
           else n in
  (if diverged (quat_mag v) then q_identity
   else Arr4 (F32.div (q0 v) (quat_mag v)) (F32.div (q1 v) (quat_mag v))
             (F32.div (q2 v) (quat_mag v)) (F32.div (q3 v) (quat_mag v)))
  = q_identity.
Proof.
  intros [[|]|a| |a m e] [[|]|b| |b n f] [[|]|c| |c k g] [[|]|d| |d l h]
    H0 H1 H2 H3; try discriminate; vm_compute; reflexivity.
Qed.

(** Level and at rest is a fixed point.  With the quaternion at
    (1,0,0,0), gyroscope readings of zero and an accelerometer reading along
    the body z axis (x and y zero, z anything at all), a call of the filter
    update stores (1,0,0,0) again, whatever the gain and the time step. *)
Theorem level_rest_is_fixed_point : forall t a s,
  q s = q_identity ->
  all_zero3 (gyros a) = true ->
  is_zero (at0 (accels a)) = true -> is_zero (at1 (accels a)) = true ->
  q (updateAttitude t a s) = q_identity.
Proof.
  intros t a s Hq Hg H0 H1. rewrite updateAttitude_q_mag.
  unfold stepped_q. cbv zeta. rewrite Hq.
  destruct (accel_error_aligned (accels a) H0 H1) as (E0 & E1 & E2).
  cbv zeta in E0, E1, E2.
  unfold all_zero3 in Hg. rewrite !andb_true_iff in Hg.
  destruct Hg as [[G0 G1] G2].
  set (dT := time_step t (lastSysTime s)).
  pose proof (corrected_rate_zero_class _ _ (accelKp s) dT G0 E0) as R0.
  pose proof (corrected_rate_zero_class _ _ (accelKp s) dT G1 E1) as R1.
  pose proof (corrected_rate_zero_class _ _ (accelKp s) dT G2 E2) as R2.
  unfold corrected_rates. unfold integrate. cbv zeta.
  cbn [at0 at1 at2 q0 q1 q2 q3 q_identity].
  apply renormalise_rest; apply qdot_scale_zero_class;
    repeat first [apply add_zero_class | apply sub_zero_class];
    apply mul_zero_class_r; assumption.
Qed.

(** * The sensor stage beyond the accelerometer *)

(** What a call of [updateSensors] that returns has computed, in terms of
    what its two FIFO loops read. *)
Lemma updateSensors_reading : forall fuel i a s r a' s',
  updateSensors fuel i a s = Some (r, a', s') ->
  exists da ca acca dg cg accg s1,
    read_all (accel_fifo i) accum_accel fuel = Some (da, ca, acca)
    /\ read_all (gyro_fifo i) accum_gyro fuel = Some (dg, cg, accg)
    /\ s' = updateBaro i s1
    /\ baro_conversions s1 = baro_conversions s
    /\ BaroAltitude s1 = BaroAltitude s
    /\ log s1 = log s ++ [EvAttitudeRawSet (raw s)]
    /\ magnetometers a'
       = match mag_new i with
         | Some v => Arr3 (F32.of_Z (- at0 v)) (F32.of_Z (- at1 v))
                          (F32.of_Z (- at2 v))
         | None => magnetometers a
         end
    /\ gyros a'
       = (let sc := F32.div (gyro_scale i) (F32.of_Z (wrap_u32 cg)) in
          let g := Arr3 (F32.mul (F32.neg (F32.of_Z (at1 accg))) sc)
                        (F32.mul (F32.neg (F32.of_Z (at0 accg))) sc)
                        (F32.mul (F32.neg (F32.of_Z (at2 accg))) sc) in
          if bias_correct_gyro s
          then Arr3 (F32.add (at0 g) (at0 (gyro_correct_int s)))
                    (F32.add (at1 g) (at1 (gyro_correct_int s)))
                    (F32.add (at2 g) (at2 (gyro_correct_int s)))
          else g)
    /\ gyro_correct_int s1
       = Arr3 (at0 (gyro_correct_int s)) (at1 (gyro_correct_int s))
              (F32.add (at2 (gyro_correct_int s))
                       (F32.mul (F32.neg (at2 (gyros a'))) (yawBiasRate s)))
    /\ bias_correct_gyro s1 = bias_correct_gyro s
    /\ accelKp s1 = accelKp s /\ q s1 = q s
    /\ gyro s1
       = mkMpu6050 (gyro_x dg) (gyro_y dg) (gyro_z dg)
           (wrap_s16 (F32.to_Z
              (F32.add (literal_f 35 1)
                 (F32.div (F32.add (F32.of_Z (mpu_temperature dg))
                                   (F32.of_Z 13200))
                          (F32.of_Z 280)))))
    /\ temperature_gyro a' = F32.of_Z (mpu_temperature (gyro s1))
    /\ temperature_accel a'
       = F32.add (literal_f 25 1)
           (F32.div (F32.sub (F32.of_Z (bma_temperature da)) (F32.of_Z 2))
                    (F32.of_Z 2)).
Proof.
  intros fuel i a s r a' s'. unfold updateSensors. cbv zeta.
  destruct (read_all (accel_fifo i) accum_accel fuel) as [[[da ca] acca]|];
    [|discriminate].
  destruct (read_all (gyro_fifo i) accum_gyro fuel) as [[[dg cg] accg]|];
    [|discriminate].
  unfold updateSensors_tail. cbv zeta. intros H. inversion H; subst; clear H.
  exists da, ca, acca, dg, cg, accg. eexists.
  split; [reflexivity|]. split; [reflexivity|]. split; [reflexivity|].
  cbn [baro_conversions BaroAltitude log magnetometers gyros gyro_correct_int
       bias_correct_gyro accelKp q gyro temperature_gyro temperature_accel
       AttitudeRawSet emit set_log set_AttitudeRaw set_gyro_correct_int
       set_gyro set_scaling set_gyro_samples set_gyro_accum set_accel_samples
       set_accel_accum set_accel scaling gyro_accum gyro_samples yawBiasRate
       accel gyro_x gyro_y gyro_z mpu_temperature set_at2 at0 at1 at2].
  destruct (bias_correct_gyro s); repeat split.
Qed.

Lemma updateBaro_gyro_state : forall i s,
  gyro (updateBaro i s) = gyro s
  /\ bias_correct_gyro (updateBaro i s) = bias_correct_gyro s
  /\ accelKp (updateBaro i s) = accelKp s.
Proof.
  intros i s. unfold updateBaro.
  destruct (baro_adc i =? 0); [|repeat split].
  destruct (negb (baro_conversions s mod 2 =? 0)); cbv zeta; repeat split.
Qed.

(** An iteration that returns, as the state its call of [updateSensors] was
    entered with, the record that call filled, and the state handed to the
    barometer part. *)
Lemma cycle_reading : forall fuel i s s',
  AttitudeTask_cycle fuel i s = Some s' ->
  exists a' s1 evg,
    updateSensors fuel (sensors i) (AttitudeRaw s)
      (emit (EvGet ObjAttitudeRaw) (emit EvWDG_UpdateFlag (select_gains i s)))
    = Some (0, a', updateBaro (sensors i) s1)
    /\ s' = emit (EvTaskDelay 1)
              (AlarmsClear (AttitudeRawSet a' (updateBaro (sensors i) s1)))
    /\ baro_conversions s1 = baro_conversions s
    /\ BaroAltitude s1 = BaroAltitude s
    /\ log s1 = log s ++ evg ++ [EvWDG_UpdateFlag; EvGet ObjAttitudeRaw;
                                 EvAttitudeRawSet (raw s)]
    /\ forallb is_read evg = true.
Proof.
  intros fuel i s s' H.
  destruct (cycle_inv _ _ _ _ H) as (a' & s2 & E & ->).
  destruct (select_gains_frame i s) as (_ & Graw & _ & GR & _).
  cbv zeta in Graw, GR. rewrite GR in E.
  destruct (updateSensors_reading _ _ _ _ _ _ _ E)
    as (da & ca & acca & dg & cg & accg & s1 & _ & _ & -> & Hb & HB & Hl & _).
  destruct (select_gains_log i s) as (evg & Hg & Hr).
  exists a', s1, evg. split; [exact E|]. split; [reflexivity|].
  split.
  { rewrite Hb. unfold select_gains. cbv zeta.
    destruct ((tick_a i <? 7000) && (tick_b i >? 1000)); [reflexivity|].
    cbn [zero_during_arming emit set_log].
    destruct (zero_during_arming s
              && (flightStatus_Armed i =? FLIGHTSTATUS_ARMED_ARMING));
      [reflexivity|].
    cbn [init emit set_log]. destruct (init s =? 0); reflexivity. }
  split.
  { rewrite HB. unfold select_gains. cbv zeta.
    destruct ((tick_a i <? 7000) && (tick_b i >? 1000)); [reflexivity|].
    cbn [zero_during_arming emit set_log].
    destruct (zero_during_arming s
              && (flightStatus_Armed i =? FLIGHTSTATUS_ARMED_ARMING));
      [reflexivity|].
    cbn [init emit set_log]. destruct (init s =? 0); reflexivity. }
  split; [|exact Hr].
  rewrite Hl. cbn [log raw emit set_log]. rewrite Hg, Graw.
  rewrite <- !app_assoc. reflexivity.
Qed.

(** ** The gyroscope reading *)

(** The gyroscope reading an iteration publishes: the x rate comes from the
    sensor's y axis and the y rate from its x axis, each the 32-bit sum of
    all the samples drained, negated, times the quotient of the driver's
    scale by the number of samples; the bias integral is added to each
    component when [bias_correct_gyro] is set, and not otherwise. *)
Theorem gyro_reading_swaps_axes : forall fuel i s k d l kg dg lg,
  accel_fifo (sensors i) = fifo_of k (d :: l) ->
  gyro_fifo (sensors i) = fifo_of kg (dg :: lg) ->
  (fuel > k + length l)%nat -> (fuel > kg + length lg)%nat ->
  exists s',
    AttitudeTask_cycle fuel i s = Some s'
    /\ let scaling :=
         F32.div (gyro_scale (sensors i))
           (F32.of_Z (wrap_u32 (wrap_s32 (Z.of_nat (length (dg :: lg)))))) in
       let rate axis :=
         F32.mul (F32.neg (F32.of_Z (wrap_s32 (sum_of axis (dg :: lg)))))
                 scaling in
       let biased x b :=
         if bias_correct_gyro s then F32.add x b else x in
       gyros (AttitudeRaw s')
       = Arr3 (biased (rate gyro_y) (at0 (gyro_correct_int s)))
              (biased (rate gyro_x) (at1 (gyro_correct_int s)))
              (biased (rate gyro_z) (at2 (gyro_correct_int s))).
Proof.
  intros fuel i s k d l kg dg lg Ha Hg Hf Hfg.
  destruct (cycle_fed fuel i s k d l kg dg lg Ha Hg Hf Hfg)
    as (a' & s2 & E & Ec).
  destruct (updateSensors_fed fuel (sensors i) (AttitudeRaw s)
              (emit (EvGet ObjAttitudeRaw)
                 (emit EvWDG_UpdateFlag (select_gains i s)))
              k d l kg dg lg Ha Hg Hf Hfg)
    as (a2 & s3 & E2 & _ & Hgy & _).
  rewrite E in E2. inversion E2; subst a2 s3; clear E2.
  eexists. split; [exact Ec|].
  cbn [AttitudeRaw emit set_log AlarmsClear AttitudeRawSet
       set_alarm_attitude set_AttitudeRaw].
  rewrite Hgy. cbv zeta.
  destruct (select_gains_frame i s) as (_ & _ & Gb & _). cbv zeta in Gb.
  cbn [bias_correct_gyro gyro_correct_int emit set_log].
  rewrite select_gains_bias_flag, Gb.
  destruct (bias_correct_gyro s); reflexivity.
Qed.

(** ** The magnetometer *)



(** ** The temperatures *)


(** ** What the sensor stage does not use *)

(** The board rotation matrix, the [rotate] flag, the accelerometer bias and
    the gyroscope gain, which the settings callback computes and stores, take
    no part in the reading: [updateSensors] returns the same value and fills
    the same record whatever they hold. *)
Theorem rotation_and_bias_settings_unused : forall fuel i a s m n b g,
  reading_of (updateSensors fuel i a
                (set_R m (set_rotate n (set_accelbias b (set_gyroGain g s)))))
  = reading_of (updateSensors fuel i a s).
Proof.
  intros fuel i a s m n b g. unfold updateSensors. cbv zeta.
  destruct (read_all (accel_fifo i) accum_accel fuel) as [[[da ca] acca]|];
    [|reflexivity].
  destruct (read_all (gyro_fifo i) accum_gyro fuel) as [[[dg cg] accg]|];
    [|reflexivity].
  reflexivity.
Qed.

(** ** The barometer *)

Lemma forallb_read_no_pressure : forall evs,
  forallb is_read evs = true ->
  existsb is_pressure_start evs = false
  /\ existsb is_BaroAltitudeSet evs = false.
Proof.
  induction evs as [|e evs IH]; [split; reflexivity|].
  cbn. destruct e; cbn; try discriminate. exact IH.
Qed.

(** The barometer events of an iteration, by what [PIOS_BMP085_ReadADC]
    returned and the number of conversions completed so far. *)
Lemma cycle_baro : forall fuel i s s',
  AttitudeTask_cycle fuel i s = Some s' ->
  0 <= baro_conversions s < 2 ^ 32 ->
  exists evg evb,
    log s' = log s ++ evg
             ++ [EvWDG_UpdateFlag; EvGet ObjAttitudeRaw;
                 EvAttitudeRawSet (raw s)]
             ++ evb ++ [EvAttitudeRawSet (AttitudeRaw s'); EvAlarmsClear;
                        EvTaskDelay 1]
    /\ forallb is_read evg = true
    /\ (baro_adc (sensors i) <> 0 ->
        evb = [] /\ baro_conversions s' = baro_conversions s
        /\ BaroAltitude s' = BaroAltitude s)
    /\ (baro_adc (sensors i) = 0 ->
        baro_conversions s' = (baro_conversions s + 1) mod 2 ^ 32
        /\ (Z.even (baro_conversions s) = false ->
            evb = [EvBMP085_StartADC PressureConv]
            /\ BaroAltitude s' = BaroAltitude s)
        /\ (Z.even (baro_conversions s) = true ->
            evb = [EvBMP085_StartADC TemperatureConv; EvGet ObjBaroAltitude;
                   EvBaroAltitudeSet (BaroAltitude s')]
            /\ Pressure (BaroAltitude s')
               = F32.div (F32.of_Z (baro_pressure (sensors i)))
                         (literal_f 1000 1)
            /\ Temperature (BaroAltitude s')
               = F32.div (F32.of_Z (baro_temperature (sensors i)))
                         (literal_f 10 1))).
Proof.
  intros fuel i s s' H Hn.
  destruct (cycle_reading _ _ _ _ H)
    as (a' & s1 & evg & _ & -> & Hb & HB & Hl & Hr).
  exists evg.
  cbn [log AttitudeRaw baro_conversions BaroAltitude emit AlarmsClear
       AttitudeRawSet set_log set_alarm_attitude set_AttitudeRaw].
  unfold updateBaro.
  destruct (Z.eqb_spec (baro_adc (sensors i)) 0) as [E0|E0].
  - assert (Hpar : (baro_conversions s1 mod 2 =? 0)
                   = Z.even (baro_conversions s)).
    { rewrite Hb, Zeven_mod. reflexivity. }
    rewrite Hpar.
    destruct (Z.even (baro_conversions s)) eqn:Ev; cbn [negb]; cbv zeta.
    + cbn [log BaroAltitude BaroAltitudeSet emit set_log set_BaroAltitude
           set_baro_conversions].
      match goal with
      | |- context [EvBaroAltitudeSet ?d] =>
          exists [EvBMP085_StartADC TemperatureConv; EvGet ObjBaroAltitude;
                  EvBaroAltitudeSet d]
      end.
      split.
      { rewrite Hl, <- !app_assoc. cbn [app]. reflexivity. }
      split; [exact Hr|]. split; [intros; contradiction|].
      intros _. split.
      { cbn [baro_conversions BaroAltitudeSet emit set_log set_BaroAltitude
             set_baro_conversions].
        rewrite Hb. reflexivity. }
      split; [discriminate|]. intros _.
      cbn [BaroAltitude BaroAltitudeSet emit set_log set_BaroAltitude
           set_baro_conversions Pressure Temperature].
      repeat split.
    + exists [EvBMP085_StartADC PressureConv]. split.
      { cbn [log emit set_log set_baro_conversions].
        rewrite Hl, <- !app_assoc. cbn [app]. reflexivity. }
      split; [exact Hr|]. split; [intros; contradiction|].
      intros _. split.
      { cbn [baro_conversions emit set_log set_baro_conversions].
        rewrite Hb. reflexivity. }
      split; [|discriminate]. intros _.
      cbn [BaroAltitude emit set_log set_baro_conversions].
      split; [reflexivity|exact HB].
  - exists []. split.
    { rewrite Hl, <- !app_assoc. cbn [app]. reflexivity. }
    split; [exact Hr|]. split; [|intros; contradiction].
    intros _. split; [reflexivity|]. split; [exact Hb|exact HB].
Qed.

(** Completed barometer conversions are answered in turn: the iteration
    that sees an even number of earlier completions starts a temperature
    conversion and publishes the altitude object, with the pressure the
    driver reports divided by 1000 and its temperature divided by 10; the
    one that sees an odd number starts a pressure conversion and publishes
    nothing; one that finds no conversion completed does neither.  So two
    completions in a row always give one publication. *)
Theorem baro_publishes_every_other_conversion : forall fuel i j s s1 s2,
  0 <= baro_conversions s < 2 ^ 32 ->
  baro_adc (sensors i) = 0 -> baro_adc (sensors j) = 0 ->
  AttitudeTask_cycle fuel i s = Some s1 ->
  AttitudeTask_cycle fuel j s1 = Some s2 ->
  exists evs,
    log s2 = log s ++ evs
    /\ length (filter is_BaroAltitudeSet evs) = 1%nat
    /\ length (filter is_pressure_start evs) = 1%nat
    /\ Z.even (baro_conversions s2) = Z.even (baro_conversions s)
    /\ (Z.even (baro_conversions s) = true ->
        BaroAltitude s2 = BaroAltitude s1
        /\ Pressure (BaroAltitude s2)
           = F32.div (F32.of_Z (baro_pressure (sensors i)))
                     (literal_f 1000 1))
    /\ (Z.even (baro_conversions s) = false ->
        BaroAltitude s1 = BaroAltitude s
        /\ Pressure (BaroAltitude s2)
           = F32.div (F32.of_Z (baro_pressure (sensors j)))
                     (literal_f 1000 1)).
Proof.
  intros fuel i j s s1 s2 Hn Hi Hj E1 E2.
  destruct (cycle_baro _ _ _ _ E1 Hn)
    as (evg1 & evb1 & Hl1 & Hr1 & _ & Hc1).
  destruct (Hc1 Hi) as (Hn1 & Hodd1 & Hev1). clear Hc1.
  assert (Hn1' : 0 <= baro_conversions s1 < 2 ^ 32).
  { rewrite Hn1. apply Z.mod_pos_bound. lia. }
  destruct (cycle_baro _ _ _ _ E2 Hn1')
    as (evg2 & evb2 & Hl2 & Hr2 & _ & Hc2).
  destruct (Hc2 Hj) as (Hn2 & Hodd2 & Hev2). clear Hc2.
  assert (Hflip : Z.even (baro_conversions s1)
                  = negb (Z.even (baro_conversions s))).
  { rewrite Hn1, Zeven_mod, Zeven_mod.
    rewrite Z.mod_mod_divide by (exists (2 ^ 31); reflexivity).
    rewrite <- Zeven_mod, <- Zeven_mod, Z.even_add. cbn.
    destruct (Z.even (baro_conversions s)); reflexivity. }
  assert (Hflip2 : Z.even (baro_conversions s2)
                   = negb (Z.even (baro_conversions s1))).
  { rewrite Hn2, Zeven_mod, Zeven_mod.
    rewrite Z.mod_mod_divide by (exists (2 ^ 31); reflexivity).
    rewrite <- Zeven_mod, <- Zeven_mod, Z.even_add. cbn.
    destruct (Z.even (baro_conversions s1)); reflexivity. }
  destruct (forallb_read_no_pressure _ Hr1) as (P1 & B1).
  destruct (forallb_read_no_pressure _ Hr2) as (P2 & B2).
  assert (F : forall f evs, existsb f evs = false ->
                            @filter Event f evs = []).
  { intros f evs. induction evs as [|e evs IH]; [reflexivity|].
    cbn. destruct (f e); [discriminate|]. exact IH. }
  eexists. split.
  { rewrite Hl2, Hl1, <- !app_assoc. reflexivity. }
  rewrite !filter_app, (F _ _ P1), (F _ _ P2), (F _ _ B1), (F _ _ B2).
  destruct (Z.even (baro_conversions s)) eqn:Ev.
  - destruct (Hev1 eq_refl) as (-> & HP1 & _).
    rewrite Hflip in Hodd2. destruct (Hodd2 eq_refl) as (-> & HB2).
    cbn. split; [reflexivity|]. split; [reflexivity|].
    split; [rewrite Hflip2, Hflip; reflexivity|].
    split; [|discriminate]. intros _. split; [exact HB2|].
    rewrite HB2. exact HP1.
  - destruct (Hodd1 eq_refl) as (-> & HB1).
    rewrite Hflip in Hev2. destruct (Hev2 eq_refl) as (-> & HP2 & _).
    cbn. split; [reflexivity|]. split; [reflexivity|].
    split; [rewrite Hflip2, Hflip; reflexivity|].
    split; [discriminate|]. intros _. split; [exact HB1|exact HP2].
Qed.

(** The state and the log when the task enters its loop. *)
Lemma start_baro : forall settings tests,
  let s0 := AttitudeTask_start tests
              (AttitudeInitialize (reset_state settings)) in
  baro_conversions s0 = 0
  /\ existsb is_pressure_start (log s0) = false
  /\ existsb is_BaroAltitudeSet (log s0) = false
  /\ q s0 = q_identity
  /\ actual_q (AttitudeActual s0) = q_identity.
Proof.
  intros settings [[[ta tg] tm] tp]. cbv zeta.
  unfold AttitudeTask_start, settingsUpdatedCb. cbv zeta.
  destruct ((at0 (BoardRotation
                (AttitudeSettings
                   (emit (EvGet ObjAttitudeSettings)
                      (AlarmsClear
                         (set_init 0
                            (AttitudeInitialize (reset_state settings))))))) =? 0)
            && _ && _); repeat split.
Qed.

(** The first altitude is published before any pressure has been measured.
    The task starts a temperature conversion before its loop, and the
    counter of completed conversions starts at 0: the iteration that sees
    the first completion takes the publishing branch, so the altitude object
    it publishes is computed from [PIOS_BMP085_GetPressure] although no
    pressure conversion has been started since the task began. *)
Theorem first_altitude_precedes_pressure_conversion :
  forall settings tests fuel ins i s1 s',
  Forall (fun j => baro_adc (sensors j) <> 0) ins ->
  AttitudeTask_loop fuel ins
    (AttitudeTask_start tests (AttitudeInitialize (reset_state settings)))
  = Some s1 ->
  baro_adc (sensors i) = 0 ->
  AttitudeTask_cycle fuel i s1 = Some s' ->
  existsb is_BaroAltitudeSet (log s1) = false
  /\ existsb is_pressure_start (log s') = false
  /\ In (EvBaroAltitudeSet (BaroAltitude s')) (log s')
  /\ Pressure (BaroAltitude s')
     = F32.div (F32.of_Z (baro_pressure (sensors i))) (literal_f 1000 1).
Proof.
  intros settings tests fuel ins i s1 s' Hins Hloop Hi Hc.
  destruct (start_baro settings tests) as (H0 & HP0 & HB0 & _).
  cbv zeta in H0, HP0, HB0.
  assert (Inv : baro_conversions s1 = 0
                /\ existsb is_pressure_start (log s1) = false
                /\ existsb is_BaroAltitudeSet (log s1) = false).
  { revert Hins Hloop H0 HP0 HB0.
    generalize (AttitudeTask_start tests
                  (AttitudeInitialize (reset_state settings))).
    induction ins as [|j ins IH]; intros s Hins Hloop H0 HP0 HB0.
    - cbn in Hloop. inversion Hloop; subst. repeat split; assumption.
    - cbn [AttitudeTask_loop] in Hloop.
      destruct (AttitudeTask_cycle fuel j s) as [s2|] eqn:E; [|discriminate].
      inversion Hins as [|j' ins' Hj Hr]; subst.
      destruct (cycle_baro _ _ _ _ E) as (evg & evb & Hl & Hrd & Hno & _);
        [rewrite H0; lia|].
      destruct (Hno Hj) as (-> & Hb & _).
      destruct (forallb_read_no_pressure _ Hrd) as (P & B).
      apply (IH s2 Hr Hloop); [rewrite Hb; exact H0| |].
      + rewrite Hl, !existsb_app, HP0, P. reflexivity.
      + rewrite Hl, !existsb_app, HB0, B. reflexivity. }
  destruct Inv as (H1 & HP1 & HB1).
  destruct (cycle_baro _ _ _ _ Hc) as (evg & evb & Hl & Hrd & _ & Hyes);
    [rewrite H1; lia|].
  destruct (Hyes Hi) as (_ & _ & Hev).
  destruct Hev as (-> & HPr & _); [rewrite H1; reflexivity|].
  destruct (forallb_read_no_pressure _ Hrd) as (P & B).
  split; [exact HB1|]. split.
  - rewrite Hl, !existsb_app, HP1, P. reflexivity.
  - split; [|exact HPr].
    rewrite Hl. apply in_or_app. right. apply in_or_app. right.
    apply in_or_app. right. cbn. right. right. left. reflexivity.
Qed.

(** * The task as a whole *)

Lemma cycle_keeps_attitude : forall fuel i s s',
  AttitudeTask_cycle fuel i s = Some s' ->
  q s' = q s /\ AttitudeActual s' = AttitudeActual s
  /\ lastSysTime s' = lastSysTime s.
Proof.
  intros fuel i s s' H.
  destruct (cycle_inv _ _ _ _ H) as (a' & s2 & E & ->).
  destruct (updateSensors_frame _ _ _ _ _ _ _ E)
    as (Hq & _ & _ & _ & Ha & _ & _ & Ht & _).
  destruct (select_gains_frame i s) as (Gq & _ & _ & _ & Ga & _ & _ & Gt & _).
  cbv zeta in Gq, Ga, Gt. cbn. rewrite Hq, Ha, Ht. repeat split; assumption.
Qed.

(** The attitude this module publishes never moves.  Initialisation sets
    the quaternion to (1,0,0,0) and publishes it; the task loop then never
    calls the filter, so after any number of iterations the stored
    quaternion and the quaternion of the AttitudeActual object are still
    (1,0,0,0), whatever the sensors delivered, and the time of the last
    filter step is still 0. *)
Theorem task_attitude_stays_identity : forall settings tests fuel ins s',
  AttitudeTask_loop fuel ins
    (AttitudeTask_start tests (AttitudeInitialize (reset_state settings)))
  = Some s' ->
  q s' = q_identity
  /\ actual_q (AttitudeActual s') = q_identity
  /\ lastSysTime s' = 0.
Proof.
  intros settings tests fuel ins s' H.
  assert (K : forall ins s s', AttitudeTask_loop fuel ins s = Some s' ->
              q s' = q s /\ AttitudeActual s' = AttitudeActual s
              /\ lastSysTime s' = lastSysTime s).
  { clear. induction ins as [|i ins IH]; intros s s' H.
    - cbn in H. inversion H. repeat split.
    - cbn [AttitudeTask_loop] in H.
      destruct (AttitudeTask_cycle fuel i s) as [s1|] eqn:E; [|discriminate].
      destruct (cycle_keeps_attitude _ _ _ _ E) as (A & B & C).
      destruct (IH _ _ H) as (A' & B' & C').
      repeat split; congruence. }
  destruct (K _ _ _ H) as (-> & -> & ->).
  destruct (start_baro settings tests) as (_ & _ & _ & Hq & Ha).
  cbv zeta in Hq, Ha. split; [exact Hq|]. split; [exact Ha|].
  destruct tests as [[[ta tg] tm] tp].
  unfold AttitudeTask_start, settingsUpdatedCb. cbv zeta.
  destruct ((at0 (BoardRotation
                (AttitudeSettings
                   (emit (EvGet ObjAttitudeSettings)
                      (AlarmsClear
                         (set_init 0
                            (AttitudeInitialize (reset_state settings))))))) =? 0)
            && _ && _); reflexivity.
Qed.

(** ** A change of settings *)

Lemma settingsUpdatedCb_gains : forall c s,
  let s0 := settingsUpdatedCb (set_AttitudeSettings c s) in
  gains s0 = configured_gains c /\ AttitudeSettings s0 = c
  /\ init s0 = init s
  /\ gyro_correct_int s0
     = Arr3 (F32.div (F32.of_Z (at0 (GyroBias c))) (literal_f 100 1))
            (F32.div (F32.of_Z (at1 (GyroBias c))) (literal_f 100 1))
            (F32.div (F32.of_Z (at2 (GyroBias c))) (literal_f 100 1))
  /\ q s0 = q s.
Proof.
  intros c s. cbv zeta. unfold settingsUpdatedCb. cbv zeta.
  cbn [AttitudeSettings emit set_log set_AttitudeSettings].
  destruct ((at0 (BoardRotation c) =? 0) && (at1 (BoardRotation c) =? 0)
            && (at2 (BoardRotation c) =? 0)); repeat split.
Qed.

(** A change of the settings object takes effect at once and for good.  The
    callback stores the new gains, and sets the bias integral to the
    configured gyroscope bias over 100, whatever had been learnt.  The next
    iteration of the loop, outside the start-up window and the arming
    transition, ends with the new gains, whether or not the gains had been
    loaded before; inside them it ends with the forced gains. *)
Theorem settings_update_takes_effect : forall c s fuel i s',
  AttitudeTask_cycle fuel i (settingsUpdatedCb (set_AttitudeSettings c s))
  = Some s' ->
  gyro_correct_int (settingsUpdatedCb (set_AttitudeSettings c s))
  = Arr3 (F32.div (F32.of_Z (at0 (GyroBias c))) (literal_f 100 1))
         (F32.div (F32.of_Z (at1 (GyroBias c))) (literal_f 100 1))
         (F32.div (F32.of_Z (at2 (GyroBias c))) (literal_f 100 1))
  /\ (converging i = false ->
      arming i (settingsUpdatedCb (set_AttitudeSettings c s)) = false ->
      gains s' = configured_gains c)
  /\ (converging i = true
      \/ arming i (settingsUpdatedCb (set_AttitudeSettings c s)) = true ->
      gains s' = forced_gains).
Proof.
  intros c s fuel i s' H.
  destruct (settingsUpdatedCb_gains c s) as (Hg & Hs & _ & Hb & _).
  cbv zeta in Hg, Hs, Hb.
  destruct (cycle_after_select_gains _ _ _ _ H) as (Hg' & _).
  split; [exact Hb|]. split.
  - intros Hc Ha. rewrite Hg'.
    destruct (Z.eq_dec
                (init (settingsUpdatedCb (set_AttitudeSettings c s))) 0)
      as [E|E].
    + destruct (select_gains_load i _ Hc Ha E) as (-> & _).
      rewrite Hs. reflexivity.
    + rewrite (select_gains_keep i _ Hc Ha E). exact Hg.
  - intros [Hc|Ha]; rewrite Hg'.
    + apply (select_gains_converging i _ Hc).
    + apply (select_gains_arming i _ Ha).
Qed.

(** * The time step *)

Lemma wrap_u32_diff : forall t last d,
  wrap_u32 (wrap_u32 (t + d) - wrap_u32 (last + d)) = wrap_u32 (t - last).
Proof.
  intros t last d. unfold wrap_u32.
  rewrite <- Zminus_mod. f_equal. lia.
Qed.

(** The time step follows the tick counter around its wrap.  With a 32-bit
    counter, [dT] depends only on the number of ticks elapsed modulo 2^32:
    moving both tick counts by the same amount, across the wrap or not,
    leaves it unchanged, so a count that has wrapped past the previous one
    gives the step of the ticks actually elapsed. *)
Theorem time_step_follows_counter_wrap : forall t last d,
  0 <= t < 2 ^ 32 -> 0 <= last < 2 ^ 32 ->
  time_step (wrap_u32 (t + d)) (wrap_u32 (last + d)) = time_step t last
  /\ (t <> last ->
      time_step t last
      = F32.div
          (F32.of_Z (Z.land portMAX_DELAY (wrap_u32 (t - last))
                     / portTICK_RATE_MS))
          (literal_f 1000 1)).
Proof.
  intros t last d Ht Hl. unfold time_step.
  destruct (Z.eqb_spec t last) as [E|E].
  - subst. rewrite Z.eqb_refl. split; [reflexivity|]. intros C. contradiction.
  - assert (N : wrap_u32 (t + d) <> wrap_u32 (last + d)).
    { intros C. apply E.
      pose proof (wrap_u32_diff t last d) as W. rewrite C, Z.sub_diag in W.
      unfold wrap_u32 in W. rewrite Z.mod_0_l in W by lia. symmetry in W.
      apply Z.mod_divide in W; [|lia]. destruct W as [c Hc].
      assert (c = 0) by nia. lia. }
    apply Z.eqb_neq in N. rewrite N, wrap_u32_diff.
    split; reflexivity.
Qed.

(** The guard on the time step covers equal tick counts only.  When the
    tick period [portTICK_RATE_MS] is longer than 1 and fewer ticks than
    that have elapsed since the previous call, the integer division gives 0
    and [dT] is zero, not the nominal 0.001. *)
Theorem time_step_zero_within_tick_period : forall t last,
  portMAX_DELAY = 4294967295 ->
  0 <= last < t -> t < 2 ^ 32 ->
  t - last < portTICK_RATE_MS ->
  time_step t last = F32.zero.
Proof.
  intros t last HM Hl Ht Hr. unfold time_step.
  destruct (Z.eqb_spec t last) as [E|E]; [lia|].
  rewrite HM. change 4294967295 with (Z.ones 32).
  rewrite Z.land_comm, Z.land_ones by lia.
  unfold wrap_u32. rewrite Z.mod_mod by lia.
  rewrite (Z.mod_small (t - last)) by lia.
  rewrite Z.div_small by lia. reflexivity.
Qed.

(** * A bias integral that is not a number *)

Lemma add_nan_l : forall y, F32.add S754_nan y = S754_nan.
Proof. intros y. reflexivity. Qed.

Lemma updateAttitude_bias_flag : forall t a s,
  bias_correct_gyro (updateAttitude t a s) = bias_correct_gyro s.
Proof.
  intros t a s. unfold updateAttitude. cbv zeta.
  match goal with |- context [if ?c then _ else _] => destruct c end;
    reflexivity.
Qed.

(** A not-a-number in the x or y component of the bias integral stays
    there, and with bias correction on it locks the filter: a call of
    [updateSensors] hands it on in the gyroscope reading, and the filter
    update fed with that reading stores (1,0,0,0) and leaves the state as it
    found it in this respect, so the same happens on every later call. *)
Theorem nan_bias_locks_the_filter : forall fuel i a s r a' s' t,
  bias_correct_gyro s = true ->
  F32.is_nan (at0 (gyro_correct_int s))
  || F32.is_nan (at1 (gyro_correct_int s)) = true ->
  updateSensors fuel i a s = Some (r, a', s') ->
  has_nan3 (gyros a') = true
  /\ q (updateAttitude t a' s') = q_identity
  /\ F32.is_nan (at0 (gyro_correct_int (updateAttitude t a' s')))
     || F32.is_nan (at1 (gyro_correct_int (updateAttitude t a' s'))) = true
  /\ bias_correct_gyro (updateAttitude t a' s') = true.
Proof.
  intros fuel i a s r a' s' t Hflag Hnan H.
  destruct (updateSensors_reading _ _ _ _ _ _ _ H)
    as (da & ca & acca & dg & cg & accg & s1 & _ & _ & -> & _ & _ & _ & _
        & Hgy & Hb & Hf & _).
  rewrite Hflag in Hgy. cbv zeta in Hgy.
  assert (Hn : has_nan3 (gyros a') = true).
  { rewrite Hgy. unfold has_nan3. cbn [at0 at1 at2].
    apply orb_true_iff in Hnan. destruct Hnan as [N|N];
      apply is_nan_eq in N; rewrite N, add_nan_r; cbn [F32.is_nan orb];
      [reflexivity|rewrite orb_true_r; reflexivity]. }
  split; [exact Hn|]. split.
  { apply updateAttitude_nan, stepped_q_nan.
    rewrite Hn, orb_true_r. reflexivity. }
  split.
  - rewrite updateAttitude_bias. cbv zeta. cbn [at0 at1].
    rewrite updateBaro_bias, Hb. cbn [at0 at1].
    apply orb_true_iff in Hnan. destruct Hnan as [N|N];
      apply is_nan_eq in N; rewrite N, add_nan_l; cbn [F32.is_nan orb];
      [reflexivity|apply orb_true_r].
  - rewrite updateAttitude_bias_flag.
    destruct (updateBaro_gyro_state (i) s1) as (_ & -> & _).
    rewrite Hf. exact Hflag.
Qed.

End Attitude.

(** * Examples

    The module on concrete inputs, with a 32-bit tick counter, one tick per
    millisecond, and the example conversions. *)

Abbreviation example_boot bc :=
  (AttitudeTask_start example_quat example_R (0, 0, 0, 0)
     (AttitudeInitialize (reset_state (example_settings bc)))).

Abbreviation example_updateAttitude :=
  (updateAttitude 4294967295 1 example_rpy).

(** A successful iteration at tick 8000 from the freshly started task: the
    alarm is clear, and the quaternion and AttitudeActual are untouched. *)
Lemma cycle_leaves_attitude_untouched_example :
  exists s',
    AttitudeTask_cycle example_powf 10 (example_cycle 8000) (example_boot 1)
    = Some s'
    /\ alarm_attitude s' = SYSTEMALARMS_ALARM_OK
    /\ q s' = q (example_boot 1)
    /\ AttitudeActual s' = AttitudeActual (example_boot 1).
Proof.
  assert (E : exists s',
             AttitudeTask_cycle example_powf 10 (example_cycle 8000)
               (example_boot 1) = Some s')
    by (vm_compute; eexists; reflexivity).
  destruct E as [s' E]. exists s'. split; [exact E|].
  destruct (cycle_leaves_attitude_untouched example_powf _ _ _ _ E)
    as (Hal & Hq & _ & Ha & _).
  split; [exact Hal|]. split; [exact Hq|exact Ha].
Defined.

(** With an accelerometer FIFO that stays empty [updateSensors] never
    returns, and with one that is empty at first and filled later it waits
    and returns 0: in neither case does it report a fault. *)
Lemma sensor_fault_counterexample :
  (forall fuel,
      updateSensors example_powf fuel example_sensors_stalled zero_raw
        (example_boot 1) = None)
  /\ accel_fifo example_sensors 0%nat = None
  /\ exists a' s',
      updateSensors example_powf 10 example_sensors zero_raw (example_boot 1)
      = Some (0, a', s').
Proof.
  split; [|split].
  - intros fuel. apply updateSensors_spins. left. reflexivity.
  - reflexivity.
  - vm_compute. eexists. eexists. reflexivity.
Qed.

(** The accelerometer FIFO of the example is empty for two reads: after two
    reads [updateSensors] is still polling, after ten it has returned 0 with
    all three samples drained, and the iteration has completed with the alarm
    clear.  With a FIFO that stays empty neither returns. *)
Lemma sensor_fault_handling_example :
  updateSensors example_powf 7 example_sensors_stalled zero_raw
    (example_boot 1) = None
  /\ updateSensors example_powf 2 example_sensors zero_raw (example_boot 1)
     = None
  /\ (exists a' s',
        updateSensors example_powf 10 example_sensors zero_raw (example_boot 1)
        = Some (0, a', s')
        /\ accel_samples s' = 3 /\ gyro_samples s' = 1)
  /\ (exists s',
        AttitudeTask_cycle example_powf 10 (example_cycle 8000)
          (example_boot 1) = Some s'
        /\ alarm_attitude s' = SYSTEMALARMS_ALARM_OK)
  /\ AttitudeTask_cycle example_powf 7
       (mkCycleInput 8000 8000 0 example_sensors_stalled) (example_boot 1)
     = None
  /\ alarm_attitude (handle_sensors (-1) zero_raw (example_boot 1))
     = SYSTEMALARMS_ALARM_ERROR
  /\ AttitudeRaw (handle_sensors (-1) zero_raw (example_boot 1))
     = AttitudeRaw (example_boot 1).
Proof.
  destruct (sensor_fault_handling example_powf)
    as (_ & Hspin & Hshort & Hfed & Hcyc & Hstall & Hfault & _).
  split; [apply Hspin; left; reflexivity|].
  split; [apply (Hshort 2%nat example_sensors zero_raw (example_boot 1) 2%nat
                   [mkBma180 1 0 0 0; mkBma180 2 0 0 0; mkBma180 2 0 0 0]);
          [reflexivity|apply le_n]|].
  split.
  { destruct (Hfed 10%nat example_sensors zero_raw (example_boot 1)
                2%nat (mkBma180 1 0 0 0) [mkBma180 2 0 0 0; mkBma180 2 0 0 0]
                0%nat (mkMpu6050 0 0 (-2) 0) [])
      as (a' & s' & E & Ha & Hg);
      [reflexivity|reflexivity|cbn; lia|cbn; lia|].
    exists a', s'. split; [exact E|]. split; [exact Ha|exact Hg]. }
  split.
  { destruct (Hcyc 10%nat (example_cycle 8000) (example_boot 1))
      as (s' & evs & E & Hal & _).
    - exists 2%nat, (mkBma180 1 0 0 0), [mkBma180 2 0 0 0; mkBma180 2 0 0 0],
        0%nat, (mkMpu6050 0 0 (-2) 0), [].
      split; [reflexivity|]. split; [reflexivity|]. split; cbn; lia.
    - exists s'. split; [exact E|exact Hal]. }
  split; [apply Hstall; left; reflexivity|].
  destruct (Hfault (-1) zero_raw (example_boot 1)) as (Ha & Hr & _);
    [discriminate|].
  split; [exact Ha|exact Hr].
Defined.

(** An accelerometer reading of zero makes the error term 0/0: the norm is a
    not-a-number and the quaternion is set back to the identity. *)
Lemma divergence_resets_quaternion_example :
  stepped_qmag 4294967295 1 5 zero_raw (example_boot 1) = S754_nan
  /\ q (example_updateAttitude 5 zero_raw (example_boot 1)) = q_identity.
Proof.
  assert (E : stepped_qmag 4294967295 1 5 zero_raw (example_boot 1)
              = S754_nan) by (vm_compute; reflexivity).
  split; [exact E|].
  apply (divergence_resets_quaternion 4294967295 1 example_rpy).
  left. exact E.
Defined.

(** In that call the bias integral has already taken the not-a-number in:
    the quaternion is reset, the integral is not. *)
Lemma divergence_resets_only_q_example :
  diverged (stepped_qmag 4294967295 1 5 zero_raw (example_boot 1)) = true
  /\ q (example_updateAttitude 5 zero_raw (example_boot 1)) = q_identity
  /\ at0 (gyro_correct_int (example_updateAttitude 5 zero_raw (example_boot 1)))
     = S754_nan
  /\ lastSysTime (example_updateAttitude 5 zero_raw (example_boot 1)) = 5.
Proof.
  assert (D : diverged (stepped_qmag 4294967295 1 5 zero_raw (example_boot 1))
              = true) by (vm_compute; reflexivity).
  destruct (divergence_resets_only_q 4294967295 1 example_rpy 5 zero_raw
              (example_boot 1)) as (Hb & Ht & _ & Hq).
  split; [exact D|]. split; [exact (Hq D)|]. split; [|exact Ht].
  rewrite Hb. vm_compute. reflexivity.
Defined.

(** With bias correction on, a stored bias of 1 and an averaged z reading of
    2, the integral moves by -(2 + 1) and not by -2; with bias correction off
    it moves by -2. *)
Lemma yaw_bias_counterexample :
  at2 (gyro_correct_int (example_boot 1)) = F32.of_Z 1
  /\ yawBiasRate (example_boot 1) = F32.of_Z 1
  /\ F32.mul (F32.neg (F32.of_Z (-2))) (F32.div (F32.of_Z 1) (F32.of_Z 1))
     = F32.of_Z 2
  /\ F32.add (F32.of_Z 1) (F32.mul (F32.neg (F32.of_Z 2)) (F32.of_Z 1))
     = F32.of_Z (-1)
  /\ (exists a' s',
        updateSensors example_powf 10 example_sensors zero_raw (example_boot 1)
        = Some (0, a', s')
        /\ at2 (gyro_correct_int s') = F32.of_Z (-2))
  /\ (exists a' s',
        updateSensors example_powf 10 example_sensors zero_raw (example_boot 0)
        = Some (0, a', s')
        /\ at2 (gyro_correct_int s') = F32.of_Z (-1))
  /\ F32.of_Z (-2) <> F32.of_Z (-1).
Proof.
  repeat split; try (vm_compute; reflexivity).
  - vm_compute. eexists. eexists. split; reflexivity.
  - vm_compute. eexists. eexists. split; reflexivity.
  - vm_compute. discriminate.
Qed.

(** Gyroscope z samples 10, 20 and 30 with scale 1: the averaged reading is
    -60 * (1 / 3).  With bias correction on and a stored bias of 1 the
    published z rate is that plus 1, and the integral moves by minus the
    published rate. *)
Lemma yaw_bias_update_example :
  exists a' s',
    updateSensors example_powf 10 example_sensors_three zero_raw
      (example_boot 1) = Some (0, a', s')
    /\ at2 (gyros a')
       = F32.add (F32.mul (F32.of_Z (-60))
                          (F32.div (F32.of_Z 1) (F32.of_Z 3)))
                 (F32.of_Z 1)
    /\ gyro_correct_int s'
       = Arr3 F32.zero F32.zero
           (F32.add (F32.of_Z 1)
                    (F32.mul (F32.neg (at2 (gyros a'))) (F32.of_Z 1))).
Proof.
  destruct (yaw_bias_update example_powf 10 example_sensors_three zero_raw
              (example_boot 1) 0 (mkBma180 1 0 0 0) [mkBma180 3 0 0 0]
              1 (mkMpu6050 7 0 10 0)
              [mkMpu6050 7 0 20 0; mkMpu6050 7 0 30 0])
    as (a' & s' & E & Hg & Hb);
    [reflexivity|reflexivity|cbn; lia|cbn; lia|].
  exists a', s'. split; [exact E|].
  split; [rewrite Hg; vm_compute; reflexivity|].
  rewrite Hb, Hg. vm_compute. reflexivity.
Defined.

(** From the start of the task, iterations at ticks 500, 3000, 8000, 8001
    with settings that ask for gains 1, 1, 1: at tick 3000 the gains are
    forced to 1, 0.9, 0.23 and [init] is cleared; the iteration at tick 8000
    loads the settings, and after tick 8001 the gains are 1, 1, 1, the
    settings having been read for that one load only. *)
Lemma gain_scheduling_example :
  configured_gains (AttitudeSettings (example_boot 1))
  = (F32.of_Z 1, F32.of_Z 1, F32.of_Z 1)
  /\ gains (select_gains (example_cycle 3000) (example_boot 1)) = forced_gains
  /\ init (select_gains (example_cycle 3000) (example_boot 1)) = 0
  /\ gains (select_gains (example_cycle 8000) (example_boot 1))
     = (F32.of_Z 1, F32.of_Z 1, F32.of_Z 1)
  /\ exists s0 s1 s' evs,
      AttitudeTask_cycle example_powf 10 (example_cycle 500) (example_boot 1)
      = Some s0
      /\ AttitudeTask_cycle example_powf 10 (example_cycle 3000) s0 = Some s1
      /\ AttitudeTask_loop example_powf 10
           [example_cycle 8000; example_cycle 8001] s1 = Some s'
      /\ gains s1 = forced_gains
      /\ gains s' = (F32.of_Z 1, F32.of_Z 1, F32.of_Z 1)
      /\ log s' = log s1 ++ evs /\ settings_reads evs = 3%nat.
Proof.
  destruct (gain_scheduling 4294967295 1 example_rpy example_quat example_R
              example_powf)
    as (Hconv & _ & Hload & Hcyc & Hret & Hrun).
  assert (R : reachable 4294967295 1 example_rpy example_quat example_R
                example_powf (example_boot 1)).
  { apply reach_start, reach_initialize, reach_reset. }
  split; [reflexivity|].
  destruct (Hconv (example_cycle 3000) (example_boot 1)) as [Hg Hi];
    [cbn; lia|cbn; lia|].
  split; [exact Hg|]. split; [exact Hi|].
  split.
  { destruct (Hload (example_cycle 8000) (example_boot 1) R) as (H & _);
      [left; cbn; lia|reflexivity|exact H]. }
  assert (F : forall t, feeds 10 (sensors (example_cycle t))).
  { intros t.
    exists 2%nat, (mkBma180 1 0 0 0), [mkBma180 2 0 0 0; mkBma180 2 0 0 0],
      0%nat, (mkMpu6050 0 0 (-2) 0), [].
    split; [reflexivity|]. split; [reflexivity|]. split; cbn; lia. }
  destruct (Hret 10%nat [example_cycle 500] (example_boot 1)) as [s0 E0];
    [repeat constructor; apply F|].
  cbn [AttitudeTask_loop] in E0.
  destruct (AttitudeTask_cycle example_powf 10 (example_cycle 500)
              (example_boot 1)) as [s0'|] eqn:E0'; [|discriminate].
  inversion E0; subst s0'; clear E0.
  destruct (Hret 10%nat [example_cycle 3000] s0) as [s1 E1];
    [repeat constructor; apply F|].
  cbn [AttitudeTask_loop] in E1.
  destruct (AttitudeTask_cycle example_powf 10 (example_cycle 3000) s0)
    as [s1'|] eqn:E1'; [|discriminate].
  inversion E1; subst s1'; clear E1.
  destruct (Hret 10%nat [example_cycle 8000; example_cycle 8001] s1)
    as [s' E']; [repeat constructor; apply F|].
  assert (Z0 : zero_during_arming s0 = false
               /\ AttitudeSettings s0 = AttitudeSettings (example_boot 1)).
  { destruct (Hcyc _ _ _ _ E0') as (_ & _ & Hs).
    split; [|exact Hs].
    destruct (cycle_after_select_gains example_powf _ _ _ _ E0')
      as (_ & _ & _ & Hz & _). rewrite Hz. reflexivity. }
  destruct Z0 as [Z0 S0].
  assert (Z1 : zero_during_arming s1 = false).
  { destruct (cycle_after_select_gains example_powf _ _ _ _ E1')
      as (_ & _ & _ & Hz & _). rewrite Hz. exact Z0. }
  destruct (Hrun 10%nat (example_cycle 3000) (example_cycle 8000)
              [example_cycle 8001] s0 s1 s')
    as (G1 & G' & evs & Hl & Hn);
    [left; reflexivity|exact E1'|exact E'
    |repeat constructor; cbn; try lia; unfold arming; rewrite Z1; reflexivity
    |].
  exists s0, s1, s', evs.
  split; [reflexivity|]. split; [exact E1'|]. split; [exact E'|].
  split; [exact G1|]. split; [rewrite G', S0; reflexivity|].
  split; [exact Hl|exact Hn].
Defined.

(** One tick after the previous call the step is positive, and within the
    same tick it is 0.001. *)
Lemma time_step_positive_example :
  F32.ltb F32.zero (time_step 4294967295 1 6 5) = true
  /\ time_step 4294967295 1 5 5 = S754_finite false 8589935 (-33).
Proof.
  split.
  - destruct (time_step_positive 4294967295 1 6 5) as (_ & H & _);
      [reflexivity|reflexivity|lia|lia|exact H].
  - destruct (time_step_positive 4294967295 1 5 5) as (H & _ & _);
      [reflexivity|reflexivity|lia|lia|].
    rewrite (H eq_refl). vm_compute. reflexivity.
Defined.

(** Three samples with x = 1, 2, 2 and a scale factor of 1: the published x
    reading is [5 * (1 / 3)]. *)
Lemma accel_reading_example :
  exists s',
    AttitudeTask_cycle example_powf 10 (example_cycle 8000) (example_boot 1)
    = Some s'
    /\ accels (AttitudeRaw s')
       = Arr3 (F32.mul (F32.of_Z 5) (F32.div (F32.of_Z 1) (F32.of_Z 3)))
              F32.zero F32.zero.
Proof.
  destruct (accel_reading_is_scaled_sum example_powf 10 (example_cycle 8000)
              (example_boot 1) 2 (mkBma180 1 0 0 0)
              [mkBma180 2 0 0 0; mkBma180 2 0 0 0] 0 (mkMpu6050 0 0 (-2) 0) [])
    as (s' & E & _ & Ha);
    [reflexivity | reflexivity | cbn; lia | cbn; lia | ].
  exists s'. split; [exact E|].
  rewrite Ha; [vm_compute; reflexivity|cbn; lia..].
Defined.

(** The order of the operations shows in the last place: in single precision
    [5 * (1 / 3)], which the code publishes, and [(5 / 3) * 1] are the two
    floats next to 5/3. *)
Lemma accel_reading_rounding_order :
  F32.mul (F32.of_Z 5) (F32.div (F32.of_Z 1) (F32.of_Z 3))
  = S754_finite false 13981014 (-23)
  /\ F32.mul (F32.div (F32.of_Z 5) (F32.of_Z 3)) (F32.of_Z 1)
     = S754_finite false 13981013 (-23).
Proof. split; vm_compute; reflexivity. Qed.

(** After start-up the record [raw] is zero, and [updateSensors] publishes
    it while the record it fills in carries the reading of the samples. *)
Lemma raw_publication_is_zero_example :
  raw (example_boot 1) = zero_raw
  /\ (exists a' s',
        updateSensors example_powf 10 example_sensors zero_raw (example_boot 1)
        = Some (0, a', s')
        /\ AttitudeRaw s' = zero_raw
        /\ at0 (accels a') = S754_finite false 13981014 (-23))
  /\ exists s',
      AttitudeTask_cycle example_powf 10 (example_cycle 8000) (example_boot 1)
      = Some s'
      /\ at0 (accels (AttitudeRaw s')) = S754_finite false 13981014 (-23).
Proof.
  assert (R : reachable 4294967295 1 example_rpy example_quat example_R
                example_powf (example_boot 1)).
  { apply reach_start, reach_initialize, reach_reset. }
  destruct (raw_publication_is_zero 4294967295 1 example_rpy example_quat
              example_R example_powf _ R) as (Hraw & Hpub & Hcyc & _).
  split; [exact Hraw|]. split.
  - destruct (Hpub 10%nat example_sensors zero_raw 2%nat (mkBma180 1 0 0 0)
                [mkBma180 2 0 0 0; mkBma180 2 0 0 0] 0%nat
                (mkMpu6050 0 0 (-2) 0) [])
      as (a' & s' & evs & E & HR & _ & _ & _ & Ha);
      [reflexivity|reflexivity|cbn; lia|cbn; lia|].
    exists a', s'. split; [exact E|]. split; [exact HR|].
    rewrite Ha. vm_compute. reflexivity.
  - destruct (Hcyc 10%nat (example_cycle 8000) 2%nat (mkBma180 1 0 0 0)
                [mkBma180 2 0 0 0; mkBma180 2 0 0 0] 0%nat
                (mkMpu6050 0 0 (-2) 0) [])
      as (s' & evs0 & evs1 & E & _ & _ & _ & Ha);
      [reflexivity|reflexivity|cbn; lia|cbn; lia|].
    exists s'. split; [exact E|]. rewrite Ha. vm_compute. reflexivity.
Defined.

(** ** A rate beyond any sensor

    With a finite gyroscope rate of 2^103 deg/s the squared norm overflows,
    [qmag] is infinite, which the divergence test lets through, and the
    stored quaternion is zero; the next call finds a norm of zero and sets
    the identity again. *)
Lemma huge_rate_example :
  q (example_updateAttitude 5 example_raw_huge (example_boot 1))
  = Arr4 F32.zero F32.zero F32.zero F32.zero
  /\ q (example_updateAttitude 6 example_raw_huge
          (example_updateAttitude 5 example_raw_huge (example_boot 1)))
     = q_identity.
Proof. split; vm_compute; reflexivity. Qed.

(** A turn from the identity, twice: each time step gives a quaternion near
    (1, 0.0006, 0.0001, 0), the divergence test does not trigger, and the
    quaternion stored after each call is a unit quaternion. *)
Lemma renormalisation_keeps_unit_norm_example :
  steps_below 4294967295 1 example_rpy 50
    [(5, example_raw_turn); (9, example_raw_turn)] (example_boot 1) = true
  /\ diverged
       (stepped_qmag 4294967295 1 5 example_raw_turn (example_boot 1)) = false
  /\ unit_quaternion
       (q (example_updateAttitude 5 example_raw_turn (example_boot 1)))
  /\ unit_quaternion
       (q (updateAttitude_run 4294967295 1 example_rpy
             [(5, example_raw_turn); (9, example_raw_turn)] (example_boot 1))).
Proof.
  assert (B : steps_below 4294967295 1 example_rpy 50
                [(5, example_raw_turn); (9, example_raw_turn)]
                (example_boot 1) = true) by (vm_compute; reflexivity).
  destruct (renormalisation_keeps_unit_norm 4294967295 1 example_rpy)
    as (Hstep & _ & Hrun).
  split; [exact B|]. split; [vm_compute; reflexivity|]. split.
  - apply Hstep. vm_compute. reflexivity.
  - exact (Hrun [(5, example_raw_turn); (9, example_raw_turn)]
             (example_boot 1) 2%nat eq_refl B).
Defined.

(** ** The filter update on inputs it cannot use *)

(** A gyroscope x rate that is not a number: the call stores and publishes
    (1,0,0,0). *)
Lemma nan_input_resets_quaternion_example :
  q (example_updateAttitude 5 example_raw_nan (example_boot 1)) = q_identity
  /\ actual_q (AttitudeActual
                 (example_updateAttitude 5 example_raw_nan (example_boot 1)))
     = q_identity.
Proof.
  apply (nan_input_resets_quaternion 4294967295 1 example_rpy).
  vm_compute. reflexivity.
Defined.

(** The rate of 2^103 deg/s: the norm is +infinity, the test does not
    trigger, and the quaternion stored is zero. *)
Lemma norm_overflow_stores_zero_example :
  diverged (stepped_qmag 4294967295 1 5 example_raw_huge (example_boot 1))
  = false
  /\ all_zero4 (q (example_updateAttitude 5 example_raw_huge (example_boot 1)))
     = true
  /\ quat_norm (q (example_updateAttitude 5 example_raw_huge (example_boot 1)))
     = 0%R.
Proof.
  apply (norm_overflow_stores_zero 4294967295 1 example_rpy);
    vm_compute; reflexivity.
Defined.

(** An accelerometer reading of zeros: the quaternion is set back, and the
    x and y components of the bias integral are no longer numbers. *)
Lemma zero_acceleration_poisons_bias_example :
  accel_error (q (example_boot 1)) (accels zero_raw) = nan3
  /\ q (example_updateAttitude 5 zero_raw (example_boot 1)) = q_identity
  /\ at0 (gyro_correct_int (example_updateAttitude 5 zero_raw (example_boot 1)))
     = S754_nan
  /\ at1 (gyro_correct_int (example_updateAttitude 5 zero_raw (example_boot 1)))
     = S754_nan
  /\ at2 (gyro_correct_int (example_updateAttitude 5 zero_raw (example_boot 1)))
     = at2 (gyro_correct_int (example_boot 1)).
Proof.
  apply (zero_acceleration_poisons_bias 4294967295 1 example_rpy).
  vm_compute. reflexivity.
Defined.

(** At rest with gravity along -z the quaternion stays (1,0,0,0). *)
Lemma level_rest_is_fixed_point_example :
  q (example_updateAttitude 5 example_raw_rest (example_boot 1)) = q_identity.
Proof.
  apply (level_rest_is_fixed_point 4294967295 1 example_rpy);
    vm_compute; reflexivity.
Defined.

(** After the zero accelerometer reading above, with bias correction on, a
    call of [updateSensors] publishes a gyroscope reading that is not a
    number and the filter update that follows stores (1,0,0,0) again. *)
Lemma nan_bias_locks_the_filter_example :
  exists a' s',
    updateSensors example_powf 10 example_sensors zero_raw
      (example_updateAttitude 5 zero_raw (example_boot 1)) = Some (0, a', s')
    /\ has_nan3 (gyros a') = true
    /\ q (example_updateAttitude 6 a' s') = q_identity
    /\ F32.is_nan (at0 (gyro_correct_int (example_updateAttitude 6 a' s')))
       || F32.is_nan (at1 (gyro_correct_int (example_updateAttitude 6 a' s')))
       = true.
Proof.
  assert (E : exists a' s',
             updateSensors example_powf 10 example_sensors zero_raw
               (example_updateAttitude 5 zero_raw (example_boot 1))
             = Some (0, a', s'))
    by (vm_compute; eexists; eexists; reflexivity).
  destruct E as (a' & s' & E). exists a', s'. split; [exact E|].
  destruct (nan_bias_locks_the_filter 4294967295 1 example_rpy example_powf
              10%nat example_sensors zero_raw
              (example_updateAttitude 5 zero_raw (example_boot 1))
              0 a' s' 6) as (A & B & C & _);
    [vm_compute; reflexivity|vm_compute; reflexivity|exact E|].
  split; [exact A|]. split; [exact B|exact C].
Defined.

(** ** The sensor stage *)

(** Gyroscope samples with x = 7 three times and z = 10, 20, 30, scale 1,
    bias correction on with a stored bias of (0, 0, 1): the published y rate
    is -21 * (1/3), from the sensor's x axis, the x rate is a zero, and
    the z rate is -60 * (1/3) + 1. *)
Lemma gyro_reading_swaps_axes_example :
  exists s',
    AttitudeTask_cycle example_powf 10
      (mkCycleInput 8000 8000 0 example_sensors_three) (example_boot 1)
    = Some s'
    /\ gyros (AttitudeRaw s')
       = Arr3 (S754_zero false)
              (F32.mul (F32.of_Z (-21)) (F32.div (F32.of_Z 1) (F32.of_Z 3)))
              (F32.add (F32.mul (F32.of_Z (-60))
                                (F32.div (F32.of_Z 1) (F32.of_Z 3)))
                       (F32.of_Z 1)).
Proof.
  destruct (gyro_reading_swaps_axes example_powf 10
              (mkCycleInput 8000 8000 0 example_sensors_three)
              (example_boot 1) 0 (mkBma180 1 0 0 0) [mkBma180 3 0 0 0]
              1 (mkMpu6050 7 0 10 0)
              [mkMpu6050 7 0 20 0; mkMpu6050 7 0 30 0])
    as (s' & E & Hg);
    [reflexivity|reflexivity|cbn; lia|cbn; lia|].
  exists s'. split; [exact E|].
  rewrite Hg. vm_compute. reflexivity.
Defined.



(** ** The barometer *)

(** Two iterations that each find a conversion completed, from the start of
    the task: one altitude publication and one pressure conversion started,
    the publication being the first of the two. *)
Lemma baro_publishes_every_other_conversion_example :
  exists s1 s2 evs,
    AttitudeTask_cycle example_powf 10
      (mkCycleInput 8000 8000 0 (example_sensors_baro 0 101325))
      (example_boot 1) = Some s1
    /\ AttitudeTask_cycle example_powf 10
         (mkCycleInput 8001 8001 0 (example_sensors_baro 0 90000)) s1
       = Some s2
    /\ log s2 = log (example_boot 1) ++ evs
    /\ length (filter is_BaroAltitudeSet evs) = 1%nat
    /\ length (filter is_pressure_start evs) = 1%nat
    /\ Pressure (BaroAltitude s2)
       = F32.div (F32.of_Z 101325) (literal_f 1000 1).
Proof.
  assert (E1 : exists s1,
             AttitudeTask_cycle example_powf 10
               (mkCycleInput 8000 8000 0 (example_sensors_baro 0 101325))
               (example_boot 1) = Some s1)
    by (vm_compute; eexists; reflexivity).
  destruct E1 as (s1 & E1).
  assert (E2 : exists s2,
             AttitudeTask_cycle example_powf 10
               (mkCycleInput 8001 8001 0 (example_sensors_baro 0 90000)) s1
             = Some s2).
  { apply cycle_feeds.
    exists 2%nat, (mkBma180 1 0 0 0), [mkBma180 2 0 0 0; mkBma180 2 0 0 0],
      0%nat, (mkMpu6050 0 0 (-2) 0), [].
    split; [reflexivity|]. split; [reflexivity|]. cbn. lia. }
  destruct E2 as (s2 & E2).
  assert (B0 : 0 <= baro_conversions (example_boot 1) < 2 ^ 32)
    by (split; [vm_compute; discriminate|vm_compute; reflexivity]).
  assert (V0 : Z.even (baro_conversions (example_boot 1)) = true)
    by (vm_compute; reflexivity).
  destruct (baro_publishes_every_other_conversion example_powf 10%nat
              (mkCycleInput 8000 8000 0 (example_sensors_baro 0 101325))
              (mkCycleInput 8001 8001 0 (example_sensors_baro 0 90000))
              (example_boot 1) s1 s2 B0 eq_refl eq_refl E1 E2)
    as (evs & Hl & Hb & Hp & _ & Hev & _).
  exists s1, s2, evs. split; [exact E1|]. split; [exact E2|].
  split; [exact Hl|]. split; [exact Hb|]. split; [exact Hp|].
  exact (proj2 (Hev V0)).
Defined.

(** From the start of the task, an iteration that finds no conversion
    completed and then one that does: the altitude is published, with the
    pressure the driver reports, and no pressure conversion was ever
    started. *)
Lemma first_altitude_precedes_pressure_conversion_example :
  exists s1 s',
    AttitudeTask_loop example_powf 10
      [mkCycleInput 8000 8000 0 (example_sensors_baro 1 0)] (example_boot 1)
    = Some s1
    /\ AttitudeTask_cycle example_powf 10
         (mkCycleInput 8001 8001 0 (example_sensors_baro 0 101325)) s1
       = Some s'
    /\ existsb is_pressure_start (log s') = false
    /\ In (EvBaroAltitudeSet (BaroAltitude s')) (log s')
    /\ Pressure (BaroAltitude s')
       = F32.div (F32.of_Z 101325) (literal_f 1000 1).
Proof.
  assert (E1 : exists s1,
             AttitudeTask_loop example_powf 10
               [mkCycleInput 8000 8000 0 (example_sensors_baro 1 0)]
               (example_boot 1) = Some s1)
    by (vm_compute; eexists; reflexivity).
  destruct E1 as (s1 & E1).
  assert (E2 : exists s',
             AttitudeTask_cycle example_powf 10
               (mkCycleInput 8001 8001 0 (example_sensors_baro 0 101325)) s1
             = Some s').
  { apply cycle_feeds.
    exists 2%nat, (mkBma180 1 0 0 0), [mkBma180 2 0 0 0; mkBma180 2 0 0 0],
      0%nat, (mkMpu6050 0 0 (-2) 0), [].
    split; [reflexivity|]. split; [reflexivity|]. cbn. lia. }
  destruct E2 as (s' & E2).
  destruct (first_altitude_precedes_pressure_conversion example_quat
              example_R example_powf (example_settings 1) (0, 0, 0, 0) 10%nat
              [mkCycleInput 8000 8000 0 (example_sensors_baro 1 0)]
              (mkCycleInput 8001 8001 0 (example_sensors_baro 0 101325))
              s1 s')
    as (_ & HP & HI & HPr);
    [repeat constructor; cbn; discriminate|exact E1|reflexivity|exact E2|].
  exists s1, s'. split; [exact E1|]. split; [exact E2|].
  split; [exact HP|]. split; [exact HI|exact HPr].
Defined.

(** ** The task *)

(** After the iterations at ticks 500, 3000 and 8000 the quaternion and
    the published quaternion are (1,0,0,0). *)
Lemma task_attitude_stays_identity_example :
  exists s',
    AttitudeTask_loop example_powf 10
      [example_cycle 500; example_cycle 3000; example_cycle 8000]
      (example_boot 1) = Some s'
    /\ q s' = q_identity
    /\ actual_q (AttitudeActual s') = q_identity
    /\ lastSysTime s' = 0.
Proof.
  assert (E : exists s',
             AttitudeTask_loop example_powf 10
               [example_cycle 500; example_cycle 3000; example_cycle 8000]
               (example_boot 1) = Some s')
    by (vm_compute; eexists; reflexivity).
  destruct E as (s' & E). exists s'. split; [exact E|].
  exact (task_attitude_stays_identity example_quat example_R example_powf
           (example_settings 1) (0, 0, 0, 0) 10%nat _ s' E).
Defined.

(** New settings with a gyroscope bias of (100, 200, 300) and bias
    correction off: the integral becomes (1, 2, 3), and the next iteration
    at tick 8000 ends with the gains of the new settings. *)
Lemma settings_update_takes_effect_example :
  exists s',
    AttitudeTask_cycle example_powf 10 (example_cycle 8000)
      (settingsUpdatedCb example_quat example_R
         (set_AttitudeSettings
            (mkAttitudeSettings (F32.of_Z 2) (F32.of_Z 3) (F32.of_Z 4)
               (F32.of_Z 1) 0 0 zero3i (Arr3 100 200 300) zero3i)
            (example_boot 1))) = Some s'
    /\ gyro_correct_int
         (settingsUpdatedCb example_quat example_R
            (set_AttitudeSettings
               (mkAttitudeSettings (F32.of_Z 2) (F32.of_Z 3) (F32.of_Z 4)
                  (F32.of_Z 1) 0 0 zero3i (Arr3 100 200 300) zero3i)
               (example_boot 1)))
       = Arr3 (F32.of_Z 1) (F32.of_Z 2) (F32.of_Z 3)
    /\ gains s' = (F32.of_Z 2, F32.of_Z 3, F32.of_Z 4).
Proof.
  assert (E : exists s',
             AttitudeTask_cycle example_powf 10 (example_cycle 8000)
               (settingsUpdatedCb example_quat example_R
                  (set_AttitudeSettings
                     (mkAttitudeSettings (F32.of_Z 2) (F32.of_Z 3)
                        (F32.of_Z 4) (F32.of_Z 1) 0 0 zero3i
                        (Arr3 100 200 300) zero3i)
                     (example_boot 1))) = Some s')
    by (vm_compute; eexists; reflexivity).
  destruct E as (s' & E). exists s'. split; [exact E|].
  destruct (settings_update_takes_effect example_quat example_R example_powf
              _ _ _ _ _ E) as (Hb & Hg & _).
  split; [rewrite Hb; vm_compute; reflexivity|].
  apply Hg; reflexivity.
Defined.

(** ** The time step *)

(** Ten ticks across the wrap of a 32-bit counter, from 4294967291 to 5,
    give the time step of ten ticks from 0, which is 10 / 1000. *)
Lemma time_step_follows_counter_wrap_example :
  time_step 4294967295 1 5 4294967291 = time_step 4294967295 1 10 0
  /\ time_step 4294967295 1 10 0
     = F32.div (F32.of_Z 10) (literal_f 1000 1).
Proof.
  destruct (time_step_follows_counter_wrap 4294967295 1 10 0 4294967291)
    as (H & H'); [lia|lia|].
  split; [exact H|].
  rewrite (H' ltac:(discriminate)). reflexivity.
Defined.

(** With a tick period of 10 and 5 ticks elapsed the time step is zero. *)
Lemma time_step_zero_within_tick_period_example :
  time_step 4294967295 10 5 0 = F32.zero.
Proof.
  apply time_step_zero_within_tick_period; [reflexivity|lia|lia|lia].
Defined.
